(** * ElderTech voice assistant backend: model and properties

    A shallow embedding of the implemented logic of the backend:
    - [services/openai.py]: the chat assistant and its history buffer,
      the soft-failing sentiment, entity and reminder wrappers;
    - [services/tts.py]: parameter validation of [text_to_speech], the
      voice catalogue, text preparation and [create_audio_file];
    - [services/whisper.py]: [validate_audio_format] and the
      transcription functions with their temporary file;
    - [routers/chat.py], [routers/whisper.py], [routers/auth.py]: the
      message and upload handlers and the claims of an access token;
    - [scripts/nightly_faq_clustering.py]: the FAQ organisation batch job.

    Python values are modelled as follows: [int] is [Z], [str] is
    [string], [bytes] is [list byte], [float] is an IEEE binary64 value
    ([spec_float] at precision 53), a value that may be [None] is an
    [option], a [dict] with a fixed set of keys is a record, a [dict]
    used as a map with insertion order is an association list, and a
    call that may raise returns a [result]. The services and the disk
    are parameters; where it matters what was asked of them, a function
    returns the calls it made or the files it left next to its result.
    [print] calls write to the console only and are left out. *)

From Stdlib Require Import ZArith List String Ascii Bool Lia DecimalString.
From Stdlib Require Import Permutation.
From Stdlib.Strings Require Import Byte.
From Stdlib.Floats Require Import SpecFloat.
Import ListNotations.

Set Implicit Arguments.

Open Scope string_scope.
Open Scope Z_scope.
Open Scope list_scope.

(* ================================================================= *)
(** * Part I: the program *)
(* ================================================================= *)

(** ** Python runtime values *)

Module Py.

(** An exception is represented by its message, [str(e)]. *)
Definition exn := string.

Inductive result (A : Type) : Type :=
| Ok (a : A)
| Raise (e : exn).
Arguments Ok {A} a.
Arguments Raise {A} e.

Definition bind {A B} (r : result A) (k : A -> result B) : result B :=
  match r with
  | Ok a => k a
  | Raise e => Raise e
  end.

Definition raises {A} (r : result A) : Prop :=
  match r with
  | Ok _ => False
  | Raise _ => True
  end.

Definition succeeded {A} (r : result A) : bool :=
  match r with
  | Ok _ => true
  | Raise _ => false
  end.

(** [[f(x) for x in xs]] where [f] may raise: the first exception
    aborts the comprehension. *)
Fixpoint comprehension {A B} (f : A -> result B) (xs : list A)
  : result (list B) :=
  match xs with
  | [] => Ok []
  | x :: xs' =>
      bind (f x) (fun y =>
      bind (comprehension f xs') (fun ys => Ok (y :: ys)))
  end.

(** [len(l)] *)
Definition len {A} (l : list A) : Z := Z.of_nat (List.length l).

(** [sum(xs)] over integers *)
Definition sum (xs : list Z) : Z := fold_left Z.add xs 0.

(** [l[-n:]] for [n > 0]: the last [n] items, or all of [l] when it
    has fewer. *)
Definition last_n {A} (n : nat) (l : list A) : list A :=
  skipn (List.length l - n) l.

(** [str(i)] and [f"{i}"] for an integer *)
Definition str_of_int (i : Z) : string :=
  NilZero.string_of_int (Z.to_int i).

(** *** Floats: IEEE binary64

    A float is a [spec_float] of the Standard Library at precision 53
    and maximal exponent 1024, in its canonical representation (the one
    [binary_normalize] and the operations return); the comparisons
    below are the IEEE ones on such values, false whenever an operand
    is NaN. *)

Definition float := spec_float.
Definition prec : Z := 53.
Definition emax : Z := 1024.

(** [float(i)], exact whenever [|i| <= 2^53]. *)
Definition float_of_int (i : Z) : float := binary_normalize prec emax i 0 false.

Definition fdiv (x y : float) : float := SFdiv prec emax x y.
Definition flt (x y : float) : bool := SFltb x y.
Definition fgt (x y : float) : bool := SFltb y x.
Definition fle (x y : float) : bool := SFleb x y.

(** An integer as an operand of [/]: its sign and magnitude with
    exponent 0. The integer is not rounded, so the mantissa may have
    more than 53 bits. *)
Definition int_operand (i : Z) : float :=
  match i with
  | Z0 => S754_zero false
  | Zpos p => S754_finite false p 0
  | Zneg p => S754_finite true p 0
  end.

(** The quotient of two integers, rounded once to binary64 (to nearest,
    ties to even), and infinite when it is too large for a binary64. *)
Definition true_quotient (a b : Z) : float :=
  SFdiv prec emax (int_operand a) (int_operand b).

Definition is_infinite (x : float) : bool :=
  match x with
  | S754_infinity _ => true
  | _ => false
  end.

(** [a / b] on two integers: [ZeroDivisionError] on a zero divisor,
    [OverflowError] when the rounded quotient is infinite, and the
    correctly rounded quotient otherwise. *)
Definition int_truediv (a b : Z) : result float :=
  if b =? 0 then Raise "division by zero"
  else
    let quotient := true_quotient a b in
    if is_infinite quotient
    then Raise "integer division result too large for a float"
    else Ok quotient.

(** The literals that occur in the sources. *)
Definition f0_25 : float := S754_finite false 4503599627370496 (-54).
Definition f1_0 : float := S754_finite false 4503599627370496 (-52).
Definition f4_0 : float := S754_finite false 4503599627370496 (-50).
Definition f0_1 : float := fdiv (float_of_int 1) (float_of_int 10).
Definition f0_5 : float := S754_finite false 4503599627370496 (-53).
Definition f0_7 : float := fdiv (float_of_int 7) (float_of_int 10).

(** Nearest integer to [num / den] ([den > 0]), ties to even. *)
Definition round_half_even (num den : Z) : Z :=
  let q := num / den in
  let r := num mod den in
  match 2 * r ?= den with
  | Lt => q
  | Gt => q + 1
  | Eq => if Z.even q then q else q + 1
  end.

(** The magnitude of a finite float, in tenths, rounded to the nearest
    integer (ties to even) from its exact binary value. *)
Definition tenths (m : positive) (e : Z) : Z :=
  if 0 <=? e then 10 * Z.pos m * 2 ^ e
  else round_half_even (10 * Z.pos m) (2 ^ (- e)).

Definition sign_str (s : bool) : string := if s then "-" else "".

Definition digits : list ascii :=
  ["0"; "1"; "2"; "3"; "4"; "5"; "6"; "7"; "8"; "9"]%char.

(** [f"{x:.1f}"] *)
Definition format_1f (x : float) : string :=
  match x with
  | S754_nan => "nan"
  | S754_infinity s => (sign_str s ++ "inf")%string
  | S754_zero s => (sign_str s ++ "0.0")%string
  | S754_finite s m e =>
      let t := tenths m e in
      (sign_str s ++ str_of_int (t / 10) ++ "." ++ str_of_int (t mod 10))%string
  end.

(** *** Computations that record events

    The outcome of a computation and the events it caused, in order.
    An exception ends the computation; the events caused before it
    stay. *)

Definition traced (E A : Type) : Type := (result A * list E)%type.

Definition ret {E A} (a : A) : traced E A := (Ok a, []).

Definition lift {E A} (r : result A) : traced E A := (r, []).

Definition tbind {E A B} (m : traced E A) (k : A -> traced E B)
  : traced E B :=
  match m with
  | (Ok a, events) => let '(r, events') := k a in (r, events ++ events')
  | (Raise e, events) => (Raise e, events)
  end.

(** *** JSON values, as [json.loads] returns them *)

#[warnings="-register-all"]
Inductive json : Type :=
| JNull
| JBool (b : bool)
| JInt (i : Z)
| JFloat (x : float)
| JStr (s : string)
| JArr (items : list json)
| JObj (members : list (string * json)).

(** Truth value of a decoded JSON value in an [if]. *)
Definition truthy (v : json) : bool :=
  match v with
  | JNull => false
  | JBool b => b
  | JInt i => negb (i =? 0)
  | JFloat x => negb (SFeqb x (S754_zero false))
  | JStr s => negb (s =? "")%string
  | JArr items => match items with [] => false | _ => true end
  | JObj members => match members with [] => false | _ => true end
  end.

(** [data.startswith(header)] on bytes *)
Fixpoint startswith (data header : list byte) : bool :=
  match header, data with
  | [], _ => true
  | _ :: _, [] => false
  | h :: header', d :: data' => Byte.eqb d h && startswith data' header'
  end.

End Py.

Import Py.

Declare Scope py_scope.
Notation "x <- r ;; k" := (Py.bind r (fun x => k))
  (at level 61, r at next level, right associativity) : py_scope.
Notation "x <~ m ;; k" := (Py.tbind m (fun x => k))
  (at level 61, m at next level, right associativity) : py_scope.
Open Scope py_scope.

(** ** The external services *)

(** One chat message, [{"role": ..., "content": ...}]. *)
Record message : Type := Message { role : string; content : string }.

(** The third-party calls the services make. Each may raise.
    - [chat_create model messages max_tokens temperature] stands for
      [openai.ChatCompletion.acreate(...)] followed by
      [response.choices[0].message.content];
    - [audio_create model voice input speed] stands for
      [openai.Audio.acreate(...)] followed by [response.content];
    - [json_loads] and [json_dumps] are the standard [json] functions. *)
Class Gateway : Type := {
  OPENAI_MODEL : string;
  chat_create : string -> list message -> Z -> float -> result string;
  audio_create : string -> string -> string -> float -> result (list byte);
  json_loads : string -> result json;
  json_dumps : json -> result string
}.

(** ** services/openai.py *)

Module OpenAI.

(** [ElderTechAssistant]: the object state. One instance is shared by
    the whole process ([assistant]). *)
Record ElderTechAssistant : Type := {
  system_prompt : string;
  conversation_history : list message
}.

Definition SYSTEM_PROMPT : string :=
"
        You are ElderTech, a compassionate AI voice assistant designed specifically for elderly users. 
        Your role is to provide helpful, supportive, and easy-to-understand assistance.
        
        Key principles:
        1. Speak clearly and use simple language
        2. Be patient and understanding
        3. Provide practical, actionable advice
        4. Show empathy and emotional support
        5. Help with daily tasks, health reminders, and social connection
        6. Never give medical advice - always recommend consulting healthcare professionals
        7. Keep responses concise but warm
        
        You can help with:
        - Daily reminders and scheduling
        - Health and wellness tips
        - Social connection and communication
        - Technology assistance
        - Emergency contact information
        - General questions and conversation
        
        Always prioritize safety and well-being.
        ".

(** [ElderTechAssistant.__init__] *)
Definition init : ElderTechAssistant :=
  {| system_prompt := SYSTEM_PROMPT; conversation_history := [] |}.

Definition with_history (self : ElderTechAssistant) (h : list message)
  : ElderTechAssistant :=
  {| system_prompt := system_prompt self; conversation_history := h |}.

(** The text returned by the [except] branch of [get_response]. *)
Definition apology (e : exn) : string :=
  ("I apologize, but I'm having trouble processing your request right now. Please try again later. Error: " ++ e)%string.

Section WithGateway.
Context {gw : Gateway}.

(** Lines 45-57 of [get_response]: the message list sent to the
    completion call. *)
Definition build_messages (self : ElderTechAssistant)
    (user_message : string) (user_context : option json)
  : result (list message) :=
  let messages := [Message "system" (system_prompt self)] in
  (* for msg in self.conversation_history[-10:]: messages.append(msg) *)
  let messages :=
    fold_left (fun messages msg => messages ++ [msg])
              (last_n 10 (conversation_history self)) messages in
  messages <-
    match user_context with
    | Some ctx =>
        if truthy ctx then
          dumped <- json_dumps ctx ;;
          Ok (messages ++ [Message "system" ("User context: " ++ dumped)%string])
        else Ok messages
    | None => Ok messages
    end ;;
  Ok (messages ++ [Message "user" user_message]).

(** The optional context message of [build_messages] on its own, for
    the statements below. *)
Definition context_messages (user_context : option json)
  : result (list message) :=
  match user_context with
  | Some ctx =>
      if truthy ctx then
        dumped <- json_dumps ctx ;;
        Ok [Message "system" ("User context: " ++ dumped)%string]
      else Ok []
  | None => Ok []
  end.

(** The body of the [try] block up to the completion's text. *)
Definition complete (self : ElderTechAssistant)
    (user_message : string) (user_context : option json)
  : result string :=
  messages <- build_messages self user_message user_context ;;
  chat_create OPENAI_MODEL messages 500 f0_7.

(** [ElderTechAssistant.get_response]: the returned text and the
    object afterwards. *)
Definition get_response (self : ElderTechAssistant)
    (user_message : string) (user_context : option json)
  : string * ElderTechAssistant :=
  match complete self user_message user_context with
  | Ok ai_response =>
      let history := conversation_history self in
      let history := history ++ [Message "user" user_message] in
      let history := history ++ [Message "assistant" ai_response] in
      (ai_response, with_history self history)
  | Raise e => (apology e, self)
  end.

(** [reset_conversation] *)
Definition reset_conversation (self : ElderTechAssistant)
  : ElderTechAssistant :=
  with_history self [].

(** A sequence of calls on the shared instance, oldest first. *)
Fixpoint get_responses (self : ElderTechAssistant)
    (calls : list (string * option json))
  : list string * ElderTechAssistant :=
  match calls with
  | [] => ([], self)
  | (user_message, user_context) :: calls' =>
      let '(reply, self') := get_response self user_message user_context in
      let '(replies, self'') := get_responses self' calls' in
      (reply :: replies, self'')
  end.

(** [analyze_sentiment]: any exception gives the neutral fallback. *)
Definition analyze_sentiment (text : string) : result json :=
  match
    (reply <- chat_create OPENAI_MODEL
       [Message "system" "Analyze the sentiment of the following text. Return only a JSON object with 'sentiment' (positive/negative/neutral) and 'confidence' (0-1).";
        Message "user" text] 100 f0_1 ;;
     json_loads reply)
  with
  | Ok result => Ok result
  | Raise e =>
      Ok (JObj [("sentiment", JStr "neutral");
                ("confidence", JFloat f0_5);
                ("error", JStr e)])
  end.

(** [extract_entities]: any exception gives the empty list. *)
Definition extract_entities (text : string) : result json :=
  match
    (reply <- chat_create OPENAI_MODEL
       [Message "system" "Extract named entities (people, places, dates, medical terms) from the text. Return as JSON array of objects with 'entity', 'type', and 'confidence'.";
        Message "user" text] 200 f0_1 ;;
     json_loads reply)
  with
  | Ok result => Ok result
  | Raise _ => Ok (JArr [])
  end.

End WithGateway.

End OpenAI.

(** ** services/tts.py *)

Module Tts.

Definition valid_voices : list string :=
  ["alloy"; "echo"; "fable"; "onyx"; "nova"; "shimmer"].

(** [voice in valid_voices] *)
Definition voice_in (voice : string) (voices : list string) : bool :=
  existsb (String.eqb voice) voices.

(** Lines 27-34 of [text_to_speech]: the voice and speed handed to the
    synthesis call. *)
Definition validate_params (voice : string) (speed : float)
  : string * float :=
  let voice := if negb (voice_in voice valid_voices) then "alloy" else voice in
  let speed := if flt speed f0_25 || fgt speed f4_0 then f1_0 else speed in
  (voice, speed).

(** [0.25 <= speed <= 4.0]: the speed lies in the closed interval. *)
Definition in_range (speed : float) : bool :=
  fle f0_25 speed && fle speed f4_0.

Section WithGateway.
Context {gw : Gateway}.

(** [text_to_speech]: empty audio on any exception. *)
Definition text_to_speech (text voice : string) (speed : float)
  : list byte :=
  let '(voice, speed) := validate_params voice speed in
  match audio_create "tts-1" voice text speed with
  | Ok audio_data => audio_data
  | Raise _ => []
  end.

End WithGateway.

End Tts.

(** ** services/whisper.py *)

Module Whisper.

Definition MAX_BYTES : Z := 25 * 1024 * 1024.

Definition audio_headers : list (list byte) :=
  [ list_byte_of_string "RIFF";
    list_byte_of_string "ID3";
    [xff; xfb]%byte;
    list_byte_of_string "OggS";
    list_byte_of_string "fLaC" ].

(** The [for header in audio_headers] loop: [Some true] stands for the
    [return True] inside the loop, [None] for falling through. *)
Fixpoint header_loop (audio_data : list byte) (headers : list (list byte))
  : option bool :=
  match headers with
  | [] => None
  | header :: headers' =>
      if startswith audio_data header then Some true
      else header_loop audio_data headers'
  end.

Definition validate_audio_format (audio_data : list byte) : bool :=
  match audio_data with
  | [] => false
  | _ :: _ =>
      if len audio_data >? MAX_BYTES then false
      else
        match header_loop audio_data audio_headers with
        | Some r => r
        | None => true
        end
  end.

(** The data begins with one of the listed headers. *)
Definition recognized (audio_data : list byte) : Prop :=
  exists header, In header audio_headers /\ startswith audio_data header = true.

End Whisper.

(** ** services/db.py: the FAQ table *)

Module FAQ.
(** One row of [faqs]; the columns the batch job reads. The two text
    columns are read inside the [try] block of [analyze_faq_content],
    and a NULL there is [None]. *)
Record t : Type := {
  id : Z;
  question : option string;
  answer : option string;
  category : string;
  priority : Z
}.
End FAQ.

(** ** A [dict] keyed by strings, in insertion order *)

Module Dict.
Section Dict.
Variable V : Type.

Definition t := list (string * V).

(** [k in d] *)
Fixpoint contains (k : string) (d : t) : bool :=
  match d with
  | [] => false
  | (k', _) :: d' => (k' =? k)%string || contains k d'
  end.

(** [d[k]], which raises [KeyError] on a missing key *)
Fixpoint getitem (k : string) (d : t) : result V :=
  match d with
  | [] => Raise ("KeyError: " ++ k)%string
  | (k', v) :: d' => if (k' =? k)%string then Ok v else getitem k d'
  end.

(** [d[k] = v]: a present key keeps its position, a new key goes
    last. *)
Fixpoint setitem (k : string) (v : V) (d : t) : t :=
  match d with
  | [] => [(k, v)]
  | (k', v') :: d' =>
      if (k' =? k)%string then (k, v) :: d' else (k', v') :: setitem k v d'
  end.

(** [d.items()] *)
Definition items (d : t) : list (string * V) := d.
End Dict.
End Dict.

(** ** scripts/nightly_faq_clustering.py *)

Module Clustering.

(** The dict returned by [analyze_faq_content]. *)
Module Analysis.
Record t : Type := {
  id : Z;
  question : option string;
  answer : option string;
  category : string;
  entities : json;
  sentiment : json;
  priority : Z
}.
End Analysis.

(** One element of the list returned by [create_clusters]. *)
Record Cluster : Type := {
  name : string;
  faqs : list Analysis.t;
  count : Z;
  avg_priority : float
}.

(** One element of the list returned by [identify_gaps]; the
    constructor is the dict's ["type"]. These are the two kinds
    [identify_gaps] builds; [GapDict] below adds the dicts of any other
    type. *)
Inductive Gap : Type :=
| LowCoverage (category : string) (current_count recommended_min : Z)
              (description : string)
| LowPriority (category : string) (avg_priority : float)
              (description : string).

Definition gap_type (g : Gap) : string :=
  match g with
  | LowCoverage _ _ _ _ => "low_coverage"
  | LowPriority _ _ _ => "low_priority"
  end.

Definition gap_category (g : Gap) : string :=
  match g with
  | LowCoverage c _ _ _ => c
  | LowPriority c _ _ => c
  end.

(** One element of the list passed to [generate_recommendations]: a
    gap as [identify_gaps] builds it, or a dict that holds a ["type"]
    and nothing else the function reads. *)
Inductive GapDict : Type :=
| Built (gap : Gap)
| TypeOnly (type : string).

(** [gap["type"]] *)
Definition dict_type (gap : GapDict) : string :=
  match gap with
  | Built g => gap_type g
  | TypeOnly type => type
  end.

Record Summary : Type := {
  total_faqs : Z;
  total_clusters : Z;
  total_gaps : Z
}.

(** The [results] dict of [save_results]. *)
Record Report : Type := {
  timestamp : string;
  clusters : list Cluster;
  gaps : list Gap;
  recommendations : list string;
  summary : Summary
}.

(** The file [save_results] writes. *)
Record SavedFile : Type := {
  output_file : string;
  results : Report
}.

(** The two readings of [datetime.now()] in [save_results]. *)
Record Clock : Type := {
  isoformat : string;
  strftime_Ymd_HMS : string
}.

(** The state of a [FAQClusterer] object. *)
Record FAQClusterer : Type := {
  self_clusters : list Cluster;
  self_gaps : list Gap
}.

(** [FAQClusterer.__init__] *)
Definition init : FAQClusterer := {| self_clusters := []; self_gaps := [] |}.

(** The two calls [analyze_faq_content] makes into [services.openai].
    They are kept abstract here so that the [except] branch of
    [analyze_faq_content] can be exercised; [openai_analyzer] below is
    the pair the script imports. *)
Class Analyzer : Type := {
  extract_entities : string -> result json;
  analyze_sentiment : string -> result json
}.

Definition openai_analyzer (gw : Gateway) : Analyzer :=
  {| extract_entities := OpenAI.extract_entities;
     analyze_sentiment := OpenAI.analyze_sentiment |}.

(** One call into [services.openai], with the text it was given. The
    analysis records its calls, so that a call made twice shows. *)
Inductive call : Type :=
| ExtractEntities (text : string)
| AnalyzeSentiment (text : string).

(** Lines 187-188 of [save_results]: [open(output_file, "w")] and
    [json.dump(results, f, ...)], which may raise. *)
Class Disk : Type := {
  write_json : string -> Report -> result unit
}.

(** A [for] loop whose body may raise. *)
Fixpoint for_loop {S A} (body : S -> A -> result S) (xs : list A) (s : S)
  : result S :=
  match xs with
  | [] => Ok s
  | x :: xs' => s' <- body s x ;; for_loop body xs' s'
  end.

(** [faq.question + " " + faq.answer], the text both analysis calls
    receive: [+] raises [TypeError] when an operand is [None]. *)
Definition faq_text (faq : FAQ.t) : result string :=
  match FAQ.question faq with
  | None => Raise "unsupported operand type(s) for +: 'NoneType' and 'str'"
  | Some question =>
      match FAQ.answer faq with
      | None =>
          Raise ("can only concatenate str (not "
                   ++ String "034" "NoneType" ++ String "034" ") to str")%string
      | Some answer => Ok (question ++ " " ++ answer)%string
      end
  end.

Section WithAnalyzer.
Context {an : Analyzer}.

Definition call_extract_entities (text : string) : traced call json :=
  (extract_entities text, [ExtractEntities text]).

Definition call_analyze_sentiment (text : string) : traced call json :=
  (analyze_sentiment text, [AnalyzeSentiment text]).

(** The [try] block of [analyze_faq_content], with the calls it
    makes. *)
Definition analyze_faq_try (faq : FAQ.t) : traced call Analysis.t :=
  text <~ lift (faq_text faq) ;;
  entities <~ call_extract_entities text ;;
  text <~ lift (faq_text faq) ;;
  sentiment <~ call_analyze_sentiment text ;;
  ret {| Analysis.id := FAQ.id faq;
         Analysis.question := FAQ.question faq;
         Analysis.answer := FAQ.answer faq;
         Analysis.category := FAQ.category faq;
         Analysis.entities := entities;
         Analysis.sentiment := sentiment;
         Analysis.priority := FAQ.priority faq |}.

(** [analyze_faq_content]: [None] on any exception. *)
Definition analyze_faq_content (faq : FAQ.t)
  : option Analysis.t * list call :=
  match analyze_faq_try faq with
  | (Ok analysis, calls) => (Some analysis, calls)
  | (Raise _, calls) => (None, calls)
  end.
End WithAnalyzer.

(** The body of the grouping loop of [create_clusters]. *)
Definition group_step (clusters : Dict.t (list Analysis.t))
    (faq : option Analysis.t) : result (Dict.t (list Analysis.t)) :=
  match faq with
  | None => Ok clusters                                  (* continue *)
  | Some faq =>
      let category := Analysis.category faq in
      let clusters :=
        if negb (Dict.contains category clusters)
        then Dict.setitem category [] clusters
        else clusters in
      (* clusters[category].append(faq) *)
      members <- Dict.getitem category clusters ;;
      Ok (Dict.setitem category (members ++ [faq]) clusters)
  end.

(** One element of the list comprehension of [create_clusters]. *)
Definition make_cluster (item : string * list Analysis.t) : result Cluster :=
  let '(category, faqs) := item in
  avg <- int_truediv (sum (map Analysis.priority faqs)) (len faqs) ;;
  Ok {| name := category;
        faqs := faqs;
        count := len faqs;
        avg_priority := avg |}.

Definition create_clusters (faqs : list (option Analysis.t))
  : result (list Cluster) :=
  clusters <- for_loop group_step faqs [] ;;
  comprehension make_cluster (Dict.items clusters).

Definition low_coverage_gap (cluster : Cluster) : Gap :=
  LowCoverage (name cluster) (count cluster) 5
    ("Category '" ++ name cluster ++ "' has only "
       ++ str_of_int (count cluster) ++ " FAQs")%string.

Definition low_priority_gap (cluster : Cluster) : Gap :=
  LowPriority (name cluster) (avg_priority cluster)
    ("Category '" ++ name cluster ++ "' has low priority FAQs")%string.

(** [cluster["count"] < 3] *)
Definition is_low_coverage (cluster : Cluster) : bool :=
  count cluster <? 3.

(** [cluster["avg_priority"] < 2 and cluster["count"] > 5] *)
Definition is_low_priority (cluster : Cluster) : bool :=
  flt (avg_priority cluster) (float_of_int 2) && (count cluster >? 5).

Definition identify_gaps (clusters : list Cluster) : list Gap :=
  let gaps := [] in
  let gaps :=
    fold_left (fun gaps cluster =>
                 if is_low_coverage cluster
                 then gaps ++ [low_coverage_gap cluster]
                 else gaps) clusters gaps in
  let gaps :=
    fold_left (fun gaps cluster =>
                 if is_low_priority cluster
                 then gaps ++ [low_priority_gap cluster]
                 else gaps) clusters gaps in
  gaps.

(** The sentence [generate_recommendations] builds for one gap. *)
Definition recommendation (gap : Gap) : string :=
  match gap with
  | LowCoverage category current_count recommended_min _ =>
      ("Add more FAQs to category '" ++ category ++ "' "
         ++ "(currently " ++ str_of_int current_count
         ++ ", recommend " ++ str_of_int recommended_min ++ ")")%string
  | LowPriority category avg_priority _ =>
      ("Review and prioritize FAQs in category '" ++ category ++ "' "
         ++ "(average priority: " ++ format_1f avg_priority ++ ")")%string
  end.

(** [generate_recommendations] on the gaps [identify_gaps] builds. *)
Definition generate_recommendations (gaps : list Gap) : list string :=
  fold_left (fun recommendations gap =>
               recommendations ++ [recommendation gap]) gaps [].

(** One round of the loop of [generate_recommendations] on any dict:
    a type other than the two adds nothing, and a dict of one of the
    two types that lacks the keys of its template raises [KeyError]. *)
Definition recommend_step (recommendations : list string) (gap : GapDict)
  : result (list string) :=
  if (dict_type gap =? "low_coverage")%string then
    match gap with
    | Built (LowCoverage _ _ _ _ as g) =>
        Ok (recommendations ++ [recommendation g])
    | _ => Raise "'category'"
    end
  else if (dict_type gap =? "low_priority")%string then
    match gap with
    | Built (LowPriority _ _ _ as g) =>
        Ok (recommendations ++ [recommendation g])
    | _ => Raise "'category'"
    end
  else Ok recommendations.

(** [generate_recommendations] on any list of dicts with a ["type"]. *)
Definition generate_recommendations_dicts (gaps : list GapDict)
  : result (list string) :=
  for_loop recommend_step gaps [].

(** Lines 173-186 of [save_results]: the [results] dict and the name
    of the file. The writing of the file is [write_results]. *)
Definition save_results (self : FAQClusterer) (clock : Clock)
    (recommendations : list string) : SavedFile :=
  let results :=
    {| timestamp := isoformat clock;
       clusters := self_clusters self;
       gaps := self_gaps self;
       recommendations := recommendations;
       summary :=
         {| total_faqs := sum (map count (self_clusters self));
            total_clusters := len (self_clusters self);
            total_gaps := len (self_gaps self) |} |} in
  {| output_file :=
       ("clustering_results_" ++ strftime_Ymd_HMS clock ++ ".json")%string;
     results := results |}.

(** Lines 187-188 of [save_results]: the file is written. *)
Definition write_results {disk : Disk} (file : SavedFile) : result unit :=
  write_json (output_file file) (results file).

Section WithAnalyzer.
Context {an : Analyzer}.

(** The analysis loop of [run_clustering]: the list [analyzed_faqs]
    and the calls made, in order. *)
Definition analysis_loop (faqs : list FAQ.t)
  : list Analysis.t * list call :=
  fold_left (fun '(analyzed_faqs, calls) faq =>
               let '(analysis, made) := analyze_faq_content faq in
               (match analysis with
                | Some analysis => analyzed_faqs ++ [analysis]
                | None => analyzed_faqs
                end,
                calls ++ made)) faqs ([], []).

(** [analyzed_faqs] after the loop. *)
Definition analyze_all (faqs : list FAQ.t) : list Analysis.t :=
  fst (analysis_loop faqs).

(** The analysis calls of one run. *)
Definition analysis_calls (faqs : list FAQ.t) : list call :=
  snd (analysis_loop faqs).

Context {disk : Disk}.

(** [run_clustering]. [loaded] is the outcome of [get_db] and
    [load_faqs]; every exception is re-raised. *)
Definition run_clustering (self : FAQClusterer)
    (loaded : result (list FAQ.t)) (clock : Clock)
  : result (FAQClusterer * SavedFile) :=
  faqs <- loaded ;;
  let analyzed_faqs := analyze_all faqs in
  clusters <- create_clusters (map Some analyzed_faqs) ;;
  let self := {| self_clusters := clusters; self_gaps := self_gaps self |} in
  let gaps := identify_gaps (self_clusters self) in
  let self := {| self_clusters := self_clusters self; self_gaps := gaps |} in
  let recommendations := generate_recommendations (self_gaps self) in
  let file := save_results self clock recommendations in
  _ <- write_results file ;;
  Ok (self, file).
End WithAnalyzer.

(** *** Reference formulations used in the statements *)

(** The distinct strings of a list, in order of first occurrence. *)
Fixpoint distinct (l : list string) : list string :=
  match l with
  | [] => []
  | c :: l' => c :: filter (fun x => negb (x =? c)%string) (distinct l')
  end.

(** The analyses that are present ([if not faq: continue]). *)
Fixpoint present (faqs : list (option Analysis.t)) : list Analysis.t :=
  match faqs with
  | [] => []
  | Some faq :: faqs' => faq :: present faqs'
  | None :: faqs' => present faqs'
  end.

(** The analyses of one category, in input order. *)
Definition in_category (c : string) (faqs : list Analysis.t)
  : list Analysis.t :=
  filter (fun faq => (Analysis.category faq =? c)%string) faqs.

(** [sum(xs) / len(xs)] for a list that is not empty: the mean
    rounded once to binary64, infinite when too large for one. *)
Definition mean (xs : list Z) : float := true_quotient (sum xs) (len xs).

(** The cluster of category [c] over the analyses [faqs]. *)
Definition cluster_of (faqs : list Analysis.t) (c : string) : Cluster :=
  {| name := c;
     faqs := in_category c faqs;
     count := len (in_category c faqs);
     avg_priority := mean (map Analysis.priority (in_category c faqs)) |}.

(** A dict whose keys are [keys], in that order, with value [g k] at
    key [k]. *)
Definition keyed {V} (g : string -> V) (keys : list string) : Dict.t V :=
  map (fun k => (k, g k)) keys.

(** The grouping dict of [create_clusters] after the loop. *)
Definition groups (faqs : list Analysis.t) : Dict.t (list Analysis.t) :=
  keyed (fun c => in_category c faqs) (distinct (map Analysis.category faqs)).

(** What the analysis loop keeps of one FAQ. *)
Definition kept {an : Analyzer} (faq : FAQ.t) : list Analysis.t :=
  match fst (analyze_faq_content faq) with
  | Some analysis => [analysis]
  | None => []
  end.

(** The text can be built and both analysis calls return for it. *)
Definition analyzable {an : Analyzer} (faq : FAQ.t) : bool :=
  match faq_text faq with
  | Ok text =>
      succeeded (extract_entities text) && succeeded (analyze_sentiment text)
  | Raise _ => false
  end.

(** Something raises inside the [try] block: the building of the
    text, entity extraction or sentiment analysis. *)
Definition analysis_raises {an : Analyzer} (faq : FAQ.t) : Prop :=
  raises (faq_text faq) \/
  exists text,
    faq_text faq = Ok text /\
    (raises (extract_entities text) \/ raises (analyze_sentiment text)).

(** Each call at most once: entity extraction when the text can be
    built, sentiment analysis when entity extraction returned. *)
Definition calls_once {an : Analyzer} (faq : FAQ.t) : list call :=
  match faq_text faq with
  | Ok text =>
      ExtractEntities text
        :: (if succeeded (extract_entities text)
            then [AnalyzeSentiment text] else [])
  | Raise _ => []
  end.

(** Every priority is well inside the range of a binary64; every
    integer a database column holds is. *)
Definition bounded_priorities (faqs : list Analysis.t) : Prop :=
  forall faq, In faq faqs -> Z.abs (Analysis.priority faq) < 2 ^ 1022.

(** No mean of a category is too large for a binary64. *)
Definition means_fit (faqs : list Analysis.t) : Prop :=
  forall c, In c (map Analysis.category faqs) ->
    is_infinite (mean (map Analysis.priority (in_category c faqs))) = false.

(** The analysis record stems from this FAQ row. *)
Definition stems_from (a : Analysis.t) (faq : FAQ.t) : Prop :=
  Analysis.id a = FAQ.id faq /\
  Analysis.question a = FAQ.question faq /\
  Analysis.answer a = FAQ.answer faq /\
  Analysis.category a = FAQ.category faq /\
  Analysis.priority a = FAQ.priority faq.

End Clustering.

(** ** Sample data used by the examples *)

Module Samples.
Import Clustering.

Definition analysis (i : Z) (c : string) (p : Z) : Analysis.t :=
  {| Analysis.id := i;
     Analysis.question := Some "How do I call my doctor?";
     Analysis.answer := Some "Say: call my doctor.";
     Analysis.category := c;
     Analysis.entities := JArr [];
     Analysis.sentiment :=
       JObj [("sentiment", JStr "neutral"); ("confidence", JFloat f0_5)];
     Analysis.priority := p |}.

(** [[{cat:"A",prio:1},{cat:"A",prio:1},{cat:"B",prio:5}]] *)
Definition faqs_AAB : list Analysis.t :=
  [analysis 1 "A" 1; analysis 2 "A" 1; analysis 3 "B" 5].

(** Six FAQs of one category with mean priority 1.5. *)
Definition faqs_six : list Analysis.t :=
  [analysis 1 "C" 1; analysis 2 "C" 2; analysis 3 "C" 1;
   analysis 4 "C" 2; analysis 5 "C" 1; analysis 6 "C" 2].

Definition cluster_A : Cluster := cluster_of faqs_AAB "A".
Definition cluster_B : Cluster := cluster_of faqs_AAB "B".
Definition cluster_C : Cluster := cluster_of faqs_six "C".

(** 1.0, 1.5 and 5.0 as binary64 values *)
Definition f1_5 : float := S754_finite false 6755399441055744 (-52).
Definition f5_0 : float := S754_finite false 5629499534213120 (-50).

Definition row (i : Z) (q c : string) (p : Z) : FAQ.t :=
  {| FAQ.id := i; FAQ.question := Some q;
     FAQ.answer := Some "See the manual.";
     FAQ.category := c; FAQ.priority := p |}.

(** A row whose answer column is NULL. *)
Definition row_without_answer : FAQ.t :=
  {| FAQ.id := 4; FAQ.question := Some "door"; FAQ.answer := None;
     FAQ.category := "B"; FAQ.priority := 1 |}.

Definition rows : list FAQ.t :=
  [row 1 "alarm" "A" 1; row 2 "broken" "A" 1; row 3 "clock" "B" 5].

(** An analyzer whose entity extraction raises on the question
    ["broken"] and whose sentiment analysis always returns. *)
Definition flaky_analyzer : Analyzer :=
  {| extract_entities := fun text =>
       if prefix "broken" text then Raise "timeout" else Ok (JArr []);
     analyze_sentiment := fun _ => Ok JNull |}.

(** A disk on which the report can be written, and one that is full. *)
Definition disk : Disk := {| write_json := fun _ _ => Ok tt |}.

Definition full_disk : Disk :=
  {| write_json := fun _ _ => Raise "No space left on device" |}.

Definition clock : Clock :=
  {| isoformat := "2024-01-01T03:00:00"; strftime_Ymd_HMS := "20240101_030000" |}.

(** A gateway that answers every chat completion with ["ok"]. *)
Definition echo_gateway : Gateway :=
  {| OPENAI_MODEL := "gpt-4o-mini";
     chat_create := fun _ _ _ _ => Ok "ok";
     audio_create := fun _ _ _ _ => Ok [];
     json_loads := fun _ => Ok JNull;
     json_dumps := fun _ => Ok "{}" |}.

(** A gateway whose chat completion always raises. *)
Definition down_gateway : Gateway :=
  {| OPENAI_MODEL := "gpt-4o-mini";
     chat_create := fun _ _ _ _ => Raise "connection refused";
     audio_create := fun _ _ _ _ => Raise "connection refused";
     json_loads := fun _ => Ok JNull;
     json_dumps := fun _ => Ok "{}" |}.

Definition turn (n : Z) : message := Message "user" (str_of_int n).

(** Twelve stored messages. *)
Definition long_history : list message := map turn [1;2;3;4;5;6;7;8;9;10;11;12].

Definition busy_assistant : OpenAI.ElderTechAssistant :=
  OpenAI.with_history OpenAI.init long_history.
End Samples.

(** ** services/openai.py, continued *)

Module OpenAIMore.
Import OpenAI.

Section WithGateway.
Context {gw : Gateway}.

(** [get_ai_response]: the call goes to the one module-level
    [assistant], whose state is threaded here. *)
Definition get_ai_response (assistant : ElderTechAssistant)
    (user_message : string) (user_context : option json)
  : string * ElderTechAssistant :=
  get_response assistant user_message user_context.

(** [generate_health_reminder] *)
Definition generate_health_reminder (user_context : json) : string :=
  match
    (dumped <- json_dumps user_context ;;
     let context := ("User context: " ++ dumped)%string in
     chat_create OPENAI_MODEL
       [Message "system" "Generate a gentle, personalized health reminder based on the user context. Keep it brief and encouraging.";
        Message "user" context] 150 f0_7)
  with
  | Ok reminder => reminder
  | Raise _ => "Remember to take care of yourself today!"
  end.

End WithGateway.

(** The two messages one successful call stores. *)
Definition exchange (turn : string * string) : list message :=
  [Message "user" (fst turn); Message "assistant" (snd turn)].

(** The history is a sequence of whole exchanges. *)
Definition paired (history : list message) : Prop :=
  exists turns : list (string * string), history = flat_map exchange turns.

(** The calls of a sequence whose completion returns, each with the
    reply it gets, the history being what the earlier ones left. *)
Fixpoint answered {gw : Gateway} (self : ElderTechAssistant)
    (calls : list (string * option json)) : list (string * string) :=
  match calls with
  | [] => []
  | (user_message, user_context) :: calls' =>
      match complete self user_message user_context with
      | Ok reply =>
          (user_message, reply)
            :: answered
                 (with_history self
                    (conversation_history self
                       ++ exchange (user_message, reply))) calls'
      | Raise _ => answered self calls'
      end
  end.

End OpenAIMore.

(** ** routers/chat.py *)

(** What a route handler produces: a response body, or an
    [HTTPException] with its status code and detail. *)
Inductive http (A : Type) : Type :=
| Respond (body : A)
| HTTPException (status_code : Z) (detail : string).
Arguments Respond {A} body.
Arguments HTTPException {A} status_code detail.

Module Chat.
Import OpenAI OpenAIMore.

Module ChatMessage.
Record t : Type := { content : string; message_type : string }.
End ChatMessage.

Module ChatResponse.
Record t : Type := {
  message_id : Z;
  content : string;
  message_type : string;
  timestamp : string;
  is_user : bool
}.
End ChatResponse.

Section WithGateway.
Context {gw : Gateway}.

(** [send_message]. [now] is the reading of [datetime.now()]. The bearer
    credentials are required by the framework and not looked at. The
    [except] branch has nothing to catch: [get_ai_response] returns a
    string whatever happens. *)
Definition send_message (assistant : ElderTechAssistant)
    (message : ChatMessage.t) (now : string)
  : http ChatResponse.t * ElderTechAssistant :=
  let '(ai_response, assistant) :=
    get_ai_response assistant (ChatMessage.content message) None in
  (Respond {| ChatResponse.message_id := 1;
              ChatResponse.content := ai_response;
              ChatResponse.message_type := "text";
              ChatResponse.timestamp := now;
              ChatResponse.is_user := false |},
   assistant).

End WithGateway.
End Chat.

(** ** The voice catalogues of services/tts.py and routers/whisper.py *)

Module Voices.

(** One catalogue entry; the route's entries have no ["gender"]. *)
Record voice : Type := {
  id : string;
  name : string;
  description : string;
  gender : option string
}.

(** [services.tts.get_available_voices] *)
Definition get_available_voices : list voice :=
  [ {| id := "alloy"; name := "Alloy";
       description := "Balanced and versatile voice"; gender := Some "neutral" |};
    {| id := "echo"; name := "Echo";
       description := "Clear and professional voice"; gender := Some "male" |};
    {| id := "fable"; name := "Fable";
       description := "Warm and friendly voice"; gender := Some "female" |};
    {| id := "onyx"; name := "Onyx";
       description := "Deep and authoritative voice"; gender := Some "male" |};
    {| id := "nova"; name := "Nova";
       description := "Bright and energetic voice"; gender := Some "female" |};
    {| id := "shimmer"; name := "Shimmer";
       description := "Soft and gentle voice"; gender := Some "female" |} ].

(** The list the [/voices] route returns. *)
Definition route_voices : list voice :=
  [ {| id := "alloy"; name := "Alloy";
       description := "Balanced and versatile"; gender := None |};
    {| id := "echo"; name := "Echo";
       description := "Clear and professional"; gender := None |};
    {| id := "fable"; name := "Fable";
       description := "Warm and friendly"; gender := None |};
    {| id := "onyx"; name := "Onyx";
       description := "Deep and authoritative"; gender := None |};
    {| id := "nova"; name := "Nova";
       description := "Bright and energetic"; gender := None |};
    {| id := "shimmer"; name := "Shimmer";
       description := "Soft and gentle"; gender := None |} ].

End Voices.

(** ** Files and the transcription service *)

(** The file operations the services use. Each may raise.
    - [create_temp suffix] opens [NamedTemporaryFile(suffix=suffix,
      delete=False)] and gives its name;
    - [write_temp path data] is the [write] inside the [with] block and
      the closing of the file;
    - [open_rb path] is [open(path, "rb")], the handle being named by
      the path;
    - [open_wb path] is [open(path, "wb")], which creates the file or
      empties it;
    - [write_wb path data] is the [write] on the file so opened and
      the closing of the file. *)
Class Os : Type := {
  create_temp : string -> result string;
  write_temp : string -> list byte -> result unit;
  open_rb : string -> result string;
  unlink : string -> result unit;
  makedirs : string -> result unit;
  open_wb : string -> result unit;
  write_wb : string -> list byte -> result unit
}.

(** What a call leaves behind on disk, in order. [Opened path] is a
    file that [open(path, "wb")] created or emptied and whose writing
    did not complete; [Wrote path data] is a file that holds [data]. *)
Inductive os_event : Type :=
| Created (path : string)
| Unlinked (path : string)
| MadeDir (path : string)
| Opened (path : string)
| Wrote (path : string) (data : list byte).

(** A temporary file was created and not removed. *)
Definition leaks (trace : list os_event) : Prop :=
  exists path, In (Created path) trace /\ ~ In (Unlinked path) trace.

Module Transcription.

(** The keyword arguments of [openai.Audio.atranscribe]. *)
Record params : Type := {
  model : string;
  file : string;
  response_format : string;
  language : option string;
  prompt : option string
}.

(** The attributes read from a ["verbose_json"] response;
    [confidence] is there when [hasattr] says so. *)
Record verbose : Type := {
  v_text : string;
  v_language : string;
  v_duration : float;
  v_segments : list json;
  v_confidence : option json
}.

(** [openai.Audio.atranscribe], by response format. *)
Class Transcriber : Type := {
  atranscribe_text : params -> result string;
  atranscribe_verbose : params -> result verbose
}.

(** The dict [speech_to_text_with_metadata] returns. *)
Record metadata : Type := {
  text : string;
  md_language : option string;
  duration : option float;
  segments : list json;
  confidence : option json;
  error : option string
}.

(** One entry of the list [batch_transcribe] returns. *)
Record batch_entry : Type := {
  file_index : Z;
  entry_text : string;
  success : bool;
  entry_error : option string
}.

(** [if language: params["language"] = language]: [None] and the empty
    string add nothing. *)
Definition optional (value : option string) : option string :=
  match value with
  | Some v => if (v =? "")%string then None else Some v
  | None => None
  end.

Section WithServices.
Context {os : Os} {tr : Transcriber}.

(** The frame shared by [speech_to_text], [speech_to_text_with_metadata]
    and [detect_language]: write the audio to a temporary file, run the
    body on the opened file, unlink the file in [finally]. An exception
    raised by [unlink] replaces the outcome of the body. *)
Definition with_temp_audio {A} (audio_data : list byte)
    (body : string -> result A) : result A * list os_event :=
  match create_temp ".wav" with
  | Raise e => (Raise e, [])
  | Ok temp_file_path =>
      match write_temp temp_file_path audio_data with
      | Raise e => (Raise e, [Created temp_file_path])
      | Ok _ =>
          let attempt := (file <- open_rb temp_file_path ;; body file) in
          match unlink temp_file_path with
          | Raise e => (Raise e, [Created temp_file_path])
          | Ok _ => (attempt, [Created temp_file_path; Unlinked temp_file_path])
          end
      end
  end.

Definition text_params (file : string) (language prompt : option string)
  : params :=
  {| model := "whisper-1"; file := file; response_format := "text";
     language := optional language; prompt := optional prompt |}.

Definition verbose_params (file : string) (language prompt : option string)
  : params :=
  {| model := "whisper-1"; file := file; response_format := "verbose_json";
     language := optional language; prompt := optional prompt |}.

(** [speech_to_text]: the transcription, or the empty string on any
    exception. *)
Definition speech_to_text (audio_data : list byte)
    (language prompt : option string) : string * list os_event :=
  match with_temp_audio audio_data
          (fun file => atranscribe_text (text_params file language prompt)) with
  | (Ok response, trace) => (response, trace)
  | (Raise _, trace) => ("", trace)
  end.

(** [speech_to_text_with_metadata] *)
Definition speech_to_text_with_metadata (audio_data : list byte)
    (language prompt : option string) : metadata * list os_event :=
  match with_temp_audio audio_data
          (fun file =>
             atranscribe_verbose (verbose_params file language prompt)) with
  | (Ok response, trace) =>
      ({| text := v_text response;
          md_language := Some (v_language response);
          duration := Some (v_duration response);
          segments := v_segments response;
          confidence := v_confidence response;
          error := None |}, trace)
  | (Raise e, trace) =>
      ({| text := ""; md_language := None; duration := None;
          segments := []; confidence := None; error := Some e |}, trace)
  end.

(** [detect_language]: English on any exception. *)
Definition detect_language (audio_data : list byte)
  : string * list os_event :=
  match with_temp_audio audio_data
          (fun file =>
             response <- atranscribe_verbose
               {| model := "whisper-1"; file := file;
                  response_format := "verbose_json";
                  language := None; prompt := None |} ;;
             Ok (v_language response)) with
  | (Ok language, trace) => (language, trace)
  | (Raise _, trace) => ("en", trace)
  end.

(** [transcribe_with_timestamps]: [metadata.get("segments", [])]; the
    key is always there. *)
Definition transcribe_with_timestamps (audio_data : list byte)
  : list json * list os_event :=
  let '(metadata, trace) :=
    speech_to_text_with_metadata audio_data None None in
  (segments metadata, trace).

(** The loop of [batch_transcribe] from index [i] on. Its [except]
    branch has nothing to catch: [speech_to_text] returns a string
    whatever happens. *)
Fixpoint batch_from (i : Z) (audio_files : list (list byte))
  : list batch_entry * list os_event :=
  match audio_files with
  | [] => ([], [])
  | audio_data :: rest =>
      let '(text, trace) := speech_to_text audio_data None None in
      let '(results, trace') := batch_from (i + 1) rest in
      ({| file_index := i; entry_text := text; success := true;
          entry_error := None |} :: results,
       trace ++ trace')
  end.

(** [services.whisper.batch_transcribe] *)
Definition batch_transcribe (audio_files : list (list byte))
  : list batch_entry * list os_event :=
  batch_from 0 audio_files.

End WithServices.
End Transcription.

(** ** services/tts.py: files *)

Module Speech.
Import Tts.

Definition fmul (x y : float) : float := SFmul prec emax x y.

(** [int(x)] on a float: truncation towards zero; NaN and the
    infinities raise. *)
Definition int_of_float (x : float) : result Z :=
  match x with
  | S754_nan => Raise "cannot convert float NaN to integer"
  | S754_infinity _ => Raise "cannot convert float infinity to integer"
  | S754_zero _ => Ok 0
  | S754_finite s m e =>
      let magnitude :=
        if 0 <=? e then Z.pos m * 2 ^ e else Z.pos m / 2 ^ (- e) in
      Ok (if s then - magnitude else magnitude)
  end.

(** [if not filename: filename = f"speech_{voice}_{int(speed * 100)}"] *)
Definition default_filename (voice : string) (speed : float)
    (filename : option string) : result string :=
  match Transcription.optional filename with
  | Some name => Ok name
  | None =>
      hundredths <- int_of_float (fmul speed (float_of_int 100)) ;;
      Ok ("speech_" ++ voice ++ "_" ++ str_of_int hundredths)%string
  end.

Section WithServices.
Context {gw : Gateway} {os : Os}.

(** [create_audio_file]: the path of the written file, or the empty
    string on any exception. *)
Definition create_audio_file (text voice : string) (speed : float)
    (filename : option string) : string * list os_event :=
  let audio_data := text_to_speech text voice speed in
  match default_filename voice speed filename with
  | Raise _ => ("", [])
  | Ok filename =>
      let filepath := ("audio/" ++ filename ++ ".mp3")%string in
      match makedirs "audio" with
      | Raise _ => ("", [])
      | Ok _ =>
          match open_wb filepath with
          | Raise _ => ("", [MadeDir "audio"])
          | Ok _ =>
              match write_wb filepath audio_data with
              | Raise _ => ("", [MadeDir "audio"; Opened filepath])
              | Ok _ =>
                  (filepath, [MadeDir "audio"; Wrote filepath audio_data])
              end
          end
      end
  end.

End WithServices.
End Speech.

(** ** routers/whisper.py *)

Module WhisperRoutes.
Import Transcription.

(** [str(e)] for an [HTTPException], which the web framework defines. *)
Class Framework : Type := {
  str_http_exception : Z -> string -> string
}.

(** The body of a successful [/speech-to-text] answer. *)
Record stt_body : Type := {
  body_text : string;
  body_confidence : float;
  body_language : string
}.

Definition f0_95 : float := fdiv (float_of_int 95) (float_of_int 100).

Section WithServices.
Context {os : Os} {tr : Transcriber} {fw : Framework}.

(** The [try] block of [convert_speech_to_text], where a raised
    [HTTPException] is an exception like any other. [content_type] is
    [audio_file.content_type] and [read] the outcome of
    [audio_file.read()]. *)
Definition convert_try (content_type : option string)
    (read : result (list byte)) : result stt_body :=
  starts <-
    match content_type with
    | Some ct => Ok (prefix "audio/" ct)
    | None => Raise "'NoneType' object has no attribute 'startswith'"
    end ;;
  _ <- (if negb starts
        then Raise (str_http_exception 400 "File must be an audio file")
        else Ok tt) ;;
  audio_content <- read ;;
  let '(text, _) := speech_to_text audio_content None None in
  Ok {| body_text := text; body_confidence := f0_95; body_language := "en" |}.

(** [convert_speech_to_text] *)
Definition convert_speech_to_text (content_type : option string)
    (read : result (list byte)) : http stt_body :=
  match convert_try content_type read with
  | Ok body => Respond body
  | Raise e => HTTPException 500 ("Error processing audio: " ++ e)%string
  end.

End WithServices.
End WhisperRoutes.

(** ** Further sample data *)

Module MoreSamples.
Import Transcription.

(** A disk on which everything works; the temporary file is
    [/tmp/a.wav]. *)
Definition working_os : Os :=
  {| create_temp := fun suffix => Ok ("/tmp/a" ++ suffix)%string;
     write_temp := fun _ _ => Ok tt;
     open_rb := fun path => Ok path;
     unlink := fun _ => Ok tt;
     makedirs := fun _ => Ok tt;
     open_wb := fun _ => Ok tt;
     write_wb := fun _ _ => Ok tt |}.

(** A disk on which a temporary file cannot be removed. *)
Definition sticky_os : Os :=
  {| create_temp := fun suffix => Ok ("/tmp/a" ++ suffix)%string;
     write_temp := fun _ _ => Ok tt;
     open_rb := fun path => Ok path;
     unlink := fun _ => Raise "permission denied";
     makedirs := fun _ => Ok tt;
     open_wb := fun _ => Ok tt;
     write_wb := fun _ _ => Ok tt |}.

(** A disk that fills up: files can be created and not written. *)
Definition full_os : Os :=
  {| create_temp := fun suffix => Ok ("/tmp/a" ++ suffix)%string;
     write_temp := fun _ _ => Raise "No space left on device";
     open_rb := fun path => Ok path;
     unlink := fun _ => Ok tt;
     makedirs := fun _ => Ok tt;
     open_wb := fun _ => Ok tt;
     write_wb := fun _ _ => Raise "No space left on device" |}.

Definition hello_transcriber : Transcriber :=
  {| atranscribe_text := fun _ => Ok "hello";
     atranscribe_verbose := fun _ =>
       Ok {| v_text := "hello"; v_language := "en"; v_duration := f1_0;
             v_segments := [JStr "hello"]; v_confidence := None |} |}.

Definition down_transcriber : Transcriber :=
  {| atranscribe_text := fun _ => Raise "service unavailable";
     atranscribe_verbose := fun _ => Raise "service unavailable" |}.

Definition framework : WhisperRoutes.Framework :=
  {| WhisperRoutes.str_http_exception := fun code detail =>
       (str_of_int code ++ ": " ++ detail)%string |}.

Definition wav : list byte := list_byte_of_string "RIFF....WAVE".

End MoreSamples.

(** ** services/tts.py: text preparation *)

(** Here a [str] is looked at character by character: a [string] is
    the sequence of its code points, each below 256. *)
Module SpeechText.

(** [str.isspace] on one character: the whitespace that [strip] and
    [split] without arguments recognise among the code points below
    256. *)
Definition isspace (c : ascii) : bool :=
  let n := N_of_ascii c in
  ((9 <=? n) && (n <=? 13) || (28 <=? n) && (n <=? 32)
   || (n =? 133) || (n =? 160))%N.

Fixpoint lstrip (s : string) : string :=
  match s with
  | EmptyString => EmptyString
  | String c s' => if isspace c then lstrip s' else s
  end.

Fixpoint rstrip (s : string) : string :=
  match s with
  | EmptyString => EmptyString
  | String c s' =>
      match rstrip s' with
      | EmptyString => if isspace c then EmptyString else String c EmptyString
      | String d r => String c (String d r)
      end
  end.

(** [s.strip()] *)
Definition strip (s : string) : string := lstrip (rstrip s).

(** [s.replace(old, new)] for a one-character [old] *)
Fixpoint replace (old : ascii) (new : string) (s : string) : string :=
  match s with
  | EmptyString => EmptyString
  | String c s' =>
      if Ascii.eqb c old then (new ++ replace old new s')%string
      else String c (replace old new s')
  end.

Definition flush (word : string) : list string :=
  match word with
  | EmptyString => []
  | String _ _ => [word]
  end.

(** [s.split()] with [word] the word under way *)
Fixpoint split_from (word : string) (s : string) : list string :=
  match s with
  | EmptyString => flush word
  | String c s' =>
      if isspace c then flush word ++ split_from EmptyString s'
      else split_from (word ++ String c EmptyString)%string s'
  end.

(** [s.split()] *)
Definition split (s : string) : list string := split_from EmptyString s.

(** [optimize_text_for_speech] *)
Definition optimize_text_for_speech (text : string) : string :=
  let optimized := strip text in
  let optimized := replace "." ". " optimized in
  let optimized := replace "!" "! " optimized in
  let optimized := replace "?" "? " optimized in
  let optimized := replace "," ", " optimized in
  let optimized := String.concat " " (split optimized) in
  optimized.

(** *** Reference formulations used in the statements *)

(** One of the four marks after which a pause is added. *)
Definition is_mark (c : ascii) : bool :=
  (Ascii.eqb c "." || Ascii.eqb c "!" || Ascii.eqb c "?" || Ascii.eqb c ",")%bool.

(** The four replacements in one pass. *)
Fixpoint expand (s : string) : string :=
  match s with
  | EmptyString => EmptyString
  | String c s' =>
      if is_mark c then String c (String " " (expand s'))
      else String c (expand s')
  end.

(** The words of the result: a word ends at whitespace and after a
    mark. *)
Fixpoint tokens_from (word : string) (s : string) : list string :=
  match s with
  | EmptyString => flush word
  | String c s' =>
      if isspace c then flush word ++ tokens_from EmptyString s'
      else if is_mark c
           then (word ++ String c EmptyString)%string
                  :: tokens_from EmptyString s'
           else tokens_from (word ++ String c EmptyString)%string s'
  end.

Definition tokens (s : string) : list string := tokens_from EmptyString s.

(** Neither whitespace nor a mark. *)
Definition plain_char (c : ascii) : bool := negb (isspace c) && negb (is_mark c).

Fixpoint plain (s : string) : bool :=
  match s with
  | EmptyString => true
  | String c s' => plain_char c && plain s'
  end.

(** A well-formed word: not empty, without whitespace, and with a mark
    at most as its last character. *)
Fixpoint word_ok (w : string) : bool :=
  match w with
  | EmptyString => false
  | String c w' =>
      match w' with
      | EmptyString => negb (isspace c)
      | String _ _ => plain_char c && word_ok w'
      end
  end.

(** The characters of a text that are not whitespace. *)
Fixpoint visible (s : string) : string :=
  match s with
  | EmptyString => EmptyString
  | String c s' => if isspace c then visible s' else String c (visible s')
  end.

End SpeechText.

(** ** routers/auth.py: access tokens *)

Module Auth.

(** A value in the dict handed to [jwt.encode]: what the caller put
    there, or the [datetime] of the expiry. Times are in microseconds:
    a [timedelta] is a number of microseconds, and a [datetime] is the
    number of microseconds since [datetime.min], the start of year 1,
    up to [datetime_max], the last microsecond of year 9999. *)
Inductive claim : Type :=
| Claim (value : json)
| Expiry (datetime : Z).

(** The module constants read from the environment, and [jwt.encode]. *)
Class Jwt : Type := {
  SECRET_KEY : string;
  ACCESS_TOKEN_EXPIRE_MINUTES : Z;
  jwt_encode : Dict.t claim -> string -> string -> result string
}.

Definition ALGORITHM : string := "HS256".

(** [timedelta(minutes=m)] *)
Definition minutes (m : Z) : Z := m * 60 * 1000000.

(** [datetime.max - datetime.min]: 3652059 days less one microsecond. *)
Definition datetime_max : Z := 3652059 * 86400 * 1000000 - 1.

(** [now + delta] on a [datetime]: [OverflowError] when the sum is not
    a [datetime]. *)
Definition datetime_add (now delta : Z) : result Z :=
  let sum := now + delta in
  if (0 <=? sum) && (sum <=? datetime_max) then Ok sum
  else Raise "date value out of range".

(** Lines 78-83 of [create_access_token]: the dict that is encoded.
    [utcnow] is the reading of [datetime.utcnow()]; a [timedelta] is
    false in an [if] exactly when it is zero. *)
Definition access_token_claims (data : Dict.t claim)
    (expires_delta : option Z) (utcnow : Z) : result (Dict.t claim) :=
  let to_encode := data in
  expire <-
    match expires_delta with
    | Some delta =>
        if delta =? 0 then datetime_add utcnow (minutes 15)
        else datetime_add utcnow delta
    | None => datetime_add utcnow (minutes 15)
    end ;;
  Ok (Dict.setitem "exp" (Expiry expire) to_encode).

Definition create_access_token {jwt : Jwt} (data : Dict.t claim)
    (expires_delta : option Z) (utcnow : Z) : result string :=
  to_encode <- access_token_claims data expires_delta utcnow ;;
  jwt_encode to_encode SECRET_KEY ALGORITHM.

End Auth.

(* ================================================================= *)
(** * Part II: properties *)
(* ================================================================= *)

Unset Implicit Arguments.

(** ** Loops that append *)

Section AppendLoops.
Variables A B : Type.
Variable keep : A -> bool.
Variable item : A -> B.

Lemma fold_left_append_if (xs : list A) (acc : list B) :
  fold_left (fun acc x => if keep x then acc ++ [item x] else acc) xs acc
  = acc ++ map item (filter keep xs).
Proof.
  revert acc; induction xs as [|x xs IH]; intros acc; simpl.
  - now rewrite app_nil_r.
  - rewrite IH. destruct (keep x); simpl; [|reflexivity].
    now rewrite <- app_assoc.
Qed.

Lemma fold_left_append (xs : list A) (acc : list B) :
  fold_left (fun acc x => acc ++ [item x]) xs acc = acc ++ map item xs.
Proof.
  revert acc; induction xs as [|x xs IH]; intros acc; simpl.
  - now rewrite app_nil_r.
  - rewrite IH. now rewrite <- app_assoc.
Qed.
End AppendLoops.

Lemma for_loop_app {S A} (body : S -> A -> result S) (xs ys : list A) (s : S) :
  Clustering.for_loop body (xs ++ ys) s
  = (s' <- Clustering.for_loop body xs s ;; Clustering.for_loop body ys s').
Proof.
  revert s. induction xs as [|x xs IH]; intros s; simpl; [reflexivity|].
  destruct (body s x) as [s'|e]; simpl; [apply IH | reflexivity].
Qed.

Lemma sum_cons (x : Z) (xs : list Z) : sum (x :: xs) = x + sum xs.
Proof.
  unfold sum; simpl.
  assert (H : forall l a, fold_left Z.add l a = a + fold_left Z.add l 0).
  { induction l as [|y l IH]; intros a; simpl; [lia|].
    rewrite (IH (a + y)), (IH y); lia. }
  apply H.
Qed.

Lemma sum_app (xs ys : list Z) : sum (xs ++ ys) = sum xs + sum ys.
Proof.
  induction xs as [|x xs IH]; simpl; [reflexivity|].
  rewrite !sum_cons, IH; lia.
Qed.

Lemma len_cons {A} (x : A) (xs : list A) : len (x :: xs) = 1 + len xs.
Proof. unfold len; cbn [List.length]; lia. Qed.

Lemma len_app {A} (xs ys : list A) : len (xs ++ ys) = len xs + len ys.
Proof. unfold len; rewrite length_app; lia. Qed.

Lemma len_nonneg {A} (xs : list A) : 0 <= len xs.
Proof. unfold len; lia. Qed.

(** ** Formatting to one decimal place *)

Module FormatFacts.

Lemma round_half_even_nearest (num den : Z) :
  0 < den ->
  2 * Z.abs (round_half_even num den * den - num) <= den.
Proof.
  intros Hden. unfold round_half_even.
  pose proof (Z.div_mod num den ltac:(lia)) as Hdm.
  pose proof (Z.mod_pos_bound num den Hden) as Hr.
  set (q := num / den) in *. set (r := num mod den) in *.
  destruct (Z.compare_spec (2 * r) den) as [E|L|G].
  - destruct (Z.even q); nia.
  - nia.
  - nia.
Qed.

(** On a tie the even neighbour is taken. *)
Lemma round_half_even_tie (num den : Z) :
  0 < den ->
  2 * Z.abs (round_half_even num den * den - num) = den ->
  Z.even (round_half_even num den) = true.
Proof.
  intros Hden. unfold round_half_even.
  pose proof (Z.div_mod num den ltac:(lia)) as Hdm.
  pose proof (Z.mod_pos_bound num den Hden) as Hr.
  set (q := num / den) in *. set (r := num mod den) in *.
  destruct (Z.compare_spec (2 * r) den) as [E|L|G].
  - destruct (Z.even q) eqn:Eq; intros _; [exact Eq|].
    rewrite Z.even_add, Eq. reflexivity.
  - intros H. exfalso. nia.
  - intros H. exfalso. nia.
Qed.

(** Nearest with ties to even names one integer only. *)
Lemma nearest_even_unique (num den t t' : Z) :
  0 < den ->
  2 * Z.abs (t * den - num) <= den ->
  (2 * Z.abs (t * den - num) = den -> Z.even t = true) ->
  2 * Z.abs (t' * den - num) <= den ->
  (2 * Z.abs (t' * den - num) = den -> Z.even t' = true) ->
  t' = t.
Proof.
  intros Hden H1 E1 H2 E2.
  assert (Hd : Z.abs (t' - t) <= 1) by nia.
  destruct (Z.eq_dec t' t) as [|N]; [assumption | exfalso].
  assert (Hone : t' = t + 1 \/ t' = t - 1) by lia.
  assert (T1 : 2 * Z.abs (t * den - num) = den) by nia.
  assert (T2 : 2 * Z.abs (t' * den - num) = den) by nia.
  specialize (E1 T1). specialize (E2 T2).
  destruct Hone as [-> | ->].
  - rewrite Z.even_add, E1 in E2. discriminate E2.
  - rewrite Z.even_sub, E1 in E2. discriminate E2.
Qed.

(** For a negative exponent the tenths are the integer nearest to ten
    times the magnitude [m * 2^e]. *)
Lemma tenths_nearest (m : positive) (e : Z) :
  e < 0 ->
  2 * Z.abs (tenths m e * 2 ^ (- e) - 10 * Z.pos m) <= 2 ^ (- e).
Proof.
  intros He. unfold tenths.
  destruct (0 <=? e) eqn:E; [apply Z.leb_le in E; lia|].
  apply round_half_even_nearest. apply Z.pow_pos_nonneg; lia.
Qed.

Lemma tenths_exact (m : positive) (e : Z) :
  0 <= e -> tenths m e = 10 * (Z.pos m * 2 ^ e).
Proof.
  intros He. unfold tenths.
  destruct (0 <=? e) eqn:E; [lia | apply Z.leb_gt in E; lia].
Qed.

Lemma tenths_tie (m : positive) (e : Z) :
  e < 0 ->
  2 * Z.abs (tenths m e * 2 ^ (- e) - 10 * Z.pos m) = 2 ^ (- e) ->
  Z.even (tenths m e) = true.
Proof.
  intros He. unfold tenths.
  destruct (0 <=? e) eqn:E; [apply Z.leb_le in E; lia|].
  apply round_half_even_tie. apply Z.pow_pos_nonneg; lia.
Qed.

(** The tenths are the only integer that is nearest to ten times the
    magnitude and even on a tie. *)
Lemma tenths_unique (m : positive) (e t : Z) :
  e < 0 ->
  2 * Z.abs (t * 2 ^ (- e) - 10 * Z.pos m) <= 2 ^ (- e) ->
  (2 * Z.abs (t * 2 ^ (- e) - 10 * Z.pos m) = 2 ^ (- e) -> Z.even t = true) ->
  t = tenths m e.
Proof.
  intros He H1 H2.
  apply (nearest_even_unique (10 * Z.pos m) (2 ^ (- e))).
  - apply Z.pow_pos_nonneg; lia.
  - now apply tenths_nearest.
  - now apply tenths_tie.
  - exact H1.
  - exact H2.
Qed.

Lemma tenths_nonneg (m : positive) (e : Z) : 0 <= tenths m e.
Proof.
  unfold tenths. destruct (0 <=? e) eqn:E.
  - apply Z.leb_le in E.
    assert (0 <= 2 ^ e) by (apply Z.pow_nonneg; lia). nia.
  - apply Z.leb_gt in E. unfold round_half_even.
    assert (P : 0 < 2 ^ (- e)) by (apply Z.pow_pos_nonneg; lia).
    assert (Q : 0 <= 10 * Z.pos m / 2 ^ (- e)) by (apply Z.div_pos; lia).
    destruct (2 * ((10 * Z.pos m) mod 2 ^ (- e)) ?= 2 ^ (- e));
      [destruct (Z.even _)| |]; lia.
Qed.

Lemma str_of_int_digit (r : Z) :
  0 <= r < 10 ->
  exists d, In d digits /\ str_of_int r = String d EmptyString.
Proof.
  intros Hr.
  assert (H : r = 0 \/ r = 1 \/ r = 2 \/ r = 3 \/ r = 4 \/ r = 5 \/
              r = 6 \/ r = 7 \/ r = 8 \/ r = 9) by lia.
  repeat (destruct H as [->|H]); try subst r;
    eexists; (split; [|vm_compute; reflexivity]); simpl; tauto.
Qed.

(** A finite value prints as sign, integer part, a point and exactly
    one digit. *)
Lemma format_1f_shape (s : bool) (m : positive) (e : Z) :
  exists d, In d digits /\
    format_1f (S754_finite s m e)
    = (sign_str s ++ str_of_int (tenths m e / 10) ++ "."
         ++ String d EmptyString)%string.
Proof.
  destruct (str_of_int_digit (tenths m e mod 10)) as [d [Hd E]].
  { apply Z.mod_pos_bound; lia. }
  exists d. split; [exact Hd|].
  unfold format_1f. now rewrite E.
Qed.

(** 7/20 is stored as a binary64 just below 0.35 and prints as 0.3;
    1/4 is exact and the tie goes to the even digit. *)
Example format_1f_samples :
  map (fun p => format_1f (fdiv (float_of_int (fst p)) (float_of_int (snd p))))
      [(7, 20); (1, 4); (3, 2); (199, 100); (-1, 3)]
  = ["0.3"; "0.2"; "1.5"; "2.0"; "-0.3"]%string.
Proof. vm_compute. reflexivity. Qed.

(** The float literals of the sources are the nearest binary64 values. *)
Example float_literals :
  f0_25 = fdiv (float_of_int 1) (float_of_int 4) /\
  f0_5 = fdiv (float_of_int 1) (float_of_int 2) /\
  f1_0 = float_of_int 1 /\
  f4_0 = float_of_int 4 /\
  Samples.f1_5 = fdiv (float_of_int 3) (float_of_int 2) /\
  Samples.f5_0 = float_of_int 5.
Proof. vm_compute. repeat split. Qed.

End FormatFacts.

(** ** Gap detection and recommendations *)

Module GapFacts.
Import Clustering.

Lemma identify_gaps_eq (clusters : list Cluster) :
  identify_gaps clusters
  = map low_coverage_gap (filter is_low_coverage clusters)
    ++ map low_priority_gap (filter is_low_priority clusters).
Proof.
  unfold identify_gaps.
  now rewrite !fold_left_append_if.
Qed.

Lemma generate_recommendations_eq (gaps : list Gap) :
  generate_recommendations gaps = map recommendation gaps.
Proof.
  unfold generate_recommendations. now rewrite fold_left_append.
Qed.

(** A gap that [identify_gaps] could have built gets its sentence. *)
Lemma recommend_step_built (recommendations : list string) (gap : Gap) :
  recommend_step recommendations (Built gap)
  = Ok (recommendations ++ [recommendation gap]).
Proof. destruct gap; reflexivity. Qed.

(** A dict of another type adds nothing. *)
Lemma recommend_step_other (recommendations : list string) (type : string) :
  type <> "low_coverage"%string -> type <> "low_priority"%string ->
  recommend_step recommendations (TypeOnly type) = Ok recommendations.
Proof.
  intros H1 H2. unfold recommend_step. cbn [dict_type].
  apply String.eqb_neq in H1, H2. now rewrite H1, H2.
Qed.

Lemma recommend_loop_built (gaps : list Gap) (recommendations : list string) :
  for_loop recommend_step (map Built gaps) recommendations
  = Ok (recommendations ++ map recommendation gaps).
Proof.
  revert recommendations.
  induction gaps as [|g gaps IH]; intros recommendations; simpl.
  - now rewrite app_nil_r.
  - rewrite recommend_step_built. simpl. rewrite IH.
    now rewrite <- app_assoc.
Qed.

Lemma is_low_coverage_iff (c : Cluster) :
  is_low_coverage c = true <-> count c < 3.
Proof. unfold is_low_coverage. apply Z.ltb_lt. Qed.

Lemma is_low_priority_iff (c : Cluster) :
  is_low_priority c = true
  <-> flt (avg_priority c) (float_of_int 2) = true /\ count c > 5.
Proof.
  unfold is_low_priority. rewrite andb_true_iff, Z.gtb_gt. tauto.
Qed.

(** The two rules exclude each other: no count is both below 3 and
    above 5. *)
Lemma rules_exclusive (c : Cluster) :
  is_low_coverage c = true -> is_low_priority c = true -> False.
Proof.
  rewrite is_low_coverage_iff, is_low_priority_iff.
  intros Hlow [_ Hhigh]. lia.
Qed.

Lemma identify_gaps_one (c : Cluster) :
  identify_gaps [c]
  = (if is_low_coverage c then [low_coverage_gap c] else [])
    ++ (if is_low_priority c then [low_priority_gap c] else []).
Proof.
  rewrite identify_gaps_eq; simpl.
  destruct (is_low_coverage c), (is_low_priority c); reflexivity.
Qed.

Lemma identify_gaps_perm (clusters : list Cluster) :
  Permutation (identify_gaps clusters)
              (flat_map (fun c => identify_gaps [c]) clusters).
Proof.
  rewrite identify_gaps_eq.
  induction clusters as [|c cs IH]; simpl; [constructor|].
  rewrite identify_gaps_one.
  destruct (is_low_coverage c) eqn:Hcov, (is_low_priority c) eqn:Hprio;
    simpl.
  - exfalso. eapply rules_exclusive; eauto.
  - now constructor.
  - apply Permutation_sym, Permutation_cons_app, Permutation_sym, IH.
  - exact IH.
Qed.

Lemma in_identify_gaps (clusters : list Cluster) (g : Gap) :
  In g (identify_gaps clusters) <->
  exists c, In c clusters /\
    ((g = low_coverage_gap c /\ is_low_coverage c = true) \/
     (g = low_priority_gap c /\ is_low_priority c = true)).
Proof.
  rewrite identify_gaps_eq, in_app_iff, !in_map_iff. split.
  - intros [[c [E H]]|[c [E H]]]; apply filter_In in H; destruct H;
      exists c; split; auto.
  - intros [c [Hc [[E H]|[E H]]]]; [left|right]; exists c;
      (split; [auto | apply filter_In; auto]).
Qed.

Lemma name_unique (clusters : list Cluster) (c c' : Cluster) :
  NoDup (map name clusters) ->
  In c clusters -> In c' clusters -> name c = name c' -> c = c'.
Proof.
  induction clusters as [|x xs IH]; simpl; [tauto|].
  intros ND [->|Hc] [->|Hc'] E; inversion ND; subst; auto.
  - exfalso. apply H1. rewrite E. now apply in_map.
  - exfalso. apply H1. rewrite <- E. now apply in_map.
Qed.

End GapFacts.

Module GapTheorems.
Import Clustering GapFacts.

(** C1, amended: gap detection treats each cluster on its own and
    evaluates the two rules independently of each other: what a cluster
    triggers is its low_coverage gap, if its count is below 3, followed
    by its low_priority gap, if its average priority is below 2 and its
    count is above 5; the gap list is, up to order, what the single
    clusters trigger. So a low_coverage gap is emitted for a cluster
    exactly when its count is below 3, and a low_priority gap exactly
    when its average priority is below 2 and its count is above 5. The
    two conditions exclude each other, so a cluster triggers no gap or
    one gap, never both. *)
Theorem identify_gaps_rules (clusters : list Cluster) :
  Permutation (identify_gaps clusters)
              (flat_map (fun c => identify_gaps [c]) clusters) /\
  identify_gaps clusters
    = map low_coverage_gap (filter (fun c => count c <? 3) clusters)
      ++ map low_priority_gap
           (filter (fun c => flt (avg_priority c) (float_of_int 2)
                             && (count c >? 5)) clusters) /\
  forall c : Cluster,
    identify_gaps [c]
      = (if count c <? 3 then [low_coverage_gap c] else [])
        ++ (if flt (avg_priority c) (float_of_int 2) && (count c >? 5)
            then [low_priority_gap c] else []) /\
    (In (low_coverage_gap c) (identify_gaps [c]) <-> count c < 3) /\
    (In (low_priority_gap c) (identify_gaps [c])
       <-> flt (avg_priority c) (float_of_int 2) = true /\ count c > 5) /\
    (In c clusters ->
     (In (low_coverage_gap c) (identify_gaps clusters) <-> count c < 3)) /\
    (In c clusters -> NoDup (map name clusters) ->
     (In (low_priority_gap c) (identify_gaps clusters)
        <-> flt (avg_priority c) (float_of_int 2) = true /\ count c > 5)) /\
    (identify_gaps [c] = [] \/
     identify_gaps [c] = [low_coverage_gap c] \/
     identify_gaps [c] = [low_priority_gap c]) /\
    ~ (count c < 3 /\
       (flt (avg_priority c) (float_of_int 2) = true /\ count c > 5)) /\
    (In c clusters -> NoDup (map name clusters) ->
     ~ (In (low_coverage_gap c) (identify_gaps clusters) /\
        In (low_priority_gap c) (identify_gaps clusters))).
Proof.
  split; [apply identify_gaps_perm|].
  split; [apply identify_gaps_eq|].
  intros c.
  assert (Hcov : forall cs, In c cs ->
            (In (low_coverage_gap c) (identify_gaps cs) <-> count c < 3)).
  { intros cs Hin.
    rewrite in_identify_gaps, <- is_low_coverage_iff. split.
    - intros [c' [_ [[E H]|[E _]]]]; [|discriminate E].
      unfold low_coverage_gap in E.
      assert (Ecount : count c = count c') by congruence.
      unfold is_low_coverage in *. now rewrite Ecount.
    - intros H. exists c. auto. }
  assert (Hprio : forall cs, In c cs -> NoDup (map name cs) ->
            (In (low_priority_gap c) (identify_gaps cs)
             <-> flt (avg_priority c) (float_of_int 2) = true
                 /\ count c > 5)).
  { intros cs Hin Hnames.
    rewrite in_identify_gaps, <- is_low_priority_iff. split.
    - intros [c' [Hc' [[E _]|[E H]]]]; [discriminate E|].
      unfold low_priority_gap in E.
      assert (Ename : name c = name c') by congruence.
      now rewrite (name_unique cs c c' Hnames Hin Hc' Ename).
    - intros H. exists c. auto. }
  split; [apply identify_gaps_one|].
  split; [apply Hcov, in_eq|].
  split; [apply Hprio; [apply in_eq|]|].
  { repeat constructor. intros []. }
  split; [apply Hcov|]. split; [apply Hprio|].
  split; [|split].
  - rewrite identify_gaps_one.
    destruct (is_low_coverage c) eqn:Ec, (is_low_priority c) eqn:Ep; auto.
    exfalso. eapply rules_exclusive; eauto.
  - intros [H1 [H2 H3]]. lia.
  - intros Hin Hnames [H1 H2].
    apply (Hcov clusters Hin) in H1.
    apply (Hprio clusters Hin Hnames) in H2. lia.
Qed.

Lemma identify_gaps_rules_witness :
  (In (low_coverage_gap Samples.cluster_A)
      (identify_gaps [Samples.cluster_A; Samples.cluster_C])
     <-> count Samples.cluster_A < 3) /\
  (In (low_priority_gap Samples.cluster_C)
      (identify_gaps [Samples.cluster_A; Samples.cluster_C])
     <-> flt (avg_priority Samples.cluster_C) (float_of_int 2) = true
         /\ count Samples.cluster_C > 5).
Proof.
  assert (Hnames : NoDup (map name [Samples.cluster_A; Samples.cluster_C])).
  { change (NoDup ["A"; "C"]%string). constructor.
    - intros [E|[]]. discriminate E.
    - constructor; [intros []|constructor]. }
  pose proof (identify_gaps_rules [Samples.cluster_A; Samples.cluster_C])
    as [_ [_ H]].
  pose proof (H Samples.cluster_A) as [_ [_ [_ [HA _]]]].
  pose proof (H Samples.cluster_C) as [_ [_ [_ [_ [HC _]]]]].
  exact (conj (HA (in_eq _ _)) (HC (in_cons _ _ _ (in_eq _ _)) Hnames)).
Defined.

(** The three examples of the specification. *)
Example gaps_AAB :
  identify_gaps [Samples.cluster_A; Samples.cluster_B]
  = [LowCoverage "A" 2 5 "Category 'A' has only 2 FAQs";
     LowCoverage "B" 1 5 "Category 'B' has only 1 FAQs"].
Proof. vm_compute. reflexivity. Qed.

Example gaps_count6_avg1_5 :
  count Samples.cluster_C = 6 /\
  avg_priority Samples.cluster_C = Samples.f1_5 /\
  identify_gaps [Samples.cluster_C]
  = [LowPriority "C" Samples.f1_5 "Category 'C' has low priority FAQs"].
Proof. vm_compute. auto. Qed.

Example gaps_count2_avg1_0 :
  count Samples.cluster_A = 2 /\
  avg_priority Samples.cluster_A = f1_0 /\
  map gap_type (identify_gaps [Samples.cluster_A]) = ["low_coverage"].
Proof. vm_compute. auto. Qed.

(** C1 as stated, refuted: the claim lets a cluster trigger both gap
    types. No cluster does: the two conditions cannot hold together,
    no count being both below 3 and above 5. *)
Lemma no_cluster_triggers_both :
  ~ exists c : Cluster,
      In (low_coverage_gap c) (identify_gaps [c]) /\
      In (low_priority_gap c) (identify_gaps [c]).
Proof.
  intros [c [Hcov Hprio]].
  apply in_identify_gaps in Hcov, Hprio.
  destruct Hcov as [c1 [[<-|[]] [[_ H1]|[E _]]]]; [|discriminate E].
  destruct Hprio as [c2 [[<-|[]] [[E _]|[_ H2]]]]; [discriminate E|].
  eapply rules_exclusive; eauto.
Qed.

End GapTheorems.

Module RecommendationTheorems.
Import Clustering GapFacts FormatFacts.




Example recommendations_sample :
  generate_recommendations
    (identify_gaps [Samples.cluster_C; Samples.cluster_A])
  = ["Add more FAQs to category 'A' (currently 2, recommend 5)";
     "Review and prioritize FAQs in category 'C' (average priority: 1.5)"]%string.
Proof. vm_compute. reflexivity. Qed.

(** C10: in the gap list every low_coverage gap comes before every
    low_priority gap, each group lists its clusters in cluster order,
    and the recommendations are the gaps' sentences in the same
    order, one per gap. *)
Theorem gaps_grouped_in_cluster_order (clusters : list Cluster) :
  exists coverage priority : list Gap,
    identify_gaps clusters = coverage ++ priority /\
    coverage = map low_coverage_gap (filter is_low_coverage clusters) /\
    priority = map low_priority_gap (filter is_low_priority clusters) /\
    Forall (fun g => gap_type g = "low_coverage"%string) coverage /\
    Forall (fun g => gap_type g = "low_priority"%string) priority /\
    map gap_category coverage = map name (filter is_low_coverage clusters) /\
    map gap_category priority = map name (filter is_low_priority clusters) /\
    generate_recommendations (identify_gaps clusters)
      = map recommendation coverage ++ map recommendation priority /\
    List.length (generate_recommendations (identify_gaps clusters))
      = List.length (identify_gaps clusters) /\
    (forall i, nth_error (generate_recommendations (identify_gaps clusters)) i
               = option_map recommendation
                   (nth_error (identify_gaps clusters) i)).
Proof.
  exists (map low_coverage_gap (filter is_low_coverage clusters)),
         (map low_priority_gap (filter is_low_priority clusters)).
  rewrite generate_recommendations_eq.
  split; [apply identify_gaps_eq|].
  split; [reflexivity|]. split; [reflexivity|].
  split; [apply Forall_forall; intros g Hg; apply in_map_iff in Hg;
          destruct Hg as [c [<- _]]; reflexivity|].
  split; [apply Forall_forall; intros g Hg; apply in_map_iff in Hg;
          destruct Hg as [c [<- _]]; reflexivity|].
  split; [rewrite map_map; reflexivity|].
  split; [rewrite map_map; reflexivity|].
  split; [rewrite identify_gaps_eq; apply map_app|].
  split; [apply length_map|].
  intros i. apply nth_error_map.
Qed.

(** No low_coverage gap follows a low_priority gap. *)
Lemma no_coverage_after_priority (clusters : list Cluster)
    (i j : nat) (gi gj : Gap) :
  (i < j)%nat ->
  nth_error (identify_gaps clusters) i = Some gi ->
  nth_error (identify_gaps clusters) j = Some gj ->
  gap_type gi = "low_priority"%string ->
  gap_type gj = "low_priority"%string.
Proof.
  rewrite identify_gaps_eq.
  set (cov := map low_coverage_gap (filter is_low_coverage clusters)).
  set (pri := map low_priority_gap (filter is_low_priority clusters)).
  intros Hij Hi Hj Ti.
  assert (Hcov : forall k g, nth_error cov k = Some g ->
                             gap_type g = "low_coverage"%string).
  { intros k g Hk. apply nth_error_In in Hk. apply in_map_iff in Hk.
    destruct Hk as [c [<- _]]. reflexivity. }
  assert (Hpri : forall k g, nth_error pri k = Some g ->
                             gap_type g = "low_priority"%string).
  { intros k g Hk. apply nth_error_In in Hk. apply in_map_iff in Hk.
    destruct Hk as [c [<- _]]. reflexivity. }
  destruct (Nat.lt_ge_cases i (List.length cov)) as [Hlt|Hge].
  - rewrite nth_error_app1 in Hi by exact Hlt.
    apply Hcov in Hi. rewrite Hi in Ti. discriminate Ti.
  - rewrite nth_error_app2 in Hj by lia. eapply Hpri; eauto.
Qed.

End RecommendationTheorems.

(** ** Text to speech *)

Module TtsTheorems.
Import Tts.

Lemma voice_in_iff (voice : string) (voices : list string) :
  voice_in voice voices = true <-> In voice voices.
Proof.
  unfold voice_in. rewrite existsb_exists. split.
  - intros [v [Hv E]]. apply String.eqb_eq in E. now subst.
  - intros H. exists voice. split; [exact H | apply String.eqb_refl].
Qed.

Lemma SFcompare_antisym (x y : float) :
  SFcompare y x = option_map CompOpp (SFcompare x y).
Proof.
  destruct x as [sx|sx| |sx mx ex], y as [sy|sy| |sy my ey]; simpl;
    try reflexivity;
    try (destruct sx; reflexivity); try (destruct sy; reflexivity);
    try (destruct sx, sy; reflexivity).
  destruct sx, sy; simpl; try reflexivity;
    rewrite (Z.compare_antisym ex ey); destruct (ex ?= ey); simpl;
    try reflexivity; f_equal.
  - now rewrite (Pos.compare_cont_antisym mx my Eq).
  - now rewrite (Pos.compare_cont_antisym mx my Eq).
Qed.

Lemma SFcompare_number (x y : float) :
  x <> S754_nan -> y <> S754_nan -> exists c, SFcompare x y = Some c.
Proof.
  intros Hx Hy.
  destruct x as [sx|sx| |sx mx ex], y as [sy|sy| |sy my ey];
    try (now elim Hx); try (now elim Hy); simpl; eauto.
Qed.

(** On numbers, [a <= x] is the negation of [x < a]. *)
Lemma fle_not_flt (a x : float) :
  a <> S754_nan -> x <> S754_nan -> fle a x = negb (flt x a).
Proof.
  intros Ha Hx. unfold fle, flt, SFleb, SFltb.
  rewrite (SFcompare_antisym x a).
  destruct (SFcompare_number x a Hx Ha) as [c ->]. now destruct c.
Qed.

Lemma in_range_iff (speed : float) :
  speed <> S754_nan ->
  in_range speed = negb (flt speed f0_25 || fgt speed f4_0).
Proof.
  intros H. unfold in_range, fgt.
  rewrite (fle_not_flt f0_25 speed), (fle_not_flt speed f4_0);
    try discriminate; try exact H.
  now rewrite negb_orb.
Qed.

Lemma in_range_number (speed : float) :
  in_range speed = true -> speed <> S754_nan.
Proof. intros H ->. discriminate H. Qed.

(** C6: a speed that is not a number lies outside the closed interval
    from 0.25 to 4.0, and yet the speed handed to synthesis is that
    speed and not 1.0: the validation tests [speed < 0.25 or speed >
    4.0], and both comparisons are false on NaN. The voice is
    validated as the claim says. *)
Theorem nan_speed_reaches_synthesis :
  in_range S754_nan = false /\
  flt S754_nan f0_25 = false /\
  fgt S754_nan f4_0 = false /\
  S754_nan <> f1_0 /\
  forall (gw : Gateway) (text voice : string),
    validate_params voice S754_nan
    = (if voice_in voice valid_voices then voice else "alloy"%string,
       S754_nan) /\
    text_to_speech text voice S754_nan
    = match audio_create "tts-1"
              (if voice_in voice valid_voices then voice else "alloy"%string)
              text S754_nan with
      | Ok audio_data => audio_data
      | Raise _ => []
      end.
Proof.
  split; [reflexivity|]. split; [reflexivity|]. split; [reflexivity|].
  split; [discriminate|].
  intros gw text voice. unfold text_to_speech, validate_params.
  destruct (voice_in voice valid_voices); split; reflexivity.
Qed.

(** On every speed that is a number, and for every voice, the
    validation does what is intended: the voice handed to synthesis is
    the requested one when it is one of alloy, echo, fable, onyx, nova,
    shimmer and alloy otherwise; the speed handed to synthesis is 1.0
    when the requested speed is below 0.25 or above 4.0, that is, for a
    number, when it lies outside the closed interval from 0.25 to 4.0,
    and the requested speed otherwise. *)
Theorem text_to_speech_effective_params
    (gw : Gateway) (text voice : string) (speed : float) :
  valid_voices = ["alloy"; "echo"; "fable"; "onyx"; "nova"; "shimmer"]%string /\
  exists (voice' : string) (speed' : float),
    validate_params voice speed = (voice', speed') /\
    text_to_speech text voice speed
      = match audio_create "tts-1" voice' text speed' with
        | Ok audio_data => audio_data
        | Raise _ => []
        end /\
    (In voice valid_voices -> voice' = voice) /\
    (~ In voice valid_voices -> voice' = "alloy"%string) /\
    (flt speed f0_25 = true \/ fgt speed f4_0 = true -> speed' = f1_0) /\
    (flt speed f0_25 = false -> fgt speed f4_0 = false -> speed' = speed) /\
    (speed <> S754_nan -> in_range speed = false -> speed' = f1_0) /\
    (in_range speed = true -> speed' = speed).
Proof.
  split; [reflexivity|].
  exists (if negb (voice_in voice valid_voices) then "alloy"%string else voice),
         (if flt speed f0_25 || fgt speed f4_0 then f1_0 else speed).
  split; [reflexivity|]. split; [reflexivity|].
  split; [|split; [|split; [|split; [|split]]]].
  - intros H. apply voice_in_iff in H. now rewrite H.
  - intros H. destruct (voice_in voice valid_voices) eqn:E; [|reflexivity].
    apply voice_in_iff in E. contradiction.
  - intros [H|H]; rewrite H; [reflexivity | now rewrite orb_true_r].
  - intros H1 H2. now rewrite H1, H2.
  - intros Hn H. rewrite (in_range_iff speed Hn) in H.
    apply negb_false_iff in H. now rewrite H.
  - intros H. pose proof (in_range_number speed H) as Hn.
    rewrite (in_range_iff speed Hn) in H.
    apply negb_true_iff in H. now rewrite H.
Qed.

Lemma text_to_speech_effective_params_witness :
  validate_params "robot" (float_of_int 5) = ("alloy"%string, f1_0) /\
  validate_params "nova" Samples.f1_5 = ("nova"%string, Samples.f1_5).
Proof.
  split.
  - destruct (text_to_speech_effective_params Samples.echo_gateway
                "hello" "robot" (float_of_int 5))
      as [_ [v [s [E [_ [_ [Hv [Hs _]]]]]]]].
    rewrite E, Hv, Hs; [reflexivity | right; reflexivity |].
    intros H. vm_compute in H. intuition discriminate.
  - destruct (text_to_speech_effective_params Samples.echo_gateway
                "hello" "nova" Samples.f1_5)
      as [_ [v [s [E [_ [Hv [_ [_ [Hs _]]]]]]]]].
    rewrite E, Hv, Hs; [reflexivity | reflexivity | reflexivity |].
    vm_compute. tauto.
Defined.

(** The bounds themselves are accepted, and a speed that is not a
    number compares false with both bounds and is passed on as it is. *)
Example speed_edge_cases :
  validate_params "echo" f0_25 = ("echo"%string, f0_25) /\
  validate_params "echo" f4_0 = ("echo"%string, f4_0) /\
  validate_params "echo" S754_nan = ("echo"%string, S754_nan) /\
  validate_params "Alloy" (S754_infinity false) = ("alloy"%string, f1_0).
Proof. vm_compute. auto. Qed.

End TtsTheorems.

(** ** Audio validation *)

Module WhisperTheorems.
Import Whisper.

Lemma header_loop_true (audio_data : list byte) (headers : list (list byte)) :
  match header_loop audio_data headers with
  | Some r => r
  | None => true
  end = true.
Proof.
  induction headers as [|h hs IH]; simpl; [reflexivity|].
  destruct (startswith audio_data h); [reflexivity | exact IH].
Qed.

Lemma header_loop_recognized (audio_data : list byte) :
  header_loop audio_data audio_headers = Some true <-> recognized audio_data.
Proof.
  unfold recognized. generalize audio_headers as headers.
  induction headers as [|h hs IH]; simpl.
  - split; [discriminate | intros [x [[] _]]].
  - destruct (startswith audio_data h) eqn:E.
    + split; [|reflexivity]. intros _. exists h. auto.
    + rewrite IH. split.
      * intros [x [Hx Sx]]. exists x. auto.
      * intros [x [[->|Hx] Sx]]; [congruence|]. exists x. auto.
Qed.

Lemma validate_audio_format_eq (audio_data : list byte) :
  validate_audio_format audio_data
  = match audio_data with
    | [] => false
    | _ :: _ => negb (len audio_data >? MAX_BYTES)
    end.
Proof.
  unfold validate_audio_format. destruct audio_data as [|b bs]; [reflexivity|].
  destruct (len (b :: bs) >? MAX_BYTES); [reflexivity|].
  apply header_loop_true.
Qed.

(** C7: validation returns true for every non-empty buffer of at most
    25 * 1024 * 1024 bytes, whether or not it begins with one of the
    headers RIFF, ID3, FF FB, OggS, fLaC, and returns false exactly for
    an empty buffer and for a buffer longer than that. *)
Theorem validate_audio_format_spec (audio_data : list byte) :
  MAX_BYTES = 26214400 /\
  (validate_audio_format audio_data = true
     <-> audio_data <> [] /\ len audio_data <= MAX_BYTES) /\
  (validate_audio_format audio_data = false
     <-> audio_data = [] \/ len audio_data > MAX_BYTES) /\
  (audio_data <> [] -> len audio_data <= MAX_BYTES ->
     recognized audio_data -> validate_audio_format audio_data = true) /\
  (audio_data <> [] -> len audio_data <= MAX_BYTES ->
     ~ recognized audio_data -> validate_audio_format audio_data = true).
Proof.
  assert (H : validate_audio_format audio_data = true
              <-> audio_data <> [] /\ len audio_data <= MAX_BYTES).
  { rewrite validate_audio_format_eq.
    destruct audio_data as [|b bs].
    - split; [discriminate | intros [E _]; now elim E].
    - rewrite negb_true_iff, Z.gtb_ltb, Z.ltb_ge.
      split; [intros L; split; [discriminate | exact L] | tauto]. }
  split; [reflexivity|]. split; [exact H|].
  split; [|split; intros; apply H; auto].
  rewrite <- not_true_iff_false, H.
  destruct audio_data as [|b bs].
  - split; [auto | intros _ [E _]; now elim E].
  - split.
    + intros N. right. destruct (Z.le_gt_cases (len (b :: bs)) MAX_BYTES); [|lia].
      elim N. split; [discriminate | assumption].
    + intros [E|G] [_ L]; [discriminate E | lia].
Qed.

Lemma validate_audio_format_spec_witness :
  validate_audio_format (list_byte_of_string "RIFF....WAVE") = true /\
  validate_audio_format (list_byte_of_string "no header") = true.
Proof.
  split.
  - destruct (validate_audio_format_spec (list_byte_of_string "RIFF....WAVE"))
      as [_ [_ [_ [H _]]]].
    apply H.
    + discriminate.
    + vm_compute. discriminate.
    + exists (list_byte_of_string "RIFF"). split; [left|]; reflexivity.
  - destruct (validate_audio_format_spec (list_byte_of_string "no header"))
      as [_ [_ [_ [_ H]]]].
    apply H.
    + discriminate.
    + vm_compute. discriminate.
    + intros R. apply header_loop_recognized in R. vm_compute in R.
      discriminate R.
Defined.

Example validate_empty : validate_audio_format [] = false.
Proof. reflexivity. Qed.

End WhisperTheorems.

(** ** The chat assistant *)

Module AssistantTheorems.
Import OpenAI.

Lemma last_n_length {A} (n : nat) (l : list A) :
  List.length (last_n n l) = Nat.min n (List.length l).
Proof. unfold last_n. rewrite length_skipn. lia. Qed.

Lemma last_n_suffix {A} (n : nat) (l : list A) :
  exists older, l = older ++ last_n n l.
Proof.
  exists (firstn (List.length l - n) l). unfold last_n.
  symmetry. apply firstn_skipn.
Qed.

Lemma last_n_short {A} (n : nat) (l : list A) :
  (List.length l <= n)%nat -> last_n n l = l.
Proof.
  intros H. unfold last_n.
  replace (List.length l - n)%nat with 0%nat by lia. reflexivity.
Qed.

Section WithGateway.
Context {gw : Gateway}.

Lemma build_messages_eq (self : ElderTechAssistant)
    (user_message : string) (user_context : option json) :
  build_messages self user_message user_context
  = (ctx <- context_messages user_context ;;
     Ok (Message "system" (system_prompt self)
           :: last_n 10 (conversation_history self)
           ++ ctx ++ [Message "user" user_message])).
Proof.
  unfold build_messages, context_messages.
  rewrite (fold_left_append _ _ (fun msg : message => msg)), map_id.
  destruct user_context as [ctx|]; simpl.
  - destruct (truthy ctx); simpl.
    + destruct (json_dumps ctx); simpl; [|reflexivity].
      now rewrite <- !app_assoc.
    + reflexivity.
  - reflexivity.
Qed.

Lemma get_response_ok (self : ElderTechAssistant)
    (user_message : string) (user_context : option json) (ai : string) :
  complete self user_message user_context = Ok ai ->
  get_response self user_message user_context
  = (ai, with_history self
           (conversation_history self
              ++ [Message "user" user_message; Message "assistant" ai])).
Proof.
  intros H. unfold get_response. rewrite H.
  now rewrite <- app_assoc.
Qed.

Lemma get_response_raise (self : ElderTechAssistant)
    (user_message : string) (user_context : option json) (e : exn) :
  complete self user_message user_context = Raise e ->
  get_response self user_message user_context = (apology e, self).
Proof. intros H. unfold get_response. now rewrite H. Qed.

Lemma get_response_history (self : ElderTechAssistant)
    (user_message : string) (user_context : option json) :
  (exists ai,
      complete self user_message user_context = Ok ai /\
      conversation_history (snd (get_response self user_message user_context))
      = conversation_history self
          ++ [Message "user" user_message; Message "assistant" ai]) \/
  (exists e,
      complete self user_message user_context = Raise e /\
      snd (get_response self user_message user_context) = self).
Proof.
  destruct (complete self user_message user_context) as [ai|e] eqn:E.
  - left. exists ai. split; [reflexivity|].
    now rewrite (get_response_ok _ _ _ _ E).
  - right. exists e. split; [reflexivity|].
    now rewrite (get_response_raise _ _ _ _ E).
Qed.

Lemma complete_succeeds (self : ElderTechAssistant)
    (user_message : string) (user_context : option json) :
  (forall m ms mt t, succeeded (chat_create m ms mt t) = true) ->
  (forall j, succeeded (json_dumps j) = true) ->
  exists ai, complete self user_message user_context = Ok ai.
Proof.
  intros Hchat Hdumps. unfold complete.
  rewrite build_messages_eq. unfold context_messages.
  assert (Hc : forall ms, exists ai,
             chat_create OPENAI_MODEL ms 500 f0_7 = Ok ai).
  { intros ms. specialize (Hchat OPENAI_MODEL ms 500 f0_7).
    destruct (chat_create OPENAI_MODEL ms 500 f0_7) as [ai|e];
      [now exists ai | discriminate Hchat]. }
  destruct user_context as [ctx|]; simpl; [|apply Hc].
  destruct (truthy ctx); simpl; [|apply Hc].
  specialize (Hdumps ctx).
  destruct (json_dumps ctx); [simpl; apply Hc | discriminate Hdumps].
Qed.

Lemma get_responses_growth (calls : list (string * option json)) :
  (forall m ms mt t, succeeded (chat_create m ms mt t) = true) ->
  (forall j, succeeded (json_dumps j) = true) ->
  forall self : ElderTechAssistant,
    List.length (conversation_history (snd (get_responses self calls)))
    = (List.length (conversation_history self) + 2 * List.length calls)%nat.
Proof.
  intros Hchat Hdumps.
  induction calls as [|[user_message user_context] calls IH]; intros self.
  - simpl. lia.
  - cbn [get_responses].
    destruct (complete_succeeds self user_message user_context Hchat Hdumps)
      as [ai E].
    rewrite (get_response_ok _ _ _ _ E).
    specialize (IH (with_history self
                      (conversation_history self
                         ++ [Message "user" user_message;
                             Message "assistant" ai]))).
    destruct (get_responses _ calls) as [replies self''].
    cbn [snd] in *. rewrite IH. cbn [conversation_history with_history].
    rewrite length_app. cbn [List.length]. lia.
Qed.

End WithGateway.

(** C8: the prompt carries the system prompt, the last 10 stored
    messages (all of them when fewer are stored), the optional context
    message and the new user message; the stored history is never
    shortened by a call: a successful call appends the user message and
    the reply, a failed call leaves it as it is, so that [n] successful
    calls make it longer by [2 n] messages. *)
Theorem history_trimmed_only_in_prompt
    (gw : Gateway) (self : ElderTechAssistant)
    (user_message : string) (user_context : option json) :
  (forall messages,
      build_messages self user_message user_context = Ok messages ->
      exists ctx,
        context_messages user_context = Ok ctx /\
        messages = Message "system" (system_prompt self)
                     :: last_n 10 (conversation_history self)
                     ++ ctx ++ [Message "user" user_message]) /\
  List.length (last_n 10 (conversation_history self))
    = Nat.min 10 (List.length (conversation_history self)) /\
  (exists older,
      conversation_history self
      = older ++ last_n 10 (conversation_history self)) /\
  (forall ai,
      complete self user_message user_context = Ok ai ->
      get_response self user_message user_context
      = (ai, with_history self
               (conversation_history self
                  ++ [Message "user" user_message;
                      Message "assistant" ai]))) /\
  (exists appended,
      conversation_history (snd (get_response self user_message user_context))
      = conversation_history self ++ appended) /\
  (forall calls,
      (forall m ms mt t, succeeded (chat_create m ms mt t) = true) ->
      (forall j, succeeded (json_dumps j) = true) ->
      List.length (conversation_history (snd (get_responses self calls)))
      = (List.length (conversation_history self) + 2 * List.length calls)%nat).
Proof.
  split; [|split; [|split; [|split; [|split]]]].
  - intros messages H. rewrite build_messages_eq in H.
    destruct (context_messages user_context) as [ctx|e]; simpl in H;
      [|discriminate H].
    exists ctx. split; [reflexivity|]. congruence.
  - apply last_n_length.
  - apply last_n_suffix.
  - intros ai. apply get_response_ok.
  - destruct (get_response_history self user_message user_context)
      as [[ai [_ H]]|[e [_ H]]].
    + eexists. exact H.
    + exists []. rewrite H. now rewrite app_nil_r.
  - intros calls Hchat Hdumps. now apply get_responses_growth.
Qed.

Lemma history_trimmed_only_in_prompt_witness :
  List.length (conversation_history Samples.busy_assistant) = 12%nat /\
  build_messages (gw := Samples.echo_gateway) Samples.busy_assistant "hello" None
  = Ok (Message "system" SYSTEM_PROMPT
          :: map Samples.turn [3; 4; 5; 6; 7; 8; 9; 10; 11; 12]
          ++ [Message "user" "hello"]) /\
  List.length
    (conversation_history
       (snd (get_responses (gw := Samples.echo_gateway) Samples.busy_assistant
               [("hello"%string, None); ("thanks"%string, None)])))
  = 16%nat.
Proof.
  destruct (history_trimmed_only_in_prompt Samples.echo_gateway
              Samples.busy_assistant "hello" None)
    as [Hprompt [_ [_ [_ [_ Hgrow]]]]].
  split; [reflexivity|]. split.
  - destruct (Hprompt _ eq_refl) as [ctx [Hctx _]].
    vm_compute. reflexivity.
  - rewrite (Hgrow [("hello"%string, None); ("thanks"%string, None)]).
    + reflexivity.
    + intros; reflexivity.
    + intros; reflexivity.
Defined.

(** C9: when the completion call raises, [get_response] returns the
    apology sentence ending in the error text and leaves the assistant,
    and with it the stored history, as it was; the history changes only
    when the completion succeeded. *)
Theorem get_response_on_failure
    (gw : Gateway) (self : ElderTechAssistant)
    (user_message : string) (user_context : option json) :
  (forall messages e,
      build_messages self user_message user_context = Ok messages ->
      chat_create OPENAI_MODEL messages 500 f0_7 = Raise e ->
      get_response self user_message user_context = (apology e, self) /\
      conversation_history (snd (get_response self user_message user_context))
      = conversation_history self) /\
  (forall e,
      apology e
      = ("I apologize, but I'm having trouble processing your request right now. Please try again later. Error: "
           ++ e)%string) /\
  (conversation_history (snd (get_response self user_message user_context))
     <> conversation_history self ->
   exists ai, complete self user_message user_context = Ok ai).
Proof.
  split; [|split].
  - intros messages e Hm Hc.
    assert (E : complete self user_message user_context = Raise e).
    { unfold complete. rewrite Hm. exact Hc. }
    rewrite (get_response_raise _ _ _ _ E). split; reflexivity.
  - reflexivity.
  - intros H.
    destruct (get_response_history self user_message user_context)
      as [[ai [E _]]|[e [_ E]]].
    + now exists ai.
    + rewrite E in H. now elim H.
Qed.

Lemma get_response_on_failure_witness :
  get_response (gw := Samples.down_gateway) Samples.busy_assistant "hello" None
  = (apology "connection refused", Samples.busy_assistant).
Proof.
  destruct (get_response_on_failure Samples.down_gateway
              Samples.busy_assistant "hello" None) as [H _].
  destruct (H _ "connection refused"%string eq_refl eq_refl) as [E _].
  exact E.
Defined.

(** A failure of [json.dumps] on the user context is handled the same
    way. *)
Lemma get_response_any_exception
    (gw : Gateway) (self : ElderTechAssistant)
    (user_message : string) (user_context : option json) (e : exn) :
  complete self user_message user_context = Raise e ->
  get_response self user_message user_context = (apology e, self).
Proof. apply get_response_raise. Qed.

End AssistantTheorems.

(** ** Grouping by category *)

(** ** Integer division *)

Module DivisionFacts.

Lemma digits_bound (m k : Z) :
  0 <= m -> 0 <= k -> m < 2 ^ k -> Zdigits2 m <= k.
Proof.
  intros Hm Hk H. destruct m as [|p|p]; [simpl; lia | | lia].
  simpl. assert (E : digits2_pos p = Pos.size p).
  { clear. induction p; simpl; congruence. }
  rewrite E.
  pose proof (Pos.size_le p) as L.
  assert (L' : 2 ^ Z.pos (Pos.size p) <= 2 * Z.pos p).
  { change 2 with (Z.pos 2) at 1. rewrite <- Pos2Z.inj_pow.
    change (2 * Z.pos p) with (Z.pos p~0). apply Pos2Z.pos_le_pos. exact L. }
  destruct (Z.le_gt_cases (Z.pos (Pos.size p)) k) as [|G]; [assumption|].
  exfalso.
  assert (M : 2 ^ (k + 1) <= 2 ^ Z.pos (Pos.size p))
    by (apply Z.pow_le_mono_r; lia).
  rewrite Z.pow_add_r in M by lia. lia.
Qed.

(** One shift to the right halves the mantissa. *)
Lemma shr_1_m (mrs : shr_record) :
  0 <= shr_m mrs -> shr_m (shr_1 mrs) = shr_m mrs / 2.
Proof.
  destruct mrs as [m r s]. simpl. intros H.
  destruct m as [|[p|p|]|p]; simpl; try reflexivity; try lia.
  - rewrite <- Z.div2_div. reflexivity.
  - rewrite <- Z.div2_div. reflexivity.
Qed.

Lemma iter_shr_m (p : positive) : forall mrs,
  0 <= shr_m mrs ->
  shr_m (iter_pos shr_1 p mrs) = shr_m mrs / 2 ^ Z.pos p.
Proof.
  induction p as [p IH|p IH|]; intros mrs H; simpl iter_pos.
  - assert (H1 : 0 <= shr_m (shr_1 mrs))
      by (rewrite shr_1_m by exact H; apply Z.div_pos; lia).
    assert (H2 : 0 <= shr_m (iter_pos shr_1 p (shr_1 mrs)))
      by (rewrite IH by exact H1; apply Z.div_pos;
          [exact H1 | apply Z.pow_pos_nonneg; lia]).
    rewrite IH by exact H2. rewrite IH by exact H1.
    rewrite shr_1_m by exact H.
    rewrite !Z.div_div by (pose proof (Z.pow_pos_nonneg 2 (Z.pos p)); lia).
    f_equal. replace (Z.pos p~1) with (1 + (Z.pos p + Z.pos p)) by lia.
    rewrite !Z.pow_add_r by lia. lia.
  - assert (H2 : 0 <= shr_m (iter_pos shr_1 p mrs))
      by (rewrite IH by exact H; apply Z.div_pos;
          [exact H | apply Z.pow_pos_nonneg; lia]).
    rewrite IH by exact H2. rewrite IH by exact H.
    rewrite !Z.div_div by (pose proof (Z.pow_pos_nonneg 2 (Z.pos p)); lia).
    f_equal. replace (Z.pos p~0) with (Z.pos p + Z.pos p) by lia.
    rewrite Z.pow_add_r by lia. lia.
  - rewrite shr_1_m by exact H. reflexivity.
Qed.

Lemma shr_record_of_loc_m (m : Z) (l : location) :
  shr_m (shr_record_of_loc m l) = m.
Proof. destruct l as [|[]]; reflexivity. Qed.

(** Aligning a magnitude below [2^(K - e)] keeps it below [2^K], and
    its exponent is at most that of a 53-bit mantissa below [2^K]. *)
Lemma shr_fexp_bound (K m e : Z) (l : location) :
  0 <= m -> e <= K -> m < 2 ^ (K - e) ->
  let '(mrs, e') := shr_fexp prec emax m e l in
  0 <= shr_m mrs /\ e <= e' /\
  e' <= Z.max e (Z.max (K - 53) (-1074)) /\
  (e' <= K -> shr_m mrs < 2 ^ (K - e')).
Proof.
  intros Hm He Hb. unfold shr_fexp, shr.
  pose proof (digits_bound m (K - e) Hm ltac:(lia) Hb) as Hd.
  assert (Hf : fexp prec emax (Zdigits2 m + e) <= Z.max (K - 53) (-1074)).
  { unfold fexp, SpecFloat.emin, prec, emax. lia. }
  destruct (fexp prec emax (Zdigits2 m + e) - e) as [|p|p] eqn:En.
  - rewrite shr_record_of_loc_m. repeat split; try lia.
  - rewrite iter_shr_m by (rewrite shr_record_of_loc_m; exact Hm).
    rewrite shr_record_of_loc_m.
    split; [apply Z.div_pos; [exact Hm | apply Z.pow_pos_nonneg; lia]|].
    split; [lia|]. split; [lia|]. intros HK.
    apply Z.div_lt_upper_bound; [apply Z.pow_pos_nonneg; lia|].
    rewrite <- Z.pow_add_r by lia.
    replace (Z.pos p + (K - (e + Z.pos p))) with (K - e) by lia. exact Hb.
  - rewrite shr_record_of_loc_m. repeat split; try lia.
Qed.

Lemma round_nearest_even_bound (m : Z) (l : location) :
  0 <= m -> m <= round_nearest_even m l <= m + 1.
Proof.
  intros H. destruct l as [|[]]; simpl; try lia. destruct (Z.even m); lia.
Qed.

(** Rounding a magnitude below [2^1022] never gives an infinity. *)
Lemma binary_round_aux_finite (K : Z) (sx : bool) (m e : Z) (l : location) :
  -1074 <= K <= 1022 -> e <= 0 ->
  0 <= m -> e <= K -> m < 2 ^ (K - e) ->
  is_infinite (binary_round_aux prec emax sx m e l) = false.
Proof.
  intros HK He0 Hm He Hb. unfold binary_round_aux.
  pose proof (shr_fexp_bound K m e l Hm He Hb) as H1.
  destruct (shr_fexp prec emax m e l) as [mrs1 e1].
  destruct H1 as [Hm1 [Hle1 [He1 Hb1]]].
  assert (He1K : e1 <= K) by lia. specialize (Hb1 He1K).
  pose proof (round_nearest_even_bound (shr_m mrs1) (loc_of_shr_record mrs1)
                Hm1) as Hr.
  set (m2 := round_nearest_even (shr_m mrs1) (loc_of_shr_record mrs1)) in *.
  assert (Hb2 : m2 < 2 ^ (K + 1 - e1)).
  { replace (K + 1 - e1) with (1 + (K - e1)) by lia.
    rewrite Z.pow_add_r by lia.
    assert (0 < 2 ^ (K - e1)) by (apply Z.pow_pos_nonneg; lia). lia. }
  pose proof (shr_fexp_bound (K + 1) m2 e1 loc_Exact
                ltac:(lia) ltac:(lia) Hb2) as H2.
  destruct (shr_fexp prec emax m2 e1 loc_Exact) as [mrs2 e2].
  destruct H2 as [Hm2 [_ [He2 _]]].
  destruct (shr_m mrs2) as [|p|p]; [reflexivity | | lia].
  assert (E : (e2 <=? emax - prec) = true)
    by (apply Z.leb_le; unfold emax, prec; lia).
  rewrite E. reflexivity.
Qed.

(** A quotient of magnitude below [2^1022] is not too large for a
    binary64. *)
Lemma true_quotient_finite (K a b : Z) :
  0 <= K <= 1022 -> b <> 0 -> Z.abs a < 2 ^ K * Z.abs b ->
  is_infinite (true_quotient a b) = false.
Proof.
  intros HK Hb H. unfold true_quotient.
  destruct a as [|pa|pa], b as [|pb|pb]; try reflexivity;
    try (now elim Hb); simpl int_operand;
    unfold SFdiv, SFdiv_core_binary.
  all: set (e' := Z.min (fexp prec emax
                           (Zdigits2 (Z.pos pa) + 0 - (Zdigits2 (Z.pos pb) + 0)))
                        (0 - 0)).
  all: assert (He' : e' <= 0) by (unfold e'; lia).
  all: set (m' := match 0 - 0 - e' with
                  | Z0 => Z.pos pa
                  | Zpos _ => Z.shiftl (Z.pos pa) (0 - 0 - e')
                  | Zneg _ => 0
                  end).
  all: assert (Hm' : m' = Z.pos pa * 2 ^ (- e')).
  1,3,5,7: (unfold m'; destruct (0 - 0 - e') as [|p|p] eqn:E;
    [ replace (- e') with 0 by lia; lia
    | rewrite Z.shiftl_mul_pow2 by lia; f_equal; f_equal; lia
    | lia ]).
  all: pose proof (Z.div_eucl_eq m' (Z.pos pb) ltac:(lia)) as Hdiv.
  all: pose proof (Z.mod_pos_bound m' (Z.pos pb) ltac:(lia)) as Hmod.
  all: unfold Z.modulo in Hmod.
  all: destruct (Z.div_eucl m' (Z.pos pb)) as [q r].
  all: apply (binary_round_aux_finite K); try lia.
  all: assert (P : 0 < 2 ^ (- e')) by (apply Z.pow_pos_nonneg; lia).
  all: simpl Z.abs in H.
  all: try (replace (K - e') with (K + - e') by lia;
            rewrite Z.pow_add_r by lia).
  all: nia.
Qed.

Lemma int_truediv_cases (a b : Z) :
  b <> 0 ->
  (is_infinite (true_quotient a b) = false /\
   int_truediv a b = Ok (true_quotient a b)) \/
  (is_infinite (true_quotient a b) = true /\
   int_truediv a b = Raise "integer division result too large for a float").
Proof.
  intros Hb. unfold int_truediv.
  destruct (Z.eqb_spec b 0) as [E|_]; [contradiction|].
  destruct (is_infinite (true_quotient a b)); auto.
Qed.

(** Python's own values on integers beyond [2^53] and at the edge of
    the binary64 range. *)
Example int_truediv_samples :
  int_truediv (3 * (2 ^ 53 + 1)) 3 = Ok (float_of_int (2 ^ 53)) /\
  int_truediv (- 6 * (2 ^ 53 + 1)) 6 = Ok (float_of_int (- 2 ^ 53)) /\
  int_truediv 7 20 = Ok (fdiv (float_of_int 7) (float_of_int 20)) /\
  int_truediv 0 (-3) = Ok (S754_zero true) /\
  int_truediv 1 0 = Raise "division by zero" /\
  int_truediv (2 ^ 1024 - 2 ^ 970 - 1) 1
  = Ok (S754_finite false 9007199254740991 971) /\
  int_truediv (2 ^ 1024 - 2 ^ 970) 1
  = Raise "integer division result too large for a float".
Proof. vm_compute. repeat split. Qed.

End DivisionFacts.

Module ClusterFacts.
Import Clustering DivisionFacts.

Lemma distinct_In (l : list string) (x : string) :
  In x (distinct l) <-> In x l.
Proof.
  induction l as [|c l IH]; simpl; [tauto|].
  rewrite filter_In, IH. split.
  - intros [H|[H _]]; auto.
  - intros [H|H]; [now left|].
    destruct (String.eqb_spec x c) as [->|N]; [now left|].
    right. split; [exact H | reflexivity].
Qed.

Lemma distinct_NoDup (l : list string) : NoDup (distinct l).
Proof.
  induction l as [|c l IH]; simpl; constructor.
  - rewrite filter_In, String.eqb_refl. intros [_ H]. discriminate H.
  - now apply NoDup_filter.
Qed.

Lemma distinct_snoc (l : list string) (c : string) :
  distinct (l ++ [c])
  = distinct l ++ (if existsb (String.eqb c) l then [] else [c]).
Proof.
  induction l as [|h t IH]; simpl; [reflexivity|].
  rewrite IH, filter_app. f_equal. f_equal.
  destruct (existsb (String.eqb c) t); simpl.
  - now rewrite orb_true_r.
  - rewrite orb_false_r. now destruct (c =? h)%string.
Qed.

Lemma existsb_eqb_In (c : string) (l : list string) :
  existsb (String.eqb c) l = true <-> In c l.
Proof.
  rewrite existsb_exists. split.
  - intros [x [Hx E]]. apply String.eqb_eq in E. now subst.
  - intros H. exists c. split; [exact H | apply String.eqb_refl].
Qed.

Lemma in_category_app (c : string) (l1 l2 : list Analysis.t) :
  in_category c (l1 ++ l2) = in_category c l1 ++ in_category c l2.
Proof. apply filter_app. Qed.

Lemma in_category_nil_iff (c : string) (l : list Analysis.t) :
  in_category c l = [] <-> ~ In c (map Analysis.category l).
Proof.
  unfold in_category. induction l as [|a l IH]; simpl; [tauto|].
  destruct (String.eqb_spec (Analysis.category a) c) as [E|N].
  - split; [discriminate | intros H; elim H; now left].
  - rewrite IH. tauto.
Qed.

Section Keyed.
Variable V : Type.
Variable g : string -> V.

Lemma contains_keyed (k : string) (keys : list string) :
  Dict.contains k (keyed g keys) = existsb (String.eqb k) keys.
Proof.
  induction keys as [|h t IH]; simpl; [reflexivity|].
  now rewrite IH, (String.eqb_sym h k).
Qed.

Lemma getitem_keyed (k : string) (keys : list string) :
  In k keys -> Dict.getitem k (keyed g keys) = Ok (g k).
Proof.
  induction keys as [|h t IH]; simpl; [tauto|].
  intros H. destruct (String.eqb_spec h k) as [->|N]; [reflexivity|].
  destruct H as [H|H]; [contradiction | now apply IH].
Qed.

Lemma setitem_keyed_new (k : string) (v : V) (keys : list string) :
  ~ In k keys ->
  Dict.setitem k v (keyed g keys) = keyed g keys ++ [(k, v)].
Proof.
  induction keys as [|h t IH]; simpl; [reflexivity|].
  intros H. destruct (String.eqb_spec h k) as [->|N].
  - elim H. now left.
  - rewrite IH; [reflexivity | tauto].
Qed.

Lemma setitem_keyed_present (k : string) (v : V) (keys : list string) :
  NoDup keys -> In k keys ->
  Dict.setitem k v (keyed g keys)
  = keyed (fun k' => if (k' =? k)%string then v else g k') keys.
Proof.
  induction keys as [|h t IH]; simpl; [tauto|].
  intros ND H. inversion ND as [|? ? Hh Ht]; subst.
  destruct (String.eqb_spec h k) as [->|N].
  - f_equal. apply map_ext_in. intros k' Hk'.
    destruct (String.eqb_spec k' k) as [->|_]; [contradiction | reflexivity].
  - f_equal. destruct H as [H|H]; [contradiction | now apply IH].
Qed.
End Keyed.

Lemma present_app (xs ys : list (option Analysis.t)) :
  present (xs ++ ys) = present xs ++ present ys.
Proof.
  induction xs as [|[a|] xs IH]; simpl; [reflexivity | now rewrite IH | exact IH].
Qed.

Lemma present_map_Some (l : list Analysis.t) : present (map Some l) = l.
Proof. induction l as [|a l IH]; simpl; [reflexivity | now rewrite IH]. Qed.

(** One round of the grouping loop. *)
Lemma group_step_groups (p : list Analysis.t) (a : Analysis.t) :
  group_step (groups p) (Some a) = Ok (groups (p ++ [a])).
Proof.
  unfold group_step, groups.
  set (c := Analysis.category a).
  set (keys := distinct (map Analysis.category p)).
  set (g := fun k => in_category k p).
  rewrite contains_keyed.
  assert (Hkeys' : (if negb (existsb (String.eqb c) keys)
                    then Dict.setitem c [] (keyed g keys)
                    else keyed g keys)
                   = keyed g (distinct (map Analysis.category (p ++ [a])))).
  { rewrite map_app. cbn [map]. fold c. rewrite distinct_snoc. fold keys.
    assert (Hex : existsb (String.eqb c) (map Analysis.category p)
                  = existsb (String.eqb c) keys).
    { apply eq_true_iff_eq. rewrite !existsb_eqb_In. unfold keys.
      now rewrite distinct_In. }
    rewrite Hex.
    destruct (existsb (String.eqb c) keys) eqn:E; simpl.
    - now rewrite app_nil_r.
    - rewrite setitem_keyed_new.
      + unfold keyed. rewrite map_app. simpl. do 3 f_equal.
        symmetry. apply in_category_nil_iff.
        unfold g. rewrite <- existsb_eqb_In, Hex. discriminate.
      + rewrite <- existsb_eqb_In, E. discriminate. }
  rewrite Hkeys'.
  set (keys' := distinct (map Analysis.category (p ++ [a]))).
  assert (Hin : In c keys').
  { unfold keys'. rewrite distinct_In, map_app, in_app_iff. right. now left. }
  rewrite getitem_keyed by exact Hin. simpl.
  rewrite setitem_keyed_present by (exact Hin || apply distinct_NoDup).
  f_equal. apply map_ext. intros k. f_equal.
  unfold g. rewrite in_category_app. unfold in_category at 3. simpl.
  fold c. rewrite (String.eqb_sym k c).
  destruct (String.eqb_spec c k) as [->|N]; [reflexivity | now rewrite app_nil_r].
Qed.

Lemma grouping_loop (faqs : list (option Analysis.t)) :
  for_loop group_step faqs [] = Ok (groups (present faqs)).
Proof.
  induction faqs as [|x faqs IH] using rev_ind; [reflexivity|].
  rewrite for_loop_app, IH, present_app. cbn [Py.bind for_loop].
  destruct x as [a|].
  - rewrite group_step_groups. reflexivity.
  - cbn [present]. now rewrite app_nil_r.
Qed.

Lemma in_category_nonempty (p : list Analysis.t) (c : string) :
  In c (map Analysis.category p) -> 0 < len (in_category c p).
Proof.
  intros H. destruct (in_category c p) as [|a l] eqn:E.
  - apply in_category_nil_iff in E. contradiction.
  - rewrite len_cons. pose proof (len_nonneg l). lia.
Qed.

(** The mean of a category in the cluster dict: the division is never
    by zero, so the cluster is built unless the mean is too large for a
    binary64. *)
Lemma make_cluster_group (p : list Analysis.t) (c : string) :
  In c (map Analysis.category p) ->
  make_cluster (c, in_category c p)
  = if is_infinite (mean (map Analysis.priority (in_category c p)))
    then Raise "integer division result too large for a float"
    else Ok (cluster_of p c).
Proof.
  intros H. apply in_category_nonempty in H.
  unfold make_cluster, int_truediv, cluster_of, mean.
  destruct (Z.eqb_spec (len (in_category c p)) 0) as [E|_]; [lia|].
  replace (len (map Analysis.priority (in_category c p)))
    with (len (in_category c p)) by (unfold len; now rewrite length_map).
  destruct (is_infinite _); reflexivity.
Qed.

Lemma comprehension_ok {A B} (f : A -> result B) (h : A -> B) (xs : list A) :
  (forall x, In x xs -> f x = Ok (h x)) ->
  comprehension f xs = Ok (map h xs).
Proof.
  induction xs as [|x xs IH]; intros H; simpl; [reflexivity|].
  rewrite (H x) by now left. simpl.
  rewrite IH by (intros y Hy; apply H; now right). reflexivity.
Qed.

Lemma comprehension_returns {A B} (f : A -> result B) (xs : list A)
    (ys : list B) :
  comprehension f xs = Ok ys ->
  forall x, In x xs -> exists y, f x = Ok y.
Proof.
  revert ys. induction xs as [|x xs IH]; intros ys; simpl.
  - intros _ x [].
  - destruct (f x) as [y|e] eqn:E; simpl; [|discriminate].
    destruct (comprehension f xs) as [ys'|e]; simpl; [|discriminate].
    intros _ x' [<-|Hx']; [eauto | now apply (IH ys')].
Qed.

Lemma comprehension_raises {A B} (f : A -> result B) (xs : list A) (e : exn) :
  comprehension f xs = Raise e -> exists x, In x xs /\ f x = Raise e.
Proof.
  induction xs as [|x xs IH]; simpl; [discriminate|].
  destruct (f x) as [y|e'] eqn:E; simpl.
  - destruct (comprehension f xs) as [ys|e'']; simpl; [discriminate|].
    intros H. injection H as ->.
    destruct (IH eq_refl) as [x' [Hx' E']]. exists x'. auto.
  - intros H. injection H as ->. exists x. auto.
Qed.

(** [create_clusters] after its grouping loop. *)
Lemma create_clusters_groups (faqs : list (option Analysis.t)) :
  create_clusters faqs
  = comprehension make_cluster (groups (present faqs)).
Proof. unfold create_clusters. now rewrite grouping_loop. Qed.

(** When no mean is too large, [create_clusters] returns, and its
    result in closed form. *)
Lemma create_clusters_fits (faqs : list (option Analysis.t)) :
  means_fit (present faqs) ->
  create_clusters faqs
  = Ok (map (cluster_of (present faqs))
            (distinct (map Analysis.category (present faqs)))).
Proof.
  intros Hfit. rewrite create_clusters_groups. unfold groups, keyed.
  rewrite comprehension_ok
    with (h := fun item : string * list Analysis.t =>
                 cluster_of (present faqs) (fst item)).
  - rewrite map_map. reflexivity.
  - intros [c l] H. apply in_map_iff in H. destruct H as [k [E Hk]].
    inversion E; subst. cbn [fst].
    apply (proj1 (distinct_In _ _)) in Hk.
    rewrite make_cluster_group by exact Hk. now rewrite Hfit.
Qed.

(** What [create_clusters] returns, when it returns. *)
Lemma create_clusters_eq (faqs : list (option Analysis.t))
    (clusters : list Cluster) :
  create_clusters faqs = Ok clusters ->
  clusters = map (cluster_of (present faqs))
                 (distinct (map Analysis.category (present faqs))) /\
  means_fit (present faqs).
Proof.
  intros H.
  assert (Hfit : means_fit (present faqs)).
  { rewrite create_clusters_groups in H. intros c Hc.
    assert (Hin : In (c, in_category c (present faqs))
                     (groups (present faqs))).
    { unfold groups, keyed. apply in_map_iff. exists c.
      split; [reflexivity | now apply distinct_In]. }
    destruct (comprehension_returns _ _ _ H _ Hin) as [cluster E].
    rewrite make_cluster_group in E by exact Hc.
    destruct (is_infinite _); [discriminate E | reflexivity]. }
  split; [|exact Hfit].
  rewrite (create_clusters_fits faqs Hfit) in H. now injection H as <-.
Qed.

(** [create_clusters] raises only [OverflowError], for a category whose
    mean is too large. *)
Lemma create_clusters_raises (faqs : list (option Analysis.t)) (e : exn) :
  create_clusters faqs = Raise e ->
  e = "integer division result too large for a float"%string /\
  exists c, In c (map Analysis.category (present faqs)) /\
    is_infinite (mean (map Analysis.priority (in_category c (present faqs))))
    = true.
Proof.
  rewrite create_clusters_groups. intros H.
  apply comprehension_raises in H. destruct H as [[c l] [Hin E]].
  unfold groups, keyed in Hin. apply in_map_iff in Hin.
  destruct Hin as [k [Ek Hk]]. inversion Ek; subst.
  apply (proj1 (distinct_In _ _)) in Hk.
  rewrite make_cluster_group in E by exact Hk.
  destruct (is_infinite _) eqn:Ei; [|discriminate E].
  injection E as <-. split; [reflexivity|]. exists c. auto.
Qed.

Lemma sum_bound (xs : list Z) (B : Z) :
  (forall x, In x xs -> Z.abs x <= B) -> Z.abs (sum xs) <= len xs * B.
Proof.
  induction xs as [|x xs IH]; intros H; [simpl; lia|].
  rewrite sum_cons, len_cons.
  pose proof (H x (in_eq _ _)) as Hx.
  assert (IH' : Z.abs (sum xs) <= len xs * B)
    by (apply IH; intros y Hy; apply H; now right).
  lia.
Qed.

(** Priorities of magnitude below [2^1022], those of database integers
    among them, have means that fit. *)
Lemma bounded_priorities_fit (l : list Analysis.t) :
  bounded_priorities l -> means_fit l.
Proof.
  intros Hb c Hc. unfold mean.
  pose proof (in_category_nonempty l c Hc) as Hpos.
  replace (len (map Analysis.priority (in_category c l)))
    with (len (in_category c l)) by (unfold len; now rewrite length_map).
  apply (true_quotient_finite 1022); [lia | lia |].
  assert (Hs : Z.abs (sum (map Analysis.priority (in_category c l)))
               <= len (map Analysis.priority (in_category c l))
                  * (2 ^ 1022 - 1)).
  { apply sum_bound. intros x Hx. apply in_map_iff in Hx.
    destruct Hx as [a [<- Ha]]. unfold in_category in Ha.
    apply filter_In in Ha. destruct Ha as [Ha _].
    specialize (Hb a Ha). lia. }
  replace (len (map Analysis.priority (in_category c l)))
    with (len (in_category c l)) in Hs
    by (unfold len; now rewrite length_map).
  assert (P : 0 < 2 ^ 1022) by (apply Z.pow_pos_nonneg; lia).
  rewrite (Z.abs_eq (len (in_category c l))) by lia. nia.
Qed.

Lemma sum_map_add {A} (f g : A -> Z) (l : list A) :
  sum (map (fun x => f x + g x) l) = sum (map f l) + sum (map g l).
Proof.
  induction l as [|x l IH]; simpl; [reflexivity|].
  rewrite !sum_cons, IH. lia.
Qed.

Lemma sum_indicator (x : string) (keys : list string) :
  NoDup keys -> In x keys ->
  sum (map (fun k => if (x =? k)%string then 1 else 0) keys) = 1.
Proof.
  induction keys as [|h t IH]; simpl; [tauto|].
  intros ND H. inversion ND as [|? ? Hh Ht]; subst. rewrite sum_cons.
  destruct (String.eqb_spec x h) as [->|N].
  - assert (Z0 : sum (map (fun k => if (h =? k)%string then 1 else 0) t) = 0).
    { clear IH H ND Ht. induction t as [|k t IH]; [reflexivity|].
      simpl. rewrite sum_cons.
      destruct (String.eqb_spec h k) as [->|_]; [elim Hh; now left|].
      rewrite IH; [reflexivity | intros Hk; apply Hh; now right]. }
    lia.
  - destruct H as [H|H]; [congruence|]. rewrite IH by assumption. lia.
Qed.

(** Over a duplicate-free key list covering every category, the group
    sizes add up to the number of analyses. *)
Lemma group_sizes_total (keys : list string) (l : list Analysis.t) :
  NoDup keys ->
  (forall a, In a l -> In (Analysis.category a) keys) ->
  sum (map (fun k => len (in_category k l)) keys) = len l.
Proof.
  intros ND. induction l as [|a l IH]; intros Hcov.
  - simpl. induction keys as [|k keys IHk]; [reflexivity|].
    simpl. rewrite sum_cons. inversion ND; subst. now rewrite IHk.
  - rewrite len_cons, <- IH by (intros b Hb; apply Hcov; now right).
    rewrite <- (sum_indicator (Analysis.category a) keys ND)
      by (apply Hcov; now left).
    rewrite <- sum_map_add. f_equal. apply map_ext. intros k.
    unfold in_category. simpl.
    destruct (Analysis.category a =? k)%string; [apply len_cons | reflexivity].
Qed.

Lemma cluster_counts_total (l : list Analysis.t) :
  sum (map count (map (cluster_of l) (distinct (map Analysis.category l))))
  = len l.
Proof.
  rewrite map_map. simpl.
  apply group_sizes_total; [apply distinct_NoDup|].
  intros a Ha. apply distinct_In. now apply in_map.
Qed.

End ClusterFacts.

(** ** The batch job *)

Module RunFacts.
Import Clustering ClusterFacts GapFacts.

Section WithAnalyzer.
Context {an : Analyzer}.

(** The [try] block case by case: the outcome and the calls made. *)
Lemma analyze_faq_try_eq (faq : FAQ.t) :
  analyze_faq_try faq
  = match faq_text faq with
    | Raise e => (Raise e, [])
    | Ok text =>
        match extract_entities text with
        | Raise e => (Raise e, [ExtractEntities text])
        | Ok entities =>
            match analyze_sentiment text with
            | Raise e =>
                (Raise e, [ExtractEntities text; AnalyzeSentiment text])
            | Ok sentiment =>
                (Ok {| Analysis.id := FAQ.id faq;
                       Analysis.question := FAQ.question faq;
                       Analysis.answer := FAQ.answer faq;
                       Analysis.category := FAQ.category faq;
                       Analysis.entities := entities;
                       Analysis.sentiment := sentiment;
                       Analysis.priority := FAQ.priority faq |},
                 [ExtractEntities text; AnalyzeSentiment text])
            end
        end
    end.
Proof.
  unfold analyze_faq_try, call_extract_entities, call_analyze_sentiment,
    lift, ret, tbind.
  destruct (faq_text faq) as [text|e]; [|reflexivity].
  destruct (extract_entities text) as [entities|e]; [|reflexivity].
  destruct (analyze_sentiment text) as [sentiment|e]; reflexivity.
Qed.

Lemma analyze_faq_content_calls (faq : FAQ.t) :
  snd (analyze_faq_content faq) = calls_once faq.
Proof.
  unfold analyze_faq_content, calls_once. rewrite analyze_faq_try_eq.
  destruct (faq_text faq) as [text|e]; [|reflexivity].
  destruct (extract_entities text) as [entities|e]; [|reflexivity].
  destruct (analyze_sentiment text) as [sentiment|e]; reflexivity.
Qed.

Lemma analysis_loop_from (faqs : list FAQ.t)
    (analyzed : list Analysis.t) (calls : list call) :
  fold_left (fun '(analyzed_faqs, calls) faq =>
               let '(analysis, made) := analyze_faq_content faq in
               (match analysis with
                | Some analysis => analyzed_faqs ++ [analysis]
                | None => analyzed_faqs
                end,
                calls ++ made)) faqs (analyzed, calls)
  = (analyzed ++ flat_map kept faqs, calls ++ flat_map calls_once faqs).
Proof.
  revert analyzed calls.
  induction faqs as [|faq faqs IH]; intros analyzed calls; simpl.
  - now rewrite !app_nil_r.
  - unfold kept at 1. rewrite <- (analyze_faq_content_calls faq).
    destruct (analyze_faq_content faq) as [[a|] made]; cbn [fst snd];
      rewrite IH, <- !app_assoc; reflexivity.
Qed.

Lemma analysis_loop_eq (faqs : list FAQ.t) :
  analysis_loop faqs = (flat_map kept faqs, flat_map calls_once faqs).
Proof. unfold analysis_loop. now rewrite analysis_loop_from. Qed.

Lemma analyze_all_eq (faqs : list FAQ.t) :
  analyze_all faqs = flat_map kept faqs.
Proof. unfold analyze_all. now rewrite analysis_loop_eq. Qed.

Lemma analysis_calls_eq (faqs : list FAQ.t) :
  analysis_calls faqs = flat_map calls_once faqs.
Proof. unfold analysis_calls. now rewrite analysis_loop_eq. Qed.

Lemma analyze_faq_content_cases (faq : FAQ.t) :
  (exists text entities sentiment,
      faq_text faq = Ok text /\
      extract_entities text = Ok entities /\
      analyze_sentiment text = Ok sentiment /\
      fst (analyze_faq_content faq)
      = Some {| Analysis.id := FAQ.id faq;
                Analysis.question := FAQ.question faq;
                Analysis.answer := FAQ.answer faq;
                Analysis.category := FAQ.category faq;
                Analysis.entities := entities;
                Analysis.sentiment := sentiment;
                Analysis.priority := FAQ.priority faq |}) \/
  (analysis_raises faq /\ fst (analyze_faq_content faq) = None).
Proof.
  unfold analysis_raises, analyze_faq_content. rewrite analyze_faq_try_eq.
  destruct (faq_text faq) as [text|e0].
  - destruct (extract_entities text) as [entities|e1] eqn:E1.
    + destruct (analyze_sentiment text) as [sentiment|e2] eqn:E2.
      * left. exists text, entities, sentiment. auto.
      * right. split; [|reflexivity]. right. exists text.
        split; [reflexivity|]. right. rewrite E2. exact I.
    + right. split; [|reflexivity]. right. exists text.
      split; [reflexivity|]. left. rewrite E1. exact I.
  - right. split; [left; exact I | reflexivity].
Qed.

Lemma analyzable_iff (faq : FAQ.t) :
  analyzable faq = true <-> exists a, fst (analyze_faq_content faq) = Some a.
Proof.
  unfold analyzable, analyze_faq_content. rewrite analyze_faq_try_eq.
  destruct (faq_text faq) as [text|e0];
    [|split; [discriminate | intros [x H]; discriminate H]].
  destruct (extract_entities text); simpl.
  - destruct (analyze_sentiment text); simpl.
    + split; [eauto | reflexivity].
    + split; [discriminate | intros [x H]; discriminate H].
  - split; [discriminate | intros [x H]; discriminate H].
Qed.

Lemma in_analyze_all (faqs : list FAQ.t) (a : Analysis.t) :
  In a (analyze_all faqs)
  <-> exists faq, In faq faqs /\ fst (analyze_faq_content faq) = Some a.
Proof.
  rewrite analyze_all_eq, in_flat_map. unfold kept. split.
  - intros [faq [Hf Ha]]. exists faq. split; [exact Hf|].
    destruct (fst (analyze_faq_content faq)) as [a'|]; [|destruct Ha].
    destruct Ha as [->|[]]. reflexivity.
  - intros [faq [Hf E]]. exists faq. split; [exact Hf|].
    rewrite E. now left.
Qed.

Lemma len_analyze_all (faqs : list FAQ.t) :
  len (analyze_all faqs) = len (filter analyzable faqs).
Proof.
  rewrite analyze_all_eq.
  induction faqs as [|faq faqs IH]; simpl; [reflexivity|].
  rewrite len_app, IH. unfold kept.
  destruct (analyzable faq) eqn:E.
  - apply analyzable_iff in E. destruct E as [kept_a ->].
    rewrite !len_cons. reflexivity.
  - destruct (fst (analyze_faq_content faq)) as [a|] eqn:Ea; [|reflexivity].
    assert (H : analyzable faq = true) by (apply analyzable_iff; eauto).
    congruence.
Qed.

(** A record that stems from a FAQ was produced from the same text. *)
Lemma kept_text (faq faq' : FAQ.t) (a : Analysis.t) :
  fst (analyze_faq_content faq') = Some a -> stems_from a faq ->
  faq_text faq' = faq_text faq /\ analyzable faq' = true.
Proof.
  intros Ha [_ [Hq [Hans _]]].
  split; [|apply analyzable_iff; eauto].
  destruct (analyze_faq_content_cases faq')
    as [[text [entities [sentiment [_ [_ [_ E]]]]]]|[_ E]]; [|congruence].
  rewrite E in Ha. injection Ha as <-. simpl in Hq, Hans.
  unfold faq_text. now rewrite Hq, Hans.
Qed.

Lemma dropped_not_analyzable (faq : FAQ.t) :
  analysis_raises faq -> analyzable faq = false.
Proof.
  unfold analyzable. intros [H|[text [E H]]].
  - destruct (faq_text faq); [destruct H | reflexivity].
  - rewrite E.
    destruct (extract_entities text), (analyze_sentiment text); simpl in *;
      tauto.
Qed.

Lemma analyzable_text (faq faq' : FAQ.t) :
  faq_text faq' = faq_text faq -> analyzable faq' = analyzable faq.
Proof. intros E. unfold analyzable. now rewrite E. Qed.

Context {disk : Disk}.

(** The run after its analysis loop. *)
Lemma run_clustering_eq (self : FAQClusterer) (faqs : list FAQ.t)
    (clock : Clock) :
  run_clustering self (Ok faqs) clock
  = (clusters <- create_clusters (map Some (analyze_all faqs)) ;;
     let self' :=
       {| self_clusters := clusters; self_gaps := identify_gaps clusters |} in
     let file :=
       save_results self' clock
         (generate_recommendations (identify_gaps clusters)) in
     _ <- write_results file ;;
     Ok (self', file)).
Proof. reflexivity. Qed.

(** What a run that returns has done. *)
Lemma run_clustering_ok (self self' : FAQClusterer) (faqs : list FAQ.t)
    (clock : Clock) (file : SavedFile) :
  run_clustering self (Ok faqs) clock = Ok (self', file) ->
  self' = {| self_clusters :=
               map (cluster_of (analyze_all faqs))
                   (distinct (map Analysis.category (analyze_all faqs)));
             self_gaps :=
               identify_gaps
                 (map (cluster_of (analyze_all faqs))
                      (distinct (map Analysis.category (analyze_all faqs)))) |} /\
  file = save_results
           {| self_clusters :=
                map (cluster_of (analyze_all faqs))
                    (distinct (map Analysis.category (analyze_all faqs)));
              self_gaps :=
                identify_gaps
                  (map (cluster_of (analyze_all faqs))
                       (distinct (map Analysis.category (analyze_all faqs)))) |}
           clock
           (generate_recommendations
              (identify_gaps
                 (map (cluster_of (analyze_all faqs))
                      (distinct (map Analysis.category (analyze_all faqs)))))) /\
  means_fit (analyze_all faqs) /\
  write_results file = Ok tt.
Proof.
  rewrite run_clustering_eq.
  destruct (create_clusters (map Some (analyze_all faqs)))
    as [clusters|e] eqn:Ec; cbn [Py.bind]; [|discriminate].
  apply create_clusters_eq in Ec. rewrite present_map_Some in Ec.
  destruct Ec as [-> Hfit].
  destruct (write_results _) as [[]|e] eqn:Ew; cbn [Py.bind]; [|discriminate].
  intros H. injection H as <- <-. auto.
Qed.

(** A run returns when no mean is too large and the file can be
    written. *)
Lemma run_clustering_returns (self : FAQClusterer) (faqs : list FAQ.t)
    (clock : Clock) :
  means_fit (analyze_all faqs) ->
  (forall file, write_results file = Ok tt) ->
  exists self' file, run_clustering self (Ok faqs) clock = Ok (self', file).
Proof.
  intros Hfit Hw. rewrite run_clustering_eq.
  rewrite create_clusters_fits by (now rewrite present_map_Some).
  cbn [Py.bind]. rewrite Hw. cbn [Py.bind]. eauto.
Qed.

(** A run raises what clustering raises or what the writing of the
    file raises, and nothing else. *)
Lemma run_clustering_raises (self : FAQClusterer) (faqs : list FAQ.t)
    (clock : Clock) (e : exn) :
  run_clustering self (Ok faqs) clock = Raise e ->
  create_clusters (map Some (analyze_all faqs)) = Raise e \/
  exists file, write_results file = Raise e.
Proof.
  rewrite run_clustering_eq.
  destruct (create_clusters (map Some (analyze_all faqs)))
    as [clusters|e'] eqn:Ec; cbn [Py.bind].
  - destruct (write_results _) as [[]|e'] eqn:Ew; cbn [Py.bind];
      [discriminate|].
    intros H. injection H as ->. right. eauto.
  - intros H. injection H as ->. now left.
Qed.

Lemma in_cluster_faqs (l : list Analysis.t) (cluster : Cluster) (a : Analysis.t) :
  In cluster (map (cluster_of l) (distinct (map Analysis.category l))) ->
  In a (Clustering.faqs cluster) -> In a l.
Proof.
  intros Hc Ha. apply in_map_iff in Hc. destruct Hc as [c [<- _]].
  simpl in Ha. unfold in_category in Ha. now apply filter_In in Ha.
Qed.

Lemma in_some_cluster (l : list Analysis.t) (a : Analysis.t) :
  In a l ->
  exists cluster,
    In cluster (map (cluster_of l) (distinct (map Analysis.category l))) /\
    name cluster = Analysis.category a /\
    In a (Clustering.faqs cluster).
Proof.
  intros Ha. exists (cluster_of l (Analysis.category a)).
  split; [|split; [reflexivity|]].
  - apply in_map, distinct_In. now apply in_map.
  - simpl. unfold in_category. apply filter_In.
    split; [exact Ha | apply String.eqb_refl].
Qed.

(** The analyses keep the priorities of their rows. *)
Lemma analyze_all_priorities (faqs : list FAQ.t) (B : Z) :
  (forall row, In row faqs -> Z.abs (FAQ.priority row) < B) ->
  forall a, In a (analyze_all faqs) -> Z.abs (Analysis.priority a) < B.
Proof.
  intros H a Ha. apply in_analyze_all in Ha. destruct Ha as [faq [Hf E]].
  destruct (analyze_faq_content_cases faq)
    as [[text [entities [sentiment [_ [_ [_ E']]]]]]|[_ E']]; [|congruence].
  rewrite E' in E. injection E as <-. simpl. now apply H.
Qed.

End WithAnalyzer.

(** The two wrappers of [services/openai.py] catch every exception, so
    with them a FAQ is dropped only for a NULL text column. *)
Lemma openai_analyzer_keeps_all (gw : Gateway) (faq : FAQ.t) (text : string) :
  faq_text faq = Ok text ->
  @analyzable (openai_analyzer gw) faq = true.
Proof.
  intros Et. unfold analyzable. rewrite Et. simpl.
  unfold OpenAI.extract_entities, OpenAI.analyze_sentiment.
  destruct (chat_create OPENAI_MODEL _ 200 f0_1) as [r1|e1]; simpl;
    [destruct (json_loads r1)|];
    (destruct (chat_create OPENAI_MODEL _ 100 f0_1) as [r2|e2]; simpl;
       [destruct (json_loads r2)|]); reflexivity.
Qed.

End RunFacts.

Module ClusteringTheorems.
Import Clustering ClusterFacts GapFacts RunFacts.




(** Categories that differ only in case are different clusters, and the
    clusters follow the first occurrences. *)
Example create_clusters_case_and_order :
  match create_clusters
          [Some (Samples.analysis 1 "b" 1); None;
           Some (Samples.analysis 2 "A" 2);
           Some (Samples.analysis 3 "B" 3);
           Some (Samples.analysis 4 "b" 4)] with
  | Ok clusters => map (fun c => (name c, count c)) clusters
  | Raise _ => []
  end = [("b"%string, 2); ("A"%string, 1); ("B"%string, 1)].
Proof. vm_compute. reflexivity. Qed.

(** The mean is rounded once, from the exact quotient: three FAQs of
    priority 2^53 + 1 have the mean 2^53. *)
Example create_clusters_large_priorities :
  match create_clusters
          [Some (Samples.analysis 1 "A" (2 ^ 53 + 1));
           Some (Samples.analysis 2 "A" (2 ^ 53 + 1));
           Some (Samples.analysis 3 "A" (2 ^ 53 + 1))] with
  | Ok clusters => map avg_priority clusters
  | Raise _ => []
  end = [float_of_int (2 ^ 53)].
Proof. vm_compute. reflexivity. Qed.

(** C4: in every report that [save_results] writes, total_faqs is the
    sum of the count fields of the report's clusters, total_clusters is
    the number of clusters and total_gaps the number of gaps; in a
    report written by a run, total_faqs is moreover the number of
    analyzed FAQs. *)
Theorem report_summary_counts :
  (forall (self : FAQClusterer) (clock : Clock) (recs : list string),
      let report := results (save_results self clock recs) in
      total_faqs (summary report) = sum (map count (clusters report)) /\
      total_clusters (summary report) = len (clusters report) /\
      total_gaps (summary report) = len (gaps report)) /\
  (forall (an : Analyzer) (disk : Disk) (self self' : FAQClusterer)
          (rows : list FAQ.t) (clock : Clock) (file : SavedFile),
      run_clustering self (Ok rows) clock = Ok (self', file) ->
      let report := results file in
      total_faqs (summary report) = sum (map count (clusters report)) /\
      total_clusters (summary report) = len (clusters report) /\
      total_gaps (summary report) = len (gaps report) /\
      total_faqs (summary report) = len (analyze_all rows)).
Proof.
  split.
  - intros self clock recs. simpl. auto.
  - intros an disk self self' rows clock file H.
    apply run_clustering_ok in H. destruct H as [_ [-> _]].
    cbn [results save_results summary clusters gaps total_faqs
         total_clusters total_gaps self_clusters self_gaps].
    split; [reflexivity|]. split; [reflexivity|]. split; [reflexivity|].
    apply cluster_counts_total.
Qed.

Lemma report_summary_counts_witness :
  exists (self' : FAQClusterer) (file : SavedFile),
    @run_clustering Samples.flaky_analyzer Samples.disk init
      (Ok Samples.rows) Samples.clock
    = Ok (self', file) /\
    total_faqs (summary (results file)) = 2 /\
    sum (map count (clusters (results file))) = 2.
Proof.
  destruct (@run_clustering Samples.flaky_analyzer Samples.disk init
              (Ok Samples.rows) Samples.clock) as [[self' file]|e] eqn:E;
    [|vm_compute in E; discriminate E].
  exists self', file. split; [reflexivity|].
  destruct report_summary_counts as [_ H].
  destruct (H Samples.flaky_analyzer Samples.disk init self' Samples.rows
              Samples.clock file E) as [H1 [_ [_ H2]]].
  split; [|rewrite <- H1]; rewrite H2; vm_compute; reflexivity.
Defined.

(** C3: a FAQ for which something raises inside the analysis (entity
    extraction, sentiment analysis, or the building of their text from
    a NULL column) yields no analysis record: none stemming from it is
    in the analyzed list or in any cluster, and total_faqs counts only
    the FAQs for which both calls returned. The analysis of a FAQ makes
    each call at most once: entity extraction once, when the text can
    be built, and sentiment analysis once, when entity extraction
    returned; nothing is tried again. A FAQ for which both calls return
    is kept, in the cluster of its category, and every record that is
    kept carries the results of both calls. What raises inside an
    analysis does not leave the run: a run raises only what clustering
    or the writing of the report raises, and it returns whenever the
    priorities are within bounds and the report can be written. *)
Theorem failed_analysis_drops_faq
    (an : Analyzer) (disk : Disk) (self : FAQClusterer) (rows : list FAQ.t)
    (clock : Clock) :
  (forall faq : FAQ.t,
      snd (analyze_faq_content faq)
      = match faq_text faq with
        | Ok text =>
            ExtractEntities text
              :: (if succeeded (extract_entities text)
                  then [AnalyzeSentiment text] else [])
        | Raise _ => []
        end) /\
  analysis_calls rows
  = flat_map (fun faq => snd (analyze_faq_content faq)) rows /\
  (forall faq : FAQ.t,
      analysis_raises faq ->
      fst (analyze_faq_content faq) = None /\
      (forall a, In a (analyze_all rows) -> ~ stems_from a faq)) /\
  (forall a : Analysis.t,
      In a (analyze_all rows) ->
      exists faq text entities sentiment,
        In faq rows /\
        faq_text faq = Ok text /\
        extract_entities text = Ok entities /\
        analyze_sentiment text = Ok sentiment /\
        a = {| Analysis.id := FAQ.id faq;
               Analysis.question := FAQ.question faq;
               Analysis.answer := FAQ.answer faq;
               Analysis.category := FAQ.category faq;
               Analysis.entities := entities;
               Analysis.sentiment := sentiment;
               Analysis.priority := FAQ.priority faq |}) /\
  (forall (faq : FAQ.t) (text : string) (entities sentiment : json),
      In faq rows ->
      faq_text faq = Ok text ->
      extract_entities text = Ok entities ->
      analyze_sentiment text = Ok sentiment ->
      let a := {| Analysis.id := FAQ.id faq;
                  Analysis.question := FAQ.question faq;
                  Analysis.answer := FAQ.answer faq;
                  Analysis.category := FAQ.category faq;
                  Analysis.entities := entities;
                  Analysis.sentiment := sentiment;
                  Analysis.priority := FAQ.priority faq |} in
      fst (analyze_faq_content faq) = Some a /\
      In a (analyze_all rows)) /\
  (forall e : exn,
      run_clustering self (Ok rows) clock = Raise e ->
      create_clusters (map Some (analyze_all rows)) = Raise e \/
      exists file, write_results file = Raise e) /\
  ((forall row, In row rows -> Z.abs (FAQ.priority row) < 2 ^ 1022) ->
   (forall file, write_results file = Ok tt) ->
   exists (self' : FAQClusterer) (file : SavedFile),
     run_clustering self (Ok rows) clock = Ok (self', file)) /\
  (forall (self' : FAQClusterer) (file : SavedFile),
      run_clustering self (Ok rows) clock = Ok (self', file) ->
      total_faqs (summary (results file)) = len (filter analyzable rows) /\
      (forall faq : FAQ.t,
          analysis_raises faq ->
          forall cluster a,
            In cluster (clusters (results file)) ->
            In a (faqs cluster) -> ~ stems_from a faq) /\
      (forall a : Analysis.t,
          In a (analyze_all rows) ->
          exists cluster,
            In cluster (clusters (results file)) /\
            name cluster = Analysis.category a /\
            In a (faqs cluster))).
Proof.
  assert (Hdrop : forall faq,
             analysis_raises faq ->
             forall a, In a (analyze_all rows) -> ~ stems_from a faq).
  { intros faq Hraise a Ha Hstem.
    apply in_analyze_all in Ha. destruct Ha as [faq' [_ Hkept]].
    destruct (kept_text faq faq' a Hkept Hstem) as [Htext Hok].
    rewrite (analyzable_text faq faq' Htext) in Hok.
    rewrite (dropped_not_analyzable faq Hraise) in Hok. discriminate Hok. }
  split; [intros faq; apply analyze_faq_content_calls|].
  split.
  { rewrite analysis_calls_eq. rewrite !flat_map_concat_map. f_equal.
    apply map_ext. intros faq. symmetry. apply analyze_faq_content_calls. }
  split; [|split; [|split; [|split; [|split]]]].
  - intros faq Hraise. split; [|now apply Hdrop].
    destruct (analyze_faq_content_cases faq)
      as [[text [entities [sentiment [Et [E1 [E2 _]]]]]]|[_ E]]; [|exact E].
    pose proof (dropped_not_analyzable faq Hraise) as Hn.
    unfold analyzable in Hn. rewrite Et, E1, E2 in Hn. discriminate Hn.
  - intros a Ha. apply in_analyze_all in Ha. destruct Ha as [faq [Hf Hkept]].
    destruct (analyze_faq_content_cases faq)
      as [[text [entities [sentiment [Et [E1 [E2 E]]]]]]|[_ E]]; [|congruence].
    exists faq, text, entities, sentiment.
    repeat (split; [assumption|]). congruence.
  - intros faq text entities sentiment Hf Et E1 E2 a.
    assert (E : fst (analyze_faq_content faq) = Some a).
    { unfold analyze_faq_content. rewrite analyze_faq_try_eq, Et, E1, E2.
      reflexivity. }
    split; [exact E|]. apply in_analyze_all. now exists faq.
  - intros e. apply run_clustering_raises.
  - intros Hb Hw. apply run_clustering_returns; [|exact Hw].
    apply bounded_priorities_fit. intros a Ha.
    now apply (analyze_all_priorities rows (2 ^ 1022) Hb).
  - intros self' file Hrun. apply run_clustering_ok in Hrun.
    destruct Hrun as [_ [-> _]].
    cbn [results save_results summary clusters total_faqs self_clusters].
    split; [rewrite cluster_counts_total; apply len_analyze_all|].
    split.
    + intros faq Hraise cluster a Hc Ha. apply (Hdrop faq Hraise a).
      eapply in_cluster_faqs; eauto.
    + intros a Ha. now apply in_some_cluster.
Qed.

Lemma failed_analysis_drops_faq_witness :
  exists (self' : FAQClusterer) (file : SavedFile),
    @run_clustering Samples.flaky_analyzer Samples.disk init
      (Ok (Samples.rows ++ [Samples.row_without_answer])) Samples.clock
    = Ok (self', file) /\
    total_faqs (summary (results file)) = 2 /\
    @analyze_faq_content Samples.flaky_analyzer (Samples.row 2 "broken" "A" 1)
    = (None, [ExtractEntities "broken See the manual."]) /\
    @analyze_faq_content Samples.flaky_analyzer Samples.row_without_answer
    = (None, []).
Proof.
  destruct (failed_analysis_drops_faq Samples.flaky_analyzer Samples.disk init
              (Samples.rows ++ [Samples.row_without_answer]) Samples.clock)
    as [Hcalls [_ [Hdrop [_ [_ [_ [Hreturns Hrun]]]]]]].
  destruct Hreturns as [self' [file E]].
  { intros row Hin.
    repeat (destruct Hin as [<-|Hin]; [reflexivity|]). destruct Hin. }
  { intros file. reflexivity. }
  exists self', file. split; [exact E|].
  destruct (Hrun self' file E) as [Htotal _].
  split; [rewrite Htotal; vm_compute; reflexivity|].
  split.
  - rewrite (surjective_pairing
               (@analyze_faq_content Samples.flaky_analyzer
                  (Samples.row 2 "broken" "A" 1))).
    rewrite Hcalls.
    destruct (Hdrop (Samples.row 2 "broken" "A" 1)) as [-> _];
      [|reflexivity].
    right. exists "broken See the manual."%string.
    split; [reflexivity|]. left. exact I.
  - rewrite (surjective_pairing
               (@analyze_faq_content Samples.flaky_analyzer
                  Samples.row_without_answer)).
    rewrite Hcalls.
    destruct (Hdrop Samples.row_without_answer) as [-> _]; [|reflexivity].
    left. exact I.
Defined.

(** With the wrappers the script imports, every loaded FAQ whose text
    columns are filled is counted. *)
Lemma openai_run_counts_every_row
    (gw : Gateway) (disk : Disk) (self self' : FAQClusterer)
    (rows : list FAQ.t) (clock : Clock) (file : SavedFile) :
  (forall row, In row rows -> exists text, faq_text row = Ok text) ->
  @run_clustering (openai_analyzer gw) disk self (Ok rows) clock
  = Ok (self', file) ->
  total_faqs (summary (results file)) = len rows.
Proof.
  intros Htext H. apply run_clustering_ok in H. destruct H as [_ [-> _]].
  cbn [results save_results summary total_faqs self_clusters].
  rewrite cluster_counts_total, len_analyze_all. f_equal.
  induction rows as [|faq rows IH]; simpl; [reflexivity|].
  destruct (Htext faq (in_eq _ _)) as [text Et].
  rewrite (openai_analyzer_keeps_all gw faq text Et), IH;
    [reflexivity | intros row Hr; apply Htext; now right].
Qed.

(** A failure to load the rows aborts the run: no report is written. *)
Lemma run_clustering_load_failure
    (an : Analyzer) (disk : Disk) (self : FAQClusterer) (clock : Clock)
    (e : exn) :
  run_clustering self (Raise e) clock = Raise e.
Proof. reflexivity. Qed.

(** So does a report that cannot be written. *)
Example run_clustering_full_disk :
  @run_clustering Samples.flaky_analyzer Samples.full_disk init
    (Ok Samples.rows) Samples.clock
  = Raise "No space left on device".
Proof. vm_compute. reflexivity. Qed.

End ClusteringTheorems.

(** ** The chat assistant, continued *)

Module AssistantExtras.
Import OpenAI OpenAIMore AssistantTheorems.

Lemma exchange_length (turns : list (string * string)) :
  List.length (flat_map exchange turns) = (2 * List.length turns)%nat.
Proof.
  induction turns as [|t turns IH]; simpl; [reflexivity|]. rewrite IH. lia.
Qed.

Lemma skipn_exchanges (k : nat) (turns : list (string * string)) :
  skipn (2 * k) (flat_map exchange turns) = flat_map exchange (skipn k turns).
Proof.
  revert turns. induction k as [|k IH]; intros turns; [reflexivity|].
  destruct turns as [|t turns]; [reflexivity|].
  replace (2 * S k)%nat with (S (S (2 * k))) by lia. simpl. apply IH.
Qed.

Lemma last_n_exchanges (turns : list (string * string)) :
  last_n 10 (flat_map exchange turns) = flat_map exchange (last_n 5 turns).
Proof.
  unfold last_n. rewrite exchange_length.
  replace (2 * List.length turns - 10)%nat
    with (2 * (List.length turns - 5))%nat by lia.
  apply skipn_exchanges.
Qed.

Section WithGateway.
Context {gw : Gateway}.

Lemma context_messages_length (user_context : option json)
    (ctx : list message) :
  context_messages user_context = Ok ctx ->
  List.length ctx
  = match user_context with
    | Some c => if truthy c then 1%nat else 0%nat
    | None => 0%nat
    end.
Proof.
  unfold context_messages. destruct user_context as [c|].
  - destruct (truthy c).
    + destruct (json_dumps c); simpl; intros H; inversion H; reflexivity.
    + intros H; inversion H; reflexivity.
  - intros H; inversion H; reflexivity.
Qed.

(** What the calls of [get_responses] add to the history: the
    exchanges of the answered calls. *)
Lemma get_responses_answered (calls : list (string * option json)) :
  forall self : ElderTechAssistant,
    conversation_history (snd (get_responses self calls))
    = conversation_history self ++ flat_map exchange (answered self calls) /\
    system_prompt (snd (get_responses self calls)) = system_prompt self.
Proof.
  induction calls as [|[user_message user_context] calls IH]; intros self.
  - simpl. now rewrite app_nil_r.
  - cbn [get_responses answered].
    destruct (complete self user_message user_context) as [ai|e] eqn:E.
    + rewrite (get_response_ok _ _ _ _ E).
      destruct (IH (with_history self
                      (conversation_history self
                         ++ [Message "user" user_message;
                             Message "assistant" ai])))
        as [Hh Hp].
      change (exchange (user_message, ai))
        with [Message "user" user_message; Message "assistant" ai].
      destruct (get_responses _ calls) as [replies self''].
      cbn [snd] in *. rewrite Hh, Hp.
      cbn [conversation_history with_history system_prompt flat_map].
      change (exchange (user_message, ai))
        with [Message "user" user_message; Message "assistant" ai].
      now rewrite <- app_assoc.
    + rewrite (get_response_raise _ _ _ _ E).
      destruct (IH self) as [Hh Hp].
      destruct (get_responses self calls) as [replies self''].
      cbn [snd] in *. auto.
Qed.

Lemma answered_length (calls : list (string * option json)) :
  forall self : ElderTechAssistant,
    (List.length (answered self calls) <= List.length calls)%nat.
Proof.
  induction calls as [|[user_message user_context] calls IH]; intros self;
    cbn [answered List.length]; [lia|].
  destruct (complete self user_message user_context) as [ai|e].
  - cbn [List.length]. specialize (IH (with_history self
      (conversation_history self ++ exchange (user_message, ai)))). lia.
  - specialize (IH self). lia.
Qed.

Lemma answered_all (calls : list (string * option json)) :
  (forall s m c, exists reply, complete s m c = Ok reply) ->
  forall self : ElderTechAssistant,
    map fst (answered self calls) = map fst calls /\
    map snd (answered self calls) = fst (get_responses self calls).
Proof.
  intros Hup.
  induction calls as [|[user_message user_context] calls IH]; intros self;
    [split; reflexivity|].
  cbn [answered get_responses].
  destruct (Hup self user_message user_context) as [reply E].
  rewrite E, (get_response_ok _ _ _ _ E).
  change (exchange (user_message, reply))
    with [Message "user" user_message; Message "assistant" reply].
  destruct (IH (with_history self
                  (conversation_history self
                     ++ [Message "user" user_message;
                         Message "assistant" reply]))) as [H1 H2].
  destruct (get_responses _ calls) as [replies self''].
  cbn [map fst snd] in *. now rewrite H1, H2.
Qed.

Lemma answered_none (calls : list (string * option json)) :
  (forall s m c, raises (complete s m c)) ->
  forall self : ElderTechAssistant,
    answered self calls = [] /\ snd (get_responses self calls) = self.
Proof.
  intros Hdown.
  induction calls as [|[user_message user_context] calls IH]; intros self;
    [split; reflexivity|].
  cbn [answered get_responses].
  pose proof (Hdown self user_message user_context) as Hr.
  destruct (complete self user_message user_context) as [reply|e] eqn:E;
    [destruct Hr|].
  rewrite (get_response_raise _ _ _ _ E).
  destruct (IH self) as [H1 H2].
  destruct (get_responses self calls) as [replies self''].
  cbn [snd] in *. auto.
Qed.

End WithGateway.

(** X1: the message list sent to the completion call holds the system
    prompt first, the new user message last, and between them at most
    ten stored messages and at most one context message: between 2 and
    13 messages, however long the stored history is. *)
Theorem prompt_size_bounded
    (gw : Gateway) (self : ElderTechAssistant)
    (user_message : string) (user_context : option json)
    (messages : list message) :
  build_messages self user_message user_context = Ok messages ->
  List.length messages
  = (2 + Nat.min 10 (List.length (conversation_history self))
     + match user_context with
       | Some c => if truthy c then 1 else 0
       | None => 0
       end)%nat /\
  (2 <= List.length messages <= 13)%nat /\
  hd_error messages = Some (Message "system" (system_prompt self)) /\
  last messages (Message "" "") = Message "user" user_message.
Proof.
  intros H. rewrite build_messages_eq in H.
  destruct (context_messages user_context) as [ctx|e] eqn:E; simpl in H;
    [|discriminate H].
  injection H as <-.
  pose proof (context_messages_length _ _ E) as Hctx.
  assert (Hlen : List.length
                   (Message "system" (system_prompt self)
                      :: last_n 10 (conversation_history self)
                      ++ ctx ++ [Message "user" user_message])
                 = (2 + Nat.min 10 (List.length (conversation_history self))
                    + List.length ctx)%nat).
  { cbn [List.length]. rewrite !length_app, last_n_length.
    cbn [List.length]. lia. }
  split; [rewrite Hlen, Hctx; reflexivity|].
  split.
  - rewrite Hlen, Hctx.
    destruct user_context as [c|]; [destruct (truthy c)|]; lia.
  - split; [reflexivity|].
    rewrite app_comm_cons, app_assoc. apply last_last.
Qed.

Lemma prompt_size_bounded_witness :
  exists messages,
    build_messages (gw := Samples.echo_gateway) Samples.busy_assistant
      "hello" (Some (JObj [("age"%string, JInt 80)])) = Ok messages /\
    List.length messages = 13%nat.
Proof.
  eexists. split; [reflexivity|].
  destruct (prompt_size_bounded Samples.echo_gateway Samples.busy_assistant
              "hello" (Some (JObj [("age"%string, JInt 80)])) _ eq_refl)
    as [H _].
  rewrite H. reflexivity.
Defined.

(** X2: calls add whole exchanges to the stored history and nothing
    else: after any sequence of calls the history is the one before
    followed by one exchange, the user message and its reply, for each
    call whose completion returned, in order, and by nothing for a call
    whose completion raised. A call whose completion returns adds its
    exchange and answers with the reply; one whose completion raises
    adds nothing and answers with the apology. A history made of whole
    exchanges therefore stays so, and the ten-message window of the
    next prompt holds its last five exchanges, never half of one. *)
Theorem history_keeps_whole_exchanges
    (gw : Gateway) (self : ElderTechAssistant)
    (calls : list (string * option json)) :
  let self' := snd (get_responses self calls) in
  conversation_history self'
  = conversation_history self ++ flat_map exchange (answered self calls) /\
  (forall user_message user_context rest reply,
      calls = (user_message, user_context) :: rest ->
      complete self user_message user_context = Ok reply ->
      let stored :=
        with_history self
          (conversation_history self
             ++ [Message "user" user_message; Message "assistant" reply]) in
      answered self calls = (user_message, reply) :: answered stored rest /\
      get_responses self calls
      = (reply :: fst (get_responses stored rest),
         snd (get_responses stored rest))) /\
  (forall user_message user_context rest e,
      calls = (user_message, user_context) :: rest ->
      complete self user_message user_context = Raise e ->
      answered self calls = answered self rest /\
      get_responses self calls
      = (apology e :: fst (get_responses self rest),
         snd (get_responses self rest))) /\
  (List.length (answered self calls) <= List.length calls)%nat /\
  ((forall s m c, exists reply, complete s m c = Ok reply) ->
   map fst (answered self calls) = map fst calls /\
   map snd (answered self calls) = fst (get_responses self calls)) /\
  ((forall s m c, raises (complete s m c)) ->
   answered self calls = [] /\ self' = self) /\
  (forall old : list (string * string),
      conversation_history self = flat_map exchange old ->
      conversation_history self'
      = flat_map exchange (old ++ answered self calls) /\
      last_n 10 (conversation_history self')
      = flat_map exchange (last_n 5 (old ++ answered self calls))).
Proof.
  intros self'.
  destruct (get_responses_answered calls self) as [Hh _]. fold self' in Hh.
  split; [exact Hh|].
  split; [|split; [|split; [|split; [|split]]]].
  - intros user_message user_context rest reply -> E stored.
    cbn [answered get_responses].
    rewrite E, (get_response_ok _ _ _ _ E). fold stored.
    split; [reflexivity|].
    destruct (get_responses stored rest). reflexivity.
  - intros user_message user_context rest e -> E.
    cbn [answered get_responses].
    rewrite E, (get_response_raise _ _ _ _ E).
    split; [reflexivity|].
    destruct (get_responses self rest). reflexivity.
  - apply answered_length.
  - intros Hup. now apply answered_all.
  - intros Hdown. now apply answered_none.
  - intros old Hold.
    assert (Hall : conversation_history self'
                   = flat_map exchange (old ++ answered self calls)).
    { rewrite Hh, Hold. symmetry. apply flat_map_app. }
    split; [exact Hall|]. rewrite Hall. apply last_n_exchanges.
Qed.

Lemma history_keeps_whole_exchanges_witness :
  conversation_history
    (snd (get_responses (gw := Samples.echo_gateway) init
            [("one"%string, None); ("two"%string, None)]))
  = [Message "user" "one"; Message "assistant" "ok";
     Message "user" "two"; Message "assistant" "ok"] /\
  snd (get_responses (gw := Samples.down_gateway) init
         [("one"%string, None); ("two"%string, None)])
  = init.
Proof.
  split.
  - destruct (history_keeps_whole_exchanges Samples.echo_gateway init
                [("one"%string, None); ("two"%string, None)])
      as [H _].
    rewrite H. reflexivity.
  - destruct (history_keeps_whole_exchanges Samples.down_gateway init
                [("one"%string, None); ("two"%string, None)])
      as [_ [_ [_ [_ [_ [H _]]]]]].
    apply H. intros s m c. unfold complete.
    destruct (build_messages s m c); exact I.
Defined.

(** X3: every exception inside [generate_health_reminder],
    [analyze_sentiment] and [extract_entities] is swallowed, so none of
    the three raises. The two analyses return the decoded JSON of the
    completion when the completion and the decoding succeed, and their
    fallback when either raises: the empty list, and the neutral
    sentiment that carries the error text. The reminder is the
    completion's text when the context can be encoded and the
    completion returns, and the fixed sentence otherwise. A caller
    cannot tell an outage from an empty or neutral answer except by the
    error member of the sentiment. *)
Theorem gateway_wrappers_fall_back (gw : Gateway) (text : string) (ctx : json) :
  let entities_request :=
    chat_create OPENAI_MODEL
      [Message "system" "Extract named entities (people, places, dates, medical terms) from the text. Return as JSON array of objects with 'entity', 'type', and 'confidence'.";
       Message "user" text] 200 f0_1 in
  let sentiment_request :=
    chat_create OPENAI_MODEL
      [Message "system" "Analyze the sentiment of the following text. Return only a JSON object with 'sentiment' (positive/negative/neutral) and 'confidence' (0-1).";
       Message "user" text] 100 f0_1 in
  let reminder_request (dumped : string) :=
    chat_create OPENAI_MODEL
      [Message "system" "Generate a gentle, personalized health reminder based on the user context. Keep it brief and encouraging.";
       Message "user" ("User context: " ++ dumped)%string] 150 f0_7 in
  let neutral (e : exn) :=
    JObj [("sentiment"%string, JStr "neutral");
          ("confidence"%string, JFloat f0_5);
          ("error"%string, JStr e)] in
  ((forall reply v,
       entities_request = Ok reply -> json_loads reply = Ok v ->
       extract_entities text = Ok v) /\
   (forall reply,
       entities_request = Ok reply -> raises (json_loads reply) ->
       extract_entities text = Ok (JArr [])) /\
   (raises entities_request -> extract_entities text = Ok (JArr []))) /\
  ((forall reply v,
       sentiment_request = Ok reply -> json_loads reply = Ok v ->
       analyze_sentiment text = Ok v) /\
   (forall reply e,
       sentiment_request = Ok reply -> json_loads reply = Raise e ->
       analyze_sentiment text = Ok (neutral e)) /\
   (forall e,
       sentiment_request = Raise e ->
       analyze_sentiment text = Ok (neutral e))) /\
  ((forall dumped reminder,
       json_dumps ctx = Ok dumped -> reminder_request dumped = Ok reminder ->
       generate_health_reminder ctx = reminder) /\
   (forall dumped,
       json_dumps ctx = Ok dumped -> raises (reminder_request dumped) ->
       generate_health_reminder ctx
       = "Remember to take care of yourself today!"%string) /\
   (raises (json_dumps ctx) ->
    generate_health_reminder ctx
    = "Remember to take care of yourself today!"%string)).
Proof.
  cbn zeta. split; [|split].
  - unfold extract_entities. split; [|split].
    + intros reply v -> E. cbn [Py.bind]. now rewrite E.
    + intros reply -> H. cbn [Py.bind].
      destruct (json_loads reply); [destruct H | reflexivity].
    + intros H.
      destruct (chat_create OPENAI_MODEL _ 200 f0_1);
        [destruct H | reflexivity].
  - unfold analyze_sentiment. split; [|split].
    + intros reply v -> E. cbn [Py.bind]. now rewrite E.
    + intros reply e -> E. cbn [Py.bind]. now rewrite E.
    + intros e ->. reflexivity.
  - unfold generate_health_reminder. split; [|split].
    + intros dumped reminder -> E. cbn [Py.bind]. now rewrite E.
    + intros dumped -> H. cbn [Py.bind].
      destruct (chat_create OPENAI_MODEL _ 150 f0_7);
        [destruct H | reflexivity].
    + intros H. destruct (json_dumps ctx); [destruct H | reflexivity].
Qed.

Lemma gateway_wrappers_fall_back_witness :
  (extract_entities (gw := Samples.echo_gateway) "I fell" = Ok JNull /\
   generate_health_reminder (gw := Samples.echo_gateway) JNull = "ok"%string) /\
  (extract_entities (gw := Samples.down_gateway) "I fell" = Ok (JArr []) /\
   analyze_sentiment (gw := Samples.down_gateway) "I fell"
   = Ok (JObj [("sentiment"%string, JStr "neutral");
               ("confidence"%string, JFloat f0_5);
               ("error"%string, JStr "connection refused")]) /\
   generate_health_reminder (gw := Samples.down_gateway) JNull
   = "Remember to take care of yourself today!"%string).
Proof.
  split.
  - destruct (gateway_wrappers_fall_back Samples.echo_gateway "I fell" JNull)
      as [[H1 _] [_ [H3 _]]].
    split.
    + apply (H1 "ok"%string); reflexivity.
    + apply (H3 "{}"%string); reflexivity.
  - destruct (gateway_wrappers_fall_back Samples.down_gateway "I fell" JNull)
      as [[_ [_ H1]] [[_ [_ H2]] [_ [H3 _]]]].
    split; [apply H1; exact I|].
    split; [apply H2; reflexivity|].
    apply (H3 "{}"%string); [reflexivity | exact I].
Defined.

End AssistantExtras.

(** ** The chat endpoint *)

Module ChatExtras.
Import OpenAI OpenAIMore Chat AssistantTheorems.

(** X4: [send_message] always answers with a response body, never with
    an HTTP error: when the completion fails the body carries the
    apology sentence and the shared history is left as it was. The
    response is always typed "text", whatever type the request had. *)
Theorem send_message_always_responds
    (gw : Gateway) (assistant : ElderTechAssistant)
    (message : ChatMessage.t) (now : string) :
  exists (response : ChatResponse.t) (assistant' : ElderTechAssistant),
    send_message assistant message now = (Respond response, assistant') /\
    ChatResponse.message_type response = "text"%string /\
    ChatResponse.is_user response = false /\
    (forall e,
        complete assistant (ChatMessage.content message) None = Raise e ->
        ChatResponse.content response = apology e /\
        assistant' = assistant) /\
    (forall ai,
        complete assistant (ChatMessage.content message) None = Ok ai ->
        ChatResponse.content response = ai /\
        conversation_history assistant'
        = conversation_history assistant
            ++ [Message "user" (ChatMessage.content message);
                Message "assistant" ai]).
Proof.
  unfold send_message, get_ai_response.
  destruct (complete assistant (ChatMessage.content message) None)
    as [ai|e] eqn:E.
  - rewrite (get_response_ok _ _ _ _ E).
    eexists. eexists. split; [reflexivity|].
    split; [reflexivity|]. split; [reflexivity|]. split.
    + intros e' He. discriminate He.
    + intros ai' Hai. inversion Hai; subst. split; reflexivity.
  - rewrite (get_response_raise _ _ _ _ E).
    eexists. eexists. split; [reflexivity|].
    split; [reflexivity|]. split; [reflexivity|]. split.
    + intros e' He. inversion He; subst. split; reflexivity.
    + intros ai' Hai. discriminate Hai.
Qed.

Lemma send_message_always_responds_witness :
  exists response,
    send_message (gw := Samples.down_gateway) init
      {| ChatMessage.content := "hello"; ChatMessage.message_type := "voice" |}
      "2024-01-01T10:00:00"
    = (Respond response, init) /\
    ChatResponse.content response = apology "connection refused".
Proof.
  destruct (send_message_always_responds Samples.down_gateway init
              {| ChatMessage.content := "hello";
                 ChatMessage.message_type := "voice" |}
              "2024-01-01T10:00:00")
    as [response [assistant' [Hsend [_ [_ [Hfail _]]]]]].
  destruct (Hfail "connection refused"%string eq_refl) as [Hc Ha].
  exists response. rewrite Hsend, Ha. split; [reflexivity | exact Hc].
Defined.

Lemma last_n_app_short {A} (n : nat) (older newer : list A) :
  last_n (n + List.length newer) (older ++ newer) = last_n n older ++ newer.
Proof.
  unfold last_n. rewrite length_app, skipn_app.
  replace (List.length older + List.length newer - (n + List.length newer))%nat
    with (List.length older - n)%nat by lia.
  replace (List.length older - n - List.length older)%nat with 0%nat by lia.
  reflexivity.
Qed.

(** X5: the history is shared by all callers of the endpoint: after one
    caller's message has been answered, the prompt built for the next
    message, whoever sends it and whatever the history was before,
    ends with the first caller's message, its reply and the new
    message, after the system prompt and the last eight messages of the
    earlier history. *)
Theorem send_message_shares_history
    (gw : Gateway) (assistant : ElderTechAssistant)
    (first second : ChatMessage.t) (now : string) (reply : string) :
  complete assistant (ChatMessage.content first) None = Ok reply ->
  build_messages (snd (send_message assistant first now))
    (ChatMessage.content second) None
  = Ok (Message "system" (system_prompt assistant)
          :: last_n 8 (conversation_history assistant)
          ++ [Message "user" (ChatMessage.content first);
              Message "assistant" reply;
              Message "user" (ChatMessage.content second)]) /\
  conversation_history (snd (send_message assistant first now))
  = conversation_history assistant
      ++ [Message "user" (ChatMessage.content first);
          Message "assistant" reply].
Proof.
  intros Hok. unfold send_message, get_ai_response.
  rewrite (get_response_ok _ _ _ _ Hok). cbn [snd].
  split; [|reflexivity].
  rewrite build_messages_eq. cbn [context_messages Py.bind].
  cbn [with_history conversation_history system_prompt].
  change 10%nat
    with (8 + List.length [Message "user" (ChatMessage.content first);
                           Message "assistant" reply])%nat.
  rewrite last_n_app_short, <- app_assoc. reflexivity.
Qed.

Lemma send_message_shares_history_witness :
  build_messages (gw := Samples.echo_gateway)
    (snd (send_message (gw := Samples.echo_gateway) Samples.busy_assistant
            {| ChatMessage.content := "my pin is 1234";
               ChatMessage.message_type := "text" |} "10:00"))
    "what did the last person say?" None
  = Ok (Message "system" SYSTEM_PROMPT
          :: map Samples.turn [5; 6; 7; 8; 9; 10; 11; 12]
          ++ [Message "user" "my pin is 1234";
              Message "assistant" "ok";
              Message "user" "what did the last person say?"]).
Proof.
  destruct (send_message_shares_history Samples.echo_gateway
              Samples.busy_assistant
              {| ChatMessage.content := "my pin is 1234";
                 ChatMessage.message_type := "text" |}
              {| ChatMessage.content := "what did the last person say?";
                 ChatMessage.message_type := "text" |}
              "10:00" "ok" eq_refl) as [H _].
  exact H.
Defined.

End ChatExtras.

(** ** Speech synthesis parameters, continued *)

Module TtsExtras.
Import Tts TtsTheorems.

(** X6: the parameters handed to synthesis are always acceptable ones:
    the voice is one of the six valid voices, and the speed lies
    between 0.25 and 4.0 unless the requested speed is not a number, in
    which case it is passed on as it is. Validating validated
    parameters changes nothing. *)
Theorem effective_params_valid (voice : string) (speed : float) :
  let voice' := fst (validate_params voice speed) in
  let speed' := snd (validate_params voice speed) in
  In voice' valid_voices /\
  (speed <> S754_nan -> in_range speed' = true) /\
  (speed = S754_nan -> speed' = S754_nan) /\
  validate_params voice' speed' = (voice', speed').
Proof.
  unfold validate_params. cbn [fst snd].
  set (v' := if negb (voice_in voice valid_voices)
             then "alloy"%string else voice).
  set (s' := if flt speed f0_25 || fgt speed f4_0 then f1_0 else speed).
  assert (Hv : voice_in v' valid_voices = true).
  { unfold v'. destruct (voice_in voice valid_voices) eqn:E; [exact E|].
    reflexivity. }
  assert (Hs : flt s' f0_25 || fgt s' f4_0 = false).
  { unfold s'. destruct (flt speed f0_25 || fgt speed f4_0) eqn:E;
      [reflexivity | exact E]. }
  split; [now apply voice_in_iff|].
  split; [|split].
  - intros Hn. unfold s'.
    destruct (flt speed f0_25 || fgt speed f4_0) eqn:E; [reflexivity|].
    rewrite (in_range_iff speed Hn), E. reflexivity.
  - intros ->. reflexivity.
  - now rewrite Hv, Hs.
Qed.

Lemma effective_params_valid_witness :
  in_range (snd (validate_params "robot" (float_of_int 9))) = true.
Proof.
  destruct (effective_params_valid "robot" (float_of_int 9)) as [_ [H _]].
  apply H. discriminate.
Defined.

(** X7: the two voice catalogues and the validation list agree: the
    service's and the route's catalogue list exactly the six valid
    voices, in the same order, so every advertised voice is used as
    requested and every other voice name is replaced by alloy. *)
Theorem voice_catalogues_match_validation :
  map Voices.id Voices.get_available_voices = valid_voices /\
  map Voices.id Voices.route_voices = valid_voices /\
  (forall (v : Voices.voice) (speed : float),
      In v Voices.get_available_voices \/ In v Voices.route_voices ->
      fst (validate_params (Voices.id v) speed) = Voices.id v) /\
  (forall (voice : string) (speed : float),
      ~ In voice (map Voices.id Voices.get_available_voices) ->
      fst (validate_params voice speed) = "alloy"%string).
Proof.
  split; [reflexivity|]. split; [reflexivity|]. split.
  - intros v speed H. unfold validate_params. cbn [fst].
    assert (Hin : In (Voices.id v) valid_voices).
    { destruct H as [H|H].
      - change valid_voices with (map Voices.id Voices.get_available_voices).
        now apply in_map.
      - change valid_voices with (map Voices.id Voices.route_voices).
        now apply in_map. }
    apply voice_in_iff in Hin. now rewrite Hin.
  - intros voice speed H. unfold validate_params. cbn [fst].
    destruct (voice_in voice valid_voices) eqn:E; [|reflexivity].
    apply voice_in_iff in E. contradiction.
Qed.

Lemma voice_catalogues_match_validation_witness :
  fst (validate_params "Nova" f1_0) = "alloy"%string.
Proof.
  destruct voice_catalogues_match_validation as [_ [_ [_ H]]].
  apply H. vm_compute. intuition discriminate.
Defined.

End TtsExtras.

(** ** The batch job, continued *)

Module ClusteringExtras.
Import Clustering ClusterFacts GapFacts RunFacts.

Lemma in_category_cons (k : string) (a : Analysis.t) (l : list Analysis.t) :
  in_category k (a :: l)
  = if (Analysis.category a =? k)%string
    then a :: in_category k l else in_category k l.
Proof. reflexivity. Qed.

Lemma flat_map_in_category_skip (a : Analysis.t) (l : list Analysis.t)
    (keys : list string) :
  ~ In (Analysis.category a) keys ->
  flat_map (fun k => in_category k (a :: l)) keys
  = flat_map (fun k => in_category k l) keys.
Proof.
  intros H. rewrite !flat_map_concat_map. f_equal.
  apply map_ext_in. intros k Hk. rewrite in_category_cons.
  destruct (String.eqb_spec (Analysis.category a) k) as [E|_];
    [subst; contradiction | reflexivity].
Qed.

(** Over a duplicate-free key list covering every category, the groups
    taken together are a rearrangement of the analyses. *)
Lemma groups_partition (keys : list string) (l : list Analysis.t) :
  NoDup keys ->
  (forall a, In a l -> In (Analysis.category a) keys) ->
  Permutation (flat_map (fun k => in_category k l) keys) l.
Proof.
  intros ND. induction l as [|a l IH]; intros Hcov.
  - clear. induction keys as [|k keys IHk]; [constructor | exact IHk].
  - assert (Hin : In (Analysis.category a) keys) by (apply Hcov; now left).
    apply in_split in Hin. destruct Hin as [k1 [k2 Ek]].
    assert (IH' : Permutation (flat_map (fun k => in_category k l) keys) l)
      by (apply IH; intros b Hb; apply Hcov; now right).
    rewrite Ek in ND, IH' |- *.
    apply NoDup_remove_2 in ND.
    rewrite flat_map_app in IH' |- *. cbn [flat_map] in IH' |- *.
    rewrite !flat_map_in_category_skip
      by (intros H; apply ND, in_or_app; tauto).
    rewrite in_category_cons, String.eqb_refl.
    cbn [app]. apply Permutation_sym.
    eapply Permutation_trans;
      [apply perm_skip, Permutation_sym, IH' | apply Permutation_middle].
Qed.

Lemma distinct_length (l : list string) :
  (List.length (distinct l) <= List.length l)%nat.
Proof.
  induction l as [|c l IH]; simpl; [lia|].
  pose proof (filter_length_le (fun x => negb (x =? c)%string) (distinct l)).
  lia.
Qed.

Lemma filter_exclusive_length {A} (p q : A -> bool) (l : list A) :
  (forall x, p x = true -> q x = true -> False) ->
  (List.length (filter p l) + List.length (filter q l) <= List.length l)%nat.
Proof.
  intros H. induction l as [|x l IH]; simpl; [lia|].
  destruct (p x) eqn:Ep, (q x) eqn:Eq; simpl; try lia.
  exfalso. eapply H; eauto.
Qed.

Lemma identify_gaps_length (clusters : list Cluster) :
  (List.length (identify_gaps clusters) <= List.length clusters)%nat.
Proof.
  rewrite identify_gaps_eq, length_app, !length_map.
  apply filter_exclusive_length. apply rules_exclusive.
Qed.

(** X8: clustering partitions its input: the FAQ lists of the clusters,
    taken together, are a rearrangement of the analyzed FAQs that were
    passed in, so every analyzed FAQ lies in exactly one cluster, the
    one named by its category. *)
Theorem clusters_partition_faqs
    (analyzed : list (option Analysis.t)) (clusters : list Cluster) :
  create_clusters analyzed = Ok clusters ->
  Permutation (flat_map faqs clusters) (present analyzed) /\
  (forall cluster a,
      In cluster clusters -> In a (faqs cluster) ->
      Analysis.category a = name cluster) /\
  (forall a, In a (present analyzed) ->
      exists cluster, In cluster clusters /\ In a (faqs cluster)).
Proof.
  intros H. apply create_clusters_eq in H. destruct H as [-> _].
  set (l := present analyzed).
  split; [|split].
  - rewrite flat_map_concat_map, map_map. cbn [faqs cluster_of].
    rewrite <- flat_map_concat_map.
    apply groups_partition; [apply distinct_NoDup|].
    intros a Ha. apply distinct_In. now apply in_map.
  - intros cluster a Hc Ha. apply in_map_iff in Hc.
    destruct Hc as [c [<- _]]. cbn [faqs name cluster_of] in *.
    unfold in_category in Ha. apply filter_In in Ha.
    destruct Ha as [_ E]. now apply String.eqb_eq in E.
  - intros a Ha. destruct (in_some_cluster l a Ha) as [cluster [Hc [_ Hin]]].
    now exists cluster.
Qed.

Lemma clusters_partition_faqs_witness :
  Permutation
    (flat_map faqs [Samples.cluster_A; Samples.cluster_B]) Samples.faqs_AAB.
Proof.
  assert (H : create_clusters (map Some Samples.faqs_AAB)
              = Ok [Samples.cluster_A; Samples.cluster_B])
    by (vm_compute; reflexivity).
  destruct (clusters_partition_faqs (map Some Samples.faqs_AAB) _ H)
    as [P _].
  rewrite present_map_Some in P. exact P.
Defined.

(** X9: in every report a run writes, there are at most as many gaps
    as clusters, at most as many clusters as counted FAQs and at most
    as many counted FAQs as loaded rows, and exactly one recommendation
    per gap. *)
Theorem report_counts_ordered
    (an : Analyzer) (disk : Disk) (self self' : FAQClusterer)
    (rows : list FAQ.t) (clock : Clock) (file : SavedFile) :
  run_clustering self (Ok rows) clock = Ok (self', file) ->
  let report := results file in
  total_gaps (summary report) <= total_clusters (summary report) /\
  total_clusters (summary report) <= total_faqs (summary report) /\
  total_faqs (summary report) <= len rows /\
  len (recommendations report) = total_gaps (summary report).
Proof.
  intros H. apply run_clustering_ok in H. destruct H as [_ [-> _]].
  cbn [results save_results summary clusters gaps total_faqs recommendations
       total_clusters total_gaps self_clusters self_gaps].
  rewrite cluster_counts_total, generate_recommendations_eq.
  split; [|split; [|split]].
  - unfold len. apply inj_le, identify_gaps_length.
  - unfold len. rewrite length_map. apply inj_le.
    eapply Nat.le_trans; [apply distinct_length|]. now rewrite length_map.
  - rewrite len_analyze_all. unfold len. apply inj_le, filter_length_le.
  - unfold len. now rewrite length_map.
Qed.

Lemma report_counts_ordered_witness :
  exists (self' : FAQClusterer) (file : SavedFile),
    @run_clustering Samples.flaky_analyzer Samples.disk init
      (Ok Samples.rows) Samples.clock
    = Ok (self', file) /\
    total_gaps (summary (results file))
    <= total_clusters (summary (results file)).
Proof.
  destruct (@run_clustering Samples.flaky_analyzer Samples.disk init
              (Ok Samples.rows) Samples.clock) as [[self' file]|e] eqn:E;
    [|vm_compute in E; discriminate E].
  exists self', file. split; [reflexivity|].
  destruct (report_counts_ordered Samples.flaky_analyzer Samples.disk init
              self' Samples.rows Samples.clock file E) as [H _].
  exact H.
Defined.

(** X10: the gaps of a run only ever concern categories that hold at
    least one analyzed FAQ: a low_coverage gap reports a count of 1 or
    2 and a recommended minimum of 5, a low_priority gap belongs to a
    category of at least 6 FAQs and carries the mean of their
    priorities as the division gave it, and a category without any FAQ
    (an empty entry of the category table, say) is never reported. *)
Theorem gaps_concern_populated_categories
    (an : Analyzer) (disk : Disk) (self self' : FAQClusterer)
    (rows : list FAQ.t) (clock : Clock) (file : SavedFile) (gap : Gap) :
  run_clustering self (Ok rows) clock = Ok (self', file) ->
  In gap (gaps (results file)) ->
  (exists row, In row rows /\ analyzable row = true
               /\ FAQ.category row = gap_category gap) /\
  match gap with
  | LowCoverage category current_count recommended_min _ =>
      1 <= current_count <= 2 /\ recommended_min = 5 /\
      current_count = len (in_category category (analyze_all rows))
  | LowPriority category avg _ =>
      6 <= len (in_category category (analyze_all rows)) /\
      flt avg (float_of_int 2) = true /\
      int_truediv
        (sum (map Analysis.priority
                  (in_category category (analyze_all rows))))
        (len (in_category category (analyze_all rows)))
      = Ok avg
  end.
Proof.
  intros H Hgap. apply run_clustering_ok in H.
  destruct H as [_ [-> [Hfit _]]].
  cbn [results save_results gaps self_gaps] in Hgap.
  apply in_identify_gaps in Hgap. destruct Hgap as [cluster [Hc Hrule]].
  apply in_map_iff in Hc. destruct Hc as [c [<- Hc]].
  apply (proj1 (distinct_In _ _)) in Hc.
  assert (Hrow : exists row, In row rows /\ analyzable row = true
                             /\ FAQ.category row = c).
  { pose proof Hc as Hc'.
    apply in_map_iff in Hc'. destruct Hc' as [a [Ec Ha]].
    apply in_analyze_all in Ha. destruct Ha as [row [Hr Hk]].
    exists row. split; [exact Hr|].
    split; [apply analyzable_iff; eauto|].
    destruct (analyze_faq_content_cases row)
      as [[text [entities [sentiment [_ [_ [_ E]]]]]]|[_ E]]; [|congruence].
    rewrite E in Hk. injection Hk as <-. exact Ec. }
  pose proof (in_category_nonempty _ _ Hc) as Hpos.
  destruct Hrule as [[-> Hlow]|[-> Hlow]].
  - split; [exact Hrow|]. cbn [low_coverage_gap name count cluster_of].
    apply is_low_coverage_iff in Hlow. cbn [count cluster_of] in Hlow.
    repeat split; lia.
  - split; [exact Hrow|]. cbn [low_priority_gap name avg_priority cluster_of].
    apply is_low_priority_iff in Hlow.
    cbn [count avg_priority cluster_of] in Hlow.
    destruct Hlow as [Hf Hcount].
    split; [lia|]. split; [exact Hf|].
    specialize (Hfit c Hc). unfold mean in *.
    replace (len (map Analysis.priority (in_category c (analyze_all rows))))
      with (len (in_category c (analyze_all rows))) in *
      by (unfold len; now rewrite length_map).
    unfold int_truediv.
    destruct (Z.eqb_spec (len (in_category c (analyze_all rows))) 0) as [E|_];
      [lia|].
    now rewrite Hfit.
Qed.

Lemma gaps_concern_populated_categories_witness :
  exists (self' : FAQClusterer) (file : SavedFile) (gap : Gap),
    @run_clustering Samples.flaky_analyzer Samples.disk init
      (Ok Samples.rows) Samples.clock
    = Ok (self', file) /\
    In gap (gaps (results file)) /\
    exists row, In row Samples.rows /\ FAQ.category row = gap_category gap.
Proof.
  destruct (@run_clustering Samples.flaky_analyzer Samples.disk init
              (Ok Samples.rows) Samples.clock) as [[self' file]|e] eqn:E;
    [|vm_compute in E; discriminate E].
  assert (Hg : In (LowCoverage "A" 1 5 "Category 'A' has only 1 FAQs")
                  (gaps (results file))).
  { vm_compute in E. injection E as _ <-. left. reflexivity. }
  exists self', file, (LowCoverage "A" 1 5 "Category 'A' has only 1 FAQs").
  split; [reflexivity|]. split; [exact Hg|].
  destruct (gaps_concern_populated_categories Samples.flaky_analyzer
              Samples.disk init self' Samples.rows Samples.clock file _ E Hg)
    as [[row [Hr [_ Hc]]] _].
  exists row. split; assumption.
Defined.

(** X11: when no FAQ can be analyzed (an empty table, or every analysis
    raising), clustering has nothing to divide and the run gets as far
    as writing a report without clusters, gaps or recommendations and
    with all counts zero. The run returns when that report can be
    written and raises what the writing raises otherwise. *)
Theorem run_without_analyses_writes_empty_report
    (an : Analyzer) (disk : Disk) (self : FAQClusterer) (rows : list FAQ.t)
    (clock : Clock) :
  (forall row, In row rows -> analyzable row = false) ->
  let empty_report :=
    {| output_file :=
         ("clustering_results_" ++ strftime_Ymd_HMS clock ++ ".json")%string;
       results :=
         {| timestamp := isoformat clock;
            clusters := [];
            gaps := [];
            recommendations := [];
            summary :=
              {| total_faqs := 0; total_clusters := 0; total_gaps := 0 |} |} |} in
  analysis_calls rows = flat_map calls_once rows /\
  (write_results empty_report = Ok tt ->
   run_clustering self (Ok rows) clock
   = Ok ({| self_clusters := []; self_gaps := [] |}, empty_report)) /\
  (forall e,
      write_results empty_report = Raise e ->
      run_clustering self (Ok rows) clock = Raise e).
Proof.
  intros Hnone empty_report.
  assert (Hall : analyze_all rows = []).
  { rewrite analyze_all_eq.
    induction rows as [|row rows IH]; [reflexivity|]. simpl.
    rewrite IH by (intros r Hr; apply Hnone; now right).
    unfold kept.
    destruct (fst (analyze_faq_content row)) as [a|] eqn:E; [|reflexivity].
    assert (H : analyzable row = true) by (apply analyzable_iff; eauto).
    rewrite Hnone in H by now left. discriminate H. }
  split; [apply analysis_calls_eq|].
  assert (Hrun : run_clustering self (Ok rows) clock
                 = (_ <- write_results empty_report ;;
                    Ok ({| self_clusters := []; self_gaps := [] |},
                        empty_report))).
  { rewrite run_clustering_eq, Hall. reflexivity. }
  split.
  - intros Hw. now rewrite Hrun, Hw.
  - intros e Hw. now rewrite Hrun, Hw.
Qed.

Lemma run_without_analyses_writes_empty_report_witness :
  (exists self' file,
      @run_clustering Samples.flaky_analyzer Samples.disk init
        (Ok [Samples.row 2 "broken" "A" 1; Samples.row_without_answer])
        Samples.clock = Ok (self', file) /\
      clusters (results file) = []) /\
  @run_clustering Samples.flaky_analyzer Samples.full_disk init
    (Ok [Samples.row 2 "broken" "A" 1; Samples.row_without_answer])
    Samples.clock = Raise "No space left on device".
Proof.
  assert (Hnone : forall row,
             In row [Samples.row 2 "broken" "A" 1; Samples.row_without_answer] ->
             @analyzable Samples.flaky_analyzer row = false).
  { intros row [<-|[<-|[]]]; reflexivity. }
  split.
  - destruct (run_without_analyses_writes_empty_report Samples.flaky_analyzer
                Samples.disk init
                [Samples.row 2 "broken" "A" 1; Samples.row_without_answer]
                Samples.clock Hnone) as [_ [H _]].
    eexists. eexists. split; [apply H; reflexivity | reflexivity].
  - destruct (run_without_analyses_writes_empty_report Samples.flaky_analyzer
                Samples.full_disk init
                [Samples.row 2 "broken" "A" 1; Samples.row_without_answer]
                Samples.clock Hnone) as [_ [_ H]].
    apply H. reflexivity.
Defined.

End ClusteringExtras.

(** ** Transcription *)

Module TranscriptionExtras.
Import Transcription.

Section WithServices.
Context {os : Os} {tr : Transcriber}.

Lemma with_temp_audio_leaks {A} (audio_data : list byte)
    (body : string -> result A) :
  leaks (snd (with_temp_audio audio_data body))
  <-> exists path,
        create_temp ".wav" = Ok path /\
        (raises (write_temp path audio_data) \/ raises (unlink path)).
Proof.
  unfold with_temp_audio, leaks.
  destruct (create_temp ".wav") as [path|e]; cbn [snd].
  - destruct (write_temp path audio_data) as [[]|e1] eqn:Ew; cbn [snd].
    + destruct (unlink path) as [[]|e2] eqn:Eu; cbn [snd]; split.
      * intros [p [[Hc|[Hc|[]]] Hn]]; [|discriminate Hc].
        injection Hc as <-. elim Hn. right. now left.
      * intros [p [Ep [Hw|Hu]]]; injection Ep as <-.
        -- rewrite Ew in Hw. destruct Hw.
        -- rewrite Eu in Hu. destruct Hu.
      * intros _. exists path. split; [reflexivity|].
        right. rewrite Eu. exact I.
      * intros _. exists path. split; [now left|].
        intros [H|[]]. discriminate H.
    + split.
      * intros _. exists path. split; [reflexivity|].
        left. rewrite Ew. exact I.
      * intros _. exists path. split; [now left|].
        intros [H|[]]. discriminate H.
  - split.
    + intros [p [[] _]].
    + intros [p [H _]]. discriminate H.
Qed.

Lemma with_temp_audio_ok {A} (audio_data : list byte)
    (body : string -> result A) (a : A) :
  fst (with_temp_audio audio_data body) = Ok a ->
  exists path file,
    create_temp ".wav" = Ok path /\
    write_temp path audio_data = Ok tt /\
    open_rb path = Ok file /\
    body file = Ok a /\
    unlink path = Ok tt.
Proof.
  unfold with_temp_audio.
  destruct (create_temp ".wav") as [path|e] eqn:Ec; cbn [fst];
    [|discriminate].
  destruct (write_temp path audio_data) as [[]|e1] eqn:Ew; cbn [fst];
    [|discriminate].
  destruct (unlink path) as [[]|e2] eqn:Eu; cbn [fst]; [|discriminate].
  destruct (open_rb path) as [file|e3] eqn:Eo; cbn [Py.bind];
    [|discriminate].
  intros H. exists path, file. repeat (split; [reflexivity || assumption|]).
  assumption.
Qed.

Lemma with_temp_audio_steps {A} (audio_data : list byte)
    (body : string -> result A) (path file : string) (a : A) :
  create_temp ".wav" = Ok path ->
  write_temp path audio_data = Ok tt ->
  open_rb path = Ok file ->
  body file = Ok a ->
  unlink path = Ok tt ->
  fst (with_temp_audio audio_data body) = Ok a.
Proof.
  intros Ec Ew Eo Eb Eu. unfold with_temp_audio.
  rewrite Ec, Ew, Eu. cbn [fst]. rewrite Eo. exact Eb.
Qed.

(** A step after the body is a step after the whole frame. *)
Lemma with_temp_audio_then {A B} (audio_data : list byte)
    (body : string -> result A) (k : A -> result B) :
  fst (with_temp_audio audio_data (fun file => x <- body file ;; k x))
  = (x <- fst (with_temp_audio audio_data body) ;; k x).
Proof.
  unfold with_temp_audio.
  destruct (create_temp ".wav") as [path|e]; [|reflexivity].
  destruct (write_temp path audio_data) as [[]|e]; [|reflexivity].
  destruct (unlink path) as [[]|e]; [|reflexivity].
  cbn [fst]. destruct (open_rb path) as [file|e]; reflexivity.
Qed.

Lemma with_temp_audio_unlink_fails {A} (audio_data : list byte)
    (body : string -> result A) (path : string) :
  create_temp ".wav" = Ok path ->
  raises (unlink path) ->
  raises (fst (with_temp_audio audio_data body)).
Proof.
  intros Ec Hu. unfold with_temp_audio. rewrite Ec.
  destruct (write_temp path audio_data) as [[]|e1]; cbn [fst]; [|exact I].
  destruct (unlink path) as [[]|e2]; cbn [fst]; [destruct Hu | exact I].
Qed.

Lemma speech_to_text_fst (audio_data : list byte)
    (language prompt : option string) :
  fst (speech_to_text audio_data language prompt)
  = match fst (with_temp_audio audio_data
                 (fun file =>
                    atranscribe_text (text_params file language prompt))) with
    | Ok response => response
    | Raise _ => ""%string
    end.
Proof.
  unfold speech_to_text.
  destruct (with_temp_audio audio_data _) as [[r|e] trace]; reflexivity.
Qed.

Lemma speech_to_text_snd (audio_data : list byte)
    (language prompt : option string) :
  snd (speech_to_text audio_data language prompt)
  = snd (with_temp_audio audio_data
           (fun file => atranscribe_text (text_params file language prompt))).
Proof.
  unfold speech_to_text.
  destruct (with_temp_audio audio_data _) as [[r|e] trace]; reflexivity.
Qed.

Lemma batch_from_spec (audio_files : list (list byte)) :
  forall i : Z,
    map entry_text (fst (batch_from i audio_files))
    = map (fun audio => fst (speech_to_text audio None None)) audio_files /\
    map file_index (fst (batch_from i audio_files))
    = map (fun k => i + Z.of_nat k) (seq 0 (List.length audio_files)) /\
    Forall (fun entry => success entry = true /\ entry_error entry = None)
           (fst (batch_from i audio_files)).
Proof.
  induction audio_files as [|audio rest IH]; intros i.
  - simpl. auto.
  - cbn [batch_from].
    destruct (speech_to_text audio None None) as [text trace] eqn:E.
    destruct (IH (i + 1)) as [H1 [H2 H3]].
    destruct (batch_from (i + 1) rest) as [results trace'].
    cbn [fst map] in *. split; [|split].
    + now rewrite H1, E.
    + cbn [List.length seq map file_index].
      rewrite H2, <- seq_shift, map_map.
      f_equal; [simpl; lia|]. apply map_ext. intros k. lia.
    + constructor; [split; reflexivity | exact H3].
Qed.

End WithServices.

(** X12: the temporary file of [speech_to_text],
    [speech_to_text_with_metadata] and [detect_language] is left on
    disk exactly when writing the audio into it raises or when removing
    it raises. A failing transcription call never leaves it behind. *)
Theorem temp_file_left_only_on_file_errors
    (os : Os) (tr : Transcriber) (audio_data : list byte)
    (language prompt : option string) :
  let file_error :=
    exists path,
      create_temp ".wav" = Ok path /\
      (raises (write_temp path audio_data) \/ raises (unlink path)) in
  (leaks (snd (speech_to_text audio_data language prompt)) <-> file_error) /\
  (leaks (snd (speech_to_text_with_metadata audio_data language prompt))
     <-> file_error) /\
  (leaks (snd (detect_language audio_data)) <-> file_error).
Proof.
  cbn zeta. split; [|split].
  - rewrite speech_to_text_snd. apply with_temp_audio_leaks.
  - unfold speech_to_text_with_metadata.
    rewrite <- (with_temp_audio_leaks audio_data
                  (fun file => atranscribe_verbose
                                 (verbose_params file language prompt))).
    destruct (with_temp_audio audio_data _) as [[r|e] trace]; reflexivity.
  - unfold detect_language.
    rewrite <- (with_temp_audio_leaks audio_data
                  (fun file =>
                     response <- atranscribe_verbose
                       {| model := "whisper-1"; file := file;
                          response_format := "verbose_json";
                          language := None; prompt := None |} ;;
                     Ok (v_language response))).
    destruct (with_temp_audio audio_data _) as [[r|e] trace]; reflexivity.
Qed.

Lemma temp_file_left_only_on_file_errors_witness :
  ~ leaks (snd (speech_to_text (os := MoreSamples.working_os)
                  (tr := MoreSamples.down_transcriber)
                  MoreSamples.wav None None)) /\
  leaks (snd (speech_to_text (os := MoreSamples.sticky_os)
                (tr := MoreSamples.hello_transcriber)
                MoreSamples.wav None None)).
Proof.
  split.
  - destruct (temp_file_left_only_on_file_errors MoreSamples.working_os
                MoreSamples.down_transcriber MoreSamples.wav None None)
      as [H _].
    intros L. apply H in L. destruct L as [path [_ [[]|[]]]].
  - destruct (temp_file_left_only_on_file_errors MoreSamples.sticky_os
                MoreSamples.hello_transcriber MoreSamples.wav None None)
      as [H _].
    apply H. exists "/tmp/a.wav"%string. split; [reflexivity|].
    right. exact I.
Defined.

(** X13: [speech_to_text] never raises. A non-empty result is the text
    the transcription call returned, and it is returned only when every
    step succeeded, the removal of the temporary file included: when
    that removal raises, a transcription that had succeeded is thrown
    away and the result is the empty string. The call receives a
    language and a prompt only when they are non-empty. *)
Theorem speech_to_text_needs_every_step
    (os : Os) (tr : Transcriber) (audio_data : list byte)
    (language prompt : option string) :
  (fst (speech_to_text audio_data language prompt) <> ""%string ->
   exists path file,
     create_temp ".wav" = Ok path /\
     write_temp path audio_data = Ok tt /\
     open_rb path = Ok file /\
     atranscribe_text (text_params file language prompt)
     = Ok (fst (speech_to_text audio_data language prompt)) /\
     unlink path = Ok tt) /\
  (forall path,
      create_temp ".wav" = Ok path -> raises (unlink path) ->
      fst (speech_to_text audio_data language prompt) = ""%string) /\
  (forall file,
      Transcription.language (text_params file language prompt)
      = match language with
        | Some l => if (l =? "")%string then None else Some l
        | None => None
        end /\
      Transcription.prompt (text_params file language prompt)
      = match prompt with
        | Some l => if (l =? "")%string then None else Some l
        | None => None
        end).
Proof.
  split; [|split].
  - rewrite speech_to_text_fst.
    destruct (fst (with_temp_audio audio_data _)) as [r|e] eqn:E;
      [|intros H; now elim H].
    intros _. apply with_temp_audio_ok in E.
    destruct E as [path [file E]]. exists path, file. exact E.
  - intros path Ec Hu. rewrite speech_to_text_fst.
    pose proof (with_temp_audio_unlink_fails audio_data
                  (fun file =>
                     atranscribe_text (text_params file language prompt))
                  path Ec Hu) as H.
    destruct (fst (with_temp_audio audio_data _)); [destruct H | reflexivity].
  - intros file. split; reflexivity.
Qed.

Lemma speech_to_text_needs_every_step_witness :
  fst (speech_to_text (os := MoreSamples.working_os)
         (tr := MoreSamples.hello_transcriber) MoreSamples.wav None None)
  = "hello"%string /\
  fst (speech_to_text (os := MoreSamples.sticky_os)
         (tr := MoreSamples.hello_transcriber) MoreSamples.wav None None)
  = ""%string.
Proof.
  split; [reflexivity|].
  destruct (speech_to_text_needs_every_step MoreSamples.sticky_os
              MoreSamples.hello_transcriber MoreSamples.wav None None)
    as [_ [H _]].
  apply (H "/tmp/a.wav"%string); [reflexivity | exact I].
Defined.

(** X14: [batch_transcribe] returns one entry per audio file, in order,
    numbered from 0, whose text is what [speech_to_text] gives for that
    file. Every entry says success and carries no error, also when its
    transcription failed and its text is empty. *)
Theorem batch_transcribe_always_reports_success
    (os : Os) (tr : Transcriber) (audio_files : list (list byte)) :
  let results := fst (batch_transcribe audio_files) in
  List.length results = List.length audio_files /\
  map file_index results
  = map Z.of_nat (seq 0 (List.length audio_files)) /\
  map entry_text results
  = map (fun audio => fst (speech_to_text audio None None)) audio_files /\
  Forall (fun entry => success entry = true /\ entry_error entry = None)
         results /\
  ((forall p, raises (atranscribe_text p)) ->
   Forall (fun entry => entry_text entry = ""%string /\ success entry = true)
          results).
Proof.
  cbn zeta. unfold batch_transcribe.
  destruct (batch_from_spec audio_files 0) as [H1 [H2 H3]].
  split; [|split; [|split; [|split]]].
  - rewrite <- (length_map entry_text), H1. apply length_map.
  - rewrite H2. apply map_ext. intros k. lia.
  - exact H1.
  - exact H3.
  - intros Hdown.
    assert (Ht : Forall (fun t => t = ""%string)
                        (map entry_text (fst (batch_from 0 audio_files)))).
    { rewrite H1. apply Forall_forall. intros t Ht.
      apply in_map_iff in Ht. destruct Ht as [audio [<- _]].
      rewrite speech_to_text_fst.
      destruct (fst (with_temp_audio audio _)) as [r|e] eqn:E; [|reflexivity].
      apply with_temp_audio_ok in E.
      destruct E as [path [file [_ [_ [_ [E _]]]]]].
      pose proof (Hdown (text_params file None None)) as Hr.
      rewrite E in Hr. destruct Hr. }
    rewrite Forall_map in Ht.
    rewrite Forall_forall in *. intros entry He.
    split; [now apply Ht | now apply H3].
Qed.

Lemma batch_transcribe_always_reports_success_witness :
  map (fun entry => (file_index entry, entry_text entry, success entry))
      (fst (batch_transcribe (os := MoreSamples.working_os)
              (tr := MoreSamples.down_transcriber)
              [MoreSamples.wav; []]))
  = [(0, ""%string, true); (1, ""%string, true)].
Proof.
  destruct (batch_transcribe_always_reports_success MoreSamples.working_os
              MoreSamples.down_transcriber [MoreSamples.wav; []])
    as [_ [_ [_ [_ H]]]].
  specialize (H (fun _ => I)).
  reflexivity.
Defined.

(** X15: the verbose wrappers fall back silently. When every step
    succeeds (the temporary file is made, written, opened, transcribed
    and removed), [speech_to_text_with_metadata] returns the text,
    language, duration, segments and confidence of the response and no
    error, [transcribe_with_timestamps] returns its segments and
    [detect_language] its language. When a step fails,
    [speech_to_text_with_metadata] returns the empty record with the
    error text, [transcribe_with_timestamps] the empty list and
    [detect_language] "en", so a failure cannot be told from English
    audio. The error is absent exactly when every step succeeded. *)
Theorem verbose_wrappers_fall_back
    (os : Os) (tr : Transcriber) (audio_data : list byte) :
  let md := fst (speech_to_text_with_metadata audio_data None None) in
  let succeeded_with (response : verbose) : Prop :=
    exists path file,
      create_temp ".wav" = Ok path /\
      write_temp path audio_data = Ok tt /\
      open_rb path = Ok file /\
      atranscribe_verbose (verbose_params file None None) = Ok response /\
      unlink path = Ok tt in
  fst (transcribe_with_timestamps audio_data) = segments md /\
  (forall response : verbose,
      succeeded_with response ->
      md = {| text := v_text response;
              md_language := Some (v_language response);
              duration := Some (v_duration response);
              segments := v_segments response;
              confidence := v_confidence response;
              error := None |} /\
      fst (transcribe_with_timestamps audio_data) = v_segments response /\
      fst (detect_language audio_data) = v_language response) /\
  (~ (exists response, succeeded_with response) ->
   (exists e,
       md = {| text := ""; md_language := None; duration := None;
               segments := []; confidence := None; error := Some e |}) /\
   fst (transcribe_with_timestamps audio_data) = [] /\
   fst (detect_language audio_data) = "en"%string) /\
  (error md = None <-> exists response, succeeded_with response) /\
  ((forall p, raises (atranscribe_verbose p)) ->
   fst (transcribe_with_timestamps audio_data) = [] /\
   fst (detect_language audio_data) = "en"%string).
Proof.
  cbn zeta.
  set (frame := with_temp_audio audio_data
                  (fun file =>
                     atranscribe_verbose (verbose_params file None None))).
  assert (Hmd : fst (speech_to_text_with_metadata audio_data None None)
                = match fst frame with
                  | Ok response =>
                      {| text := v_text response;
                         md_language := Some (v_language response);
                         duration := Some (v_duration response);
                         segments := v_segments response;
                         confidence := v_confidence response;
                         error := None |}
                  | Raise e =>
                      {| text := ""; md_language := None; duration := None;
                         segments := []; confidence := None;
                         error := Some e |}
                  end).
  { unfold speech_to_text_with_metadata. fold frame.
    destruct frame as [[r|e] trace]; reflexivity. }
  assert (Hts : fst (transcribe_with_timestamps audio_data)
                = segments (fst (speech_to_text_with_metadata
                                   audio_data None None))).
  { unfold transcribe_with_timestamps.
    destruct (speech_to_text_with_metadata audio_data None None).
    reflexivity. }
  assert (Hdl : fst (detect_language audio_data)
                = match fst frame with
                  | Ok response => v_language response
                  | Raise _ => "en"%string
                  end).
  { unfold detect_language.
    pose proof (with_temp_audio_then audio_data
                  (fun file =>
                     atranscribe_verbose (verbose_params file None None))
                  (fun response => Ok (v_language response))) as Hthen.
    cbn beta in Hthen. fold frame in Hthen.
    change (fun file =>
              response <- atranscribe_verbose
                {| model := "whisper-1"; file := file;
                   response_format := "verbose_json";
                   language := None; prompt := None |} ;;
              Ok (v_language response))
      with (fun file =>
              x <- atranscribe_verbose (verbose_params file None None) ;;
              Ok (v_language x)).
    destruct (with_temp_audio audio_data
                (fun file =>
                   x <- atranscribe_verbose (verbose_params file None None) ;;
                   Ok (v_language x))) as [r trace].
    cbn [fst] in Hthen. rewrite Hthen.
    destruct (fst frame); reflexivity. }
  assert (Hiff : forall response,
             fst frame = Ok response
             <-> exists path file,
                   create_temp ".wav" = Ok path /\
                   write_temp path audio_data = Ok tt /\
                   open_rb path = Ok file /\
                   atranscribe_verbose (verbose_params file None None)
                   = Ok response /\
                   unlink path = Ok tt).
  { intros response. split.
    - intros E. now apply with_temp_audio_ok in E.
    - intros [path [file [H1 [H2 [H3 [H4 H5]]]]]].
      now apply (with_temp_audio_steps audio_data _ path file). }
  split; [exact Hts|].
  split; [|split; [|split]].
  - intros response Hsteps. apply Hiff in Hsteps.
    rewrite Hts, Hdl, Hmd, Hsteps. repeat split.
  - intros Hnone. rewrite Hts, Hdl, Hmd.
    destruct (fst frame) as [response|e].
    + elim Hnone. exists response. exact (proj1 (Hiff response) eq_refl).
    + split; [now exists e|]. split; reflexivity.
  - rewrite Hmd. destruct (fst frame) as [response|e].
    + split; [|reflexivity]. intros _. exists response.
      exact (proj1 (Hiff response) eq_refl).
    + split; [discriminate|]. intros [response H].
      apply Hiff in H. discriminate H.
  - intros Hdown. rewrite Hts, Hdl, Hmd.
    destruct (fst frame) as [response|e]; [|split; reflexivity].
    destruct (proj1 (Hiff response) eq_refl)
      as [path [file [_ [_ [_ [H4 _]]]]]].
    pose proof (Hdown (verbose_params file None None)) as Hr.
    rewrite H4 in Hr. destruct Hr.
Qed.

Lemma verbose_wrappers_fall_back_witness :
  (fst (transcribe_with_timestamps (os := MoreSamples.working_os)
          (tr := MoreSamples.hello_transcriber) MoreSamples.wav)
   = [JStr "hello"] /\
   fst (detect_language (os := MoreSamples.working_os)
          (tr := MoreSamples.hello_transcriber) MoreSamples.wav)
   = "en"%string) /\
  (fst (transcribe_with_timestamps (os := MoreSamples.working_os)
          (tr := MoreSamples.down_transcriber) MoreSamples.wav) = [] /\
   fst (detect_language (os := MoreSamples.working_os)
          (tr := MoreSamples.down_transcriber) MoreSamples.wav) = "en"%string).
Proof.
  split.
  - destruct (verbose_wrappers_fall_back MoreSamples.working_os
                MoreSamples.hello_transcriber MoreSamples.wav)
      as [_ [H _]].
    destruct (H {| v_text := "hello"; v_language := "en"; v_duration := f1_0;
                   v_segments := [JStr "hello"]; v_confidence := None |})
      as [_ [H1 H2]].
    { exists "/tmp/a.wav"%string, "/tmp/a.wav"%string.
      repeat split. }
    exact (conj H1 H2).
  - destruct (verbose_wrappers_fall_back MoreSamples.working_os
                MoreSamples.down_transcriber MoreSamples.wav)
      as [_ [_ [_ [_ H]]]].
    apply H. intros p. exact I.
Defined.

End TranscriptionExtras.

(** ** The speech-to-text endpoint *)

Module WhisperRouteExtras.
Import Transcription WhisperRoutes TranscriptionExtras.



End WhisperRouteExtras.

(** ** Audio files *)

Module SpeechExtras.
Import Tts Speech.

Example int_of_float_truncates :
  map (fun p => int_of_float
                  (fmul (fdiv (float_of_int (fst p)) (float_of_int (snd p)))
                        (float_of_int 100)))
      [(1, 1); (29, 100); (-3, 2); (1, 1000)]
  = [Ok 100; Ok 28; Ok (-150); Ok 0].
Proof. vm_compute. reflexivity. Qed.

(** X17: without a file name, [create_audio_file] names the file after
    the requested voice and a hundred times the requested speed,
    truncated, while the audio in it is synthesized with the validated
    voice and speed: an unknown voice at speed 9 gives a file named
    after that voice and 900 holding alloy at speed 1.0. *)
Theorem audio_file_named_by_request
    (gw : Gateway) (os : Os) (text voice : string) (speed : float)
    (filename : option string) (hundredths : Z) :
  Transcription.optional filename = None ->
  int_of_float (fmul speed (float_of_int 100)) = Ok hundredths ->
  let filepath :=
    ("audio/" ++ ("speech_" ++ voice ++ "_" ++ str_of_int hundredths)
       ++ ".mp3")%string in
  let audio_data :=
    match audio_create "tts-1" (fst (validate_params voice speed)) text
            (snd (validate_params voice speed)) with
    | Ok data => data
    | Raise _ => []
    end in
  makedirs "audio" = Ok tt ->
  open_wb filepath = Ok tt ->
  write_wb filepath audio_data = Ok tt ->
  create_audio_file text voice speed filename
  = (filepath, [MadeDir "audio"; Wrote filepath audio_data]).
Proof.
  intros Hname Hint filepath audio_data Hdir Hopen Hwrite.
  unfold create_audio_file, default_filename.
  rewrite Hname, Hint. cbn [Py.bind]. rewrite Hdir.
  assert (Ha : text_to_speech text voice speed = audio_data).
  { unfold text_to_speech, audio_data.
    destruct (validate_params voice speed) as [v s']. reflexivity. }
  rewrite Ha. fold filepath. rewrite Hopen, Hwrite. reflexivity.
Qed.

Lemma audio_file_named_by_request_witness :
  fst (create_audio_file (gw := Samples.echo_gateway)
         (os := MoreSamples.working_os) "hello" "robot" (float_of_int 9) None)
  = "audio/speech_robot_900.mp3"%string /\
  validate_params "robot" (float_of_int 9) = ("alloy"%string, f1_0).
Proof.
  split; [|reflexivity].
  rewrite (audio_file_named_by_request Samples.echo_gateway
             MoreSamples.working_os "hello" "robot" (float_of_int 9)
             None 900 eq_refl eq_refl eq_refl eq_refl eq_refl).
  reflexivity.
Defined.

(** X18: [create_audio_file] returns either the empty string or a
    path of the form audio/<name>.mp3, and in the latter case the file
    at that path holds exactly what [text_to_speech] returned. The empty
    string does not say that the disk was left alone: the directory may
    have been made, and when the file could be opened and the write
    into it raised, the file has been created or emptied all the same.
    A failed synthesis is not an error for it: it then writes an empty
    file and returns its path. A speed that is not a number, with no
    file name given, makes it return the empty string before it touches
    the disk. *)
Theorem audio_file_written_even_when_empty
    (gw : Gateway) (os : Os) (text voice : string) (speed : float)
    (filename : option string) :
  let outcome := create_audio_file text voice speed filename in
  let audio_data := text_to_speech text voice speed in
  (forall e,
      default_filename voice speed filename = Raise e ->
      outcome = (""%string, [])) /\
  (forall name,
      default_filename voice speed filename = Ok name ->
      let filepath := ("audio/" ++ name ++ ".mp3")%string in
      (raises (makedirs "audio") -> outcome = (""%string, [])) /\
      (makedirs "audio" = Ok tt -> raises (open_wb filepath) ->
       outcome = (""%string, [MadeDir "audio"])) /\
      (makedirs "audio" = Ok tt -> open_wb filepath = Ok tt ->
       raises (write_wb filepath audio_data) ->
       outcome = (""%string, [MadeDir "audio"; Opened filepath])) /\
      (makedirs "audio" = Ok tt -> open_wb filepath = Ok tt ->
       write_wb filepath audio_data = Ok tt ->
       outcome = (filepath, [MadeDir "audio"; Wrote filepath audio_data]))) /\
  (fst outcome = ""%string ->
   forall path data, ~ In (Wrote path data) (snd outcome)) /\
  (fst outcome <> ""%string ->
   exists name,
     fst outcome = ("audio/" ++ name ++ ".mp3")%string /\
     snd outcome = [MadeDir "audio"; Wrote (fst outcome) audio_data]) /\
  (forall name,
      Transcription.optional filename = Some name ->
      (forall model v input s, raises (audio_create model v input s)) ->
      makedirs "audio" = Ok tt ->
      open_wb ("audio/" ++ name ++ ".mp3")%string = Ok tt ->
      write_wb ("audio/" ++ name ++ ".mp3")%string [] = Ok tt ->
      outcome = (("audio/" ++ name ++ ".mp3")%string,
                 [MadeDir "audio"; Wrote ("audio/" ++ name ++ ".mp3")%string []])) /\
  (Transcription.optional filename = None -> speed = S754_nan ->
   outcome = (""%string, [])).
Proof.
  cbn zeta. split; [|split; [|split; [|split; [|split]]]].
  - intros e E. unfold create_audio_file. now rewrite E.
  - intros name E. unfold create_audio_file. rewrite E.
    split; [|split; [|split]].
    + intros H. destruct (makedirs "audio"); [destruct H | reflexivity].
    + intros -> H.
      destruct (open_wb _); [destruct H | reflexivity].
    + intros -> -> H.
      destruct (write_wb _ _); [destruct H | reflexivity].
    + intros -> -> ->. reflexivity.
  - unfold create_audio_file.
    destruct (default_filename voice speed filename) as [name|e];
      [|intros _ path data []].
    destruct (makedirs "audio") as [[]|e]; [|intros _ path data []].
    destruct (open_wb _) as [[]|e].
    + destruct (write_wb _ (text_to_speech text voice speed)) as [[]|e].
      * intros H. discriminate H.
      * intros _ path data Hin. cbn in Hin. intuition discriminate.
    + intros _ path data Hin. cbn in Hin. intuition discriminate.
  - unfold create_audio_file.
    destruct (default_filename voice speed filename) as [name|e];
      [|intros H; now elim H].
    destruct (makedirs "audio") as [[]|e]; [|intros H; now elim H].
    destruct (open_wb _) as [[]|e]; [|intros H; now elim H].
    destruct (write_wb _ (text_to_speech text voice speed)) as [[]|e];
      [|intros H; now elim H].
    intros _. exists name. split; reflexivity.
  - intros name Hname Hdown Hdir Hopen Hwrite.
    assert (Ha : text_to_speech text voice speed = []).
    { unfold text_to_speech.
      destruct (validate_params voice speed) as [v s'].
      pose proof (Hdown "tts-1"%string v text s') as H.
      destruct (audio_create "tts-1" v text s'); [destruct H | reflexivity]. }
    unfold create_audio_file, default_filename.
    rewrite Hname, Ha, Hdir, Hopen, Hwrite. reflexivity.
  - intros Hname ->. unfold create_audio_file, default_filename.
    rewrite Hname. reflexivity.
Qed.

Lemma audio_file_written_even_when_empty_witness :
  create_audio_file (gw := Samples.down_gateway)
    (os := MoreSamples.working_os) "hello" "nova" f1_0 (Some "greeting"%string)
  = ("audio/greeting.mp3"%string,
     [MadeDir "audio"; Wrote "audio/greeting.mp3" []]) /\
  create_audio_file (gw := Samples.echo_gateway)
    (os := MoreSamples.full_os) "hello" "nova" f1_0 (Some "greeting"%string)
  = (""%string, [MadeDir "audio"; Opened "audio/greeting.mp3"]).
Proof.
  split.
  - destruct (audio_file_written_even_when_empty Samples.down_gateway
                MoreSamples.working_os "hello" "nova" f1_0
                (Some "greeting"%string)) as [_ [_ [_ [_ [H _]]]]].
    apply (H "greeting"%string);
      [reflexivity | | reflexivity | reflexivity | reflexivity].
    intros model v input s. exact I.
  - destruct (audio_file_written_even_when_empty Samples.echo_gateway
                MoreSamples.full_os "hello" "nova" f1_0
                (Some "greeting"%string)) as [_ [H _]].
    destruct (H "greeting"%string eq_refl) as [_ [_ [Hwrite _]]].
    apply Hwrite; [reflexivity | reflexivity | exact I].
Defined.

End SpeechExtras.

(** ** Text preparation *)

Module SpeechTextExtras.
Import SpeechText.

Lemma append_nil_r (s : string) : (s ++ "")%string = s.
Proof. induction s as [|c s IH]; simpl; [reflexivity | now rewrite IH]. Qed.

Lemma append_assoc (a b c : string) :
  ((a ++ b) ++ c)%string = (a ++ (b ++ c))%string.
Proof. induction a as [|x a IH]; simpl; [reflexivity | now rewrite IH]. Qed.

Lemma snoc_cons (w : string) (c : ascii) (s : string) :
  ((w ++ String c "") ++ s)%string = (w ++ String c s)%string.
Proof. now rewrite append_assoc. Qed.

Lemma flush_snoc (w : string) (c : ascii) :
  flush (w ++ String c "") = [(w ++ String c "")%string].
Proof. destruct w; reflexivity. Qed.

Lemma mark_not_space (c : ascii) : is_mark c = true -> isspace c = false.
Proof.
  unfold is_mark. rewrite !orb_true_iff.
  intros [[[H|H]|H]|H]; apply Ascii.eqb_eq in H; subst; reflexivity.
Qed.

(** The four [replace] calls amount to one pass. *)
Lemma replace_all (s : string) :
  replace "," ", " (replace "?" "? " (replace "!" "! " (replace "." ". " s)))
  = expand s.
Proof.
  induction s as [|c s IH]; [reflexivity|].
  cbn [replace expand]. unfold is_mark.
  destruct (Ascii.eqb_spec c ".") as [->|N1]; [cbn; now rewrite IH|].
  cbn [replace].
  destruct (Ascii.eqb_spec c "!") as [->|N2]; [cbn; now rewrite IH|].
  cbn [replace].
  destruct (Ascii.eqb_spec c "?") as [->|N3]; [cbn; now rewrite IH|].
  cbn [replace].
  destruct (Ascii.eqb_spec c ",") as [->|N4]; [cbn; now rewrite IH|].
  cbn. now rewrite IH.
Qed.

Lemma split_expand (s : string) :
  forall w, split_from w (expand s) = tokens_from w s.
Proof.
  induction s as [|c s IH]; intros w; [reflexivity|].
  cbn [expand tokens_from].
  destruct (isspace c) eqn:Es.
  - destruct (is_mark c) eqn:Em;
      [apply mark_not_space in Em; congruence|].
    cbn [split_from]. now rewrite Es, IH.
  - destruct (is_mark c) eqn:Em; cbn [split_from]; rewrite Es.
    + change (isspace " ") with true. cbn iota.
      now rewrite flush_snoc, IH.
    + apply IH.
Qed.

Lemma tokens_lstrip (s : string) : tokens (lstrip s) = tokens s.
Proof.
  unfold tokens. induction s as [|c s IH]; [reflexivity|].
  cbn [lstrip tokens_from].
  destruct (isspace c) eqn:E; [exact IH|].
  cbn [tokens_from]. now rewrite E.
Qed.

Lemma tokens_rstrip (s : string) :
  forall w, tokens_from w (rstrip s) = tokens_from w s.
Proof.
  induction s as [|c s IH]; intros w; [reflexivity|].
  cbn [rstrip].
  destruct (rstrip s) as [|d r] eqn:E.
  - destruct (isspace c) eqn:Es.
    + cbn [tokens_from]. rewrite Es, <- IH. cbn. now rewrite app_nil_r.
    + cbn [tokens_from]. rewrite Es.
      destruct (is_mark c); now rewrite <- IH.
  - cbn [tokens_from].
    destruct (isspace c); [now rewrite <- IH|].
    destruct (is_mark c); now rewrite <- IH.
Qed.

Lemma optimize_eq (text : string) :
  optimize_text_for_speech text = String.concat " " (tokens text).
Proof.
  unfold optimize_text_for_speech, split. rewrite replace_all, split_expand.
  unfold strip. fold (tokens (lstrip (rstrip text))).
  rewrite tokens_lstrip. unfold tokens. now rewrite tokens_rstrip.
Qed.

Lemma plain_snoc (w : string) (c : ascii) :
  plain w = true -> plain_char c = true -> plain (w ++ String c "") = true.
Proof.
  induction w as [|x w IH]; simpl; intros Hw Hc.
  - now rewrite Hc.
  - apply andb_true_iff in Hw. destruct Hw as [Hx Hw].
    now rewrite Hx, IH.
Qed.

Lemma word_ok_snoc (w : string) (c : ascii) :
  plain w = true -> isspace c = false -> word_ok (w ++ String c "") = true.
Proof.
  induction w as [|x w IH]; intros Hw Hc.
  - simpl. now rewrite Hc.
  - simpl in Hw. apply andb_true_iff in Hw. destruct Hw as [Hx Hw].
    specialize (IH Hw Hc). cbn [append word_ok].
    destruct (w ++ String c "")%string eqn:E; [discriminate IH|].
    now rewrite Hx, IH.
Qed.

Lemma word_ok_plain (w : string) :
  plain w = true -> w <> ""%string -> word_ok w = true.
Proof.
  induction w as [|x w IH]; intros Hw Hn; [now elim Hn|].
  simpl in Hw. apply andb_true_iff in Hw. destruct Hw as [Hx Hw].
  cbn [word_ok]. destruct w as [|y w].
  - unfold plain_char in Hx. apply andb_true_iff in Hx. tauto.
  - rewrite Hx. apply IH; [exact Hw | discriminate].
Qed.

Lemma flush_ok (w : string) :
  plain w = true -> Forall (fun x => word_ok x = true) (flush w).
Proof.
  intros H. destruct w as [|c w]; [constructor|].
  constructor; [|constructor]. apply word_ok_plain; [exact H | discriminate].
Qed.

Lemma tokens_from_ok (s : string) :
  forall w, plain w = true ->
            Forall (fun x => word_ok x = true) (tokens_from w s).
Proof.
  induction s as [|c s IH]; intros w Hw; cbn [tokens_from].
  - now apply flush_ok.
  - destruct (isspace c) eqn:Es.
    + apply Forall_app. split; [now apply flush_ok | now apply IH].
    + destruct (is_mark c) eqn:Em.
      * constructor; [now apply word_ok_snoc | now apply IH].
      * apply IH. apply plain_snoc; [exact Hw|].
        unfold plain_char. now rewrite Es, Em.
Qed.

Lemma tokens_from_cons (w : string) (c : ascii) (s : string) :
  tokens_from w (String c s)
  = if isspace c then flush w ++ tokens_from "" s
    else if is_mark c
         then (w ++ String c "")%string :: tokens_from "" s
         else tokens_from (w ++ String c "") s.
Proof. reflexivity. Qed.

Lemma tokens_word (w : string) :
  word_ok w = true ->
  forall w0 rest,
    tokens_from w0 (w ++ String " " rest)
    = (w0 ++ w)%string :: tokens_from "" rest /\
    tokens_from w0 w = [(w0 ++ w)%string].
Proof.
  induction w as [|c w IH]; intros Hok w0 rest; [discriminate Hok|].
  cbn [word_ok] in Hok. destruct w as [|d w].
  - apply negb_true_iff in Hok. cbn [append tokens_from]. rewrite Hok.
    change (isspace " ") with true. cbn iota.
    destruct (is_mark c); cbn [app flush].
    + split; reflexivity.
    + rewrite flush_snoc. split; reflexivity.
  - apply andb_true_iff in Hok. destruct Hok as [Hc Hok].
    unfold plain_char in Hc. apply andb_true_iff in Hc.
    destruct Hc as [Hs Hm]. apply negb_true_iff in Hs, Hm.
    destruct (IH Hok (w0 ++ String c "")%string rest) as [H1 H2].
    change ((String c (String d w) ++ String " " rest)%string)
      with (String c (String d w ++ String " " rest)%string).
    rewrite (tokens_from_cons w0 c (String d w ++ String " " rest)),
      (tokens_from_cons w0 c (String d w)).
    rewrite Hs, Hm, H1, H2, snoc_cons.
    split; reflexivity.
Qed.

(** Cutting well-formed words joined by single spaces gives the words
    back. *)
Lemma tokens_concat (ws : list string) :
  Forall (fun x => word_ok x = true) ws ->
  tokens (String.concat " " ws) = ws.
Proof.
  unfold tokens. induction ws as [|w ws IH]; intros H; [reflexivity|].
  inversion H as [|? ? Hw Hws]; subst.
  destruct ws as [|w' ws].
  - cbn [String.concat]. now destruct (tokens_word w Hw "" "") as [_ ->].
  - change (String.concat " " (w :: w' :: ws))
      with (w ++ String " " (String.concat " " (w' :: ws)))%string.
    destruct (tokens_word w Hw "" (String.concat " " (w' :: ws))) as [-> _].
    cbn [append]. now rewrite IH.
Qed.

Lemma word_ok_visible (w : string) : word_ok w = true -> visible w = w.
Proof.
  induction w as [|c w IH]; intros H; [reflexivity|].
  cbn [word_ok] in H. cbn [visible]. destruct w as [|d w].
  - apply negb_true_iff in H. now rewrite H.
  - apply andb_true_iff in H. destruct H as [Hc Hw].
    unfold plain_char in Hc. apply andb_true_iff in Hc.
    destruct Hc as [Hs _]. apply negb_true_iff in Hs.
    now rewrite Hs, IH.
Qed.

Lemma visible_app (a b : string) :
  visible (a ++ b) = (visible a ++ visible b)%string.
Proof.
  induction a as [|c a IH]; [reflexivity|]. cbn [append visible].
  destruct (isspace c); [exact IH | cbn [append]; now rewrite IH].
Qed.

Lemma visible_concat (ws : list string) :
  Forall (fun x => word_ok x = true) ws ->
  visible (String.concat " " ws) = String.concat "" ws.
Proof.
  induction ws as [|w ws IH]; intros H; [reflexivity|].
  inversion H as [|? ? Hw Hws]; subst.
  destruct ws as [|w' ws].
  - cbn [String.concat]. now apply word_ok_visible.
  - change (String.concat " " (w :: w' :: ws))
      with (w ++ String " " (String.concat " " (w' :: ws)))%string.
    change (String.concat "" (w :: w' :: ws))
      with (w ++ ("" ++ String.concat "" (w' :: ws)))%string.
    rewrite visible_app. cbn [visible append].
    change (isspace " ") with true. cbn iota.
    now rewrite word_ok_visible, IH.
Qed.

Lemma concat_flush (w : string) (ws : list string) :
  String.concat "" (flush w ++ ws) = (w ++ String.concat "" ws)%string.
Proof.
  destruct w as [|c w]; [reflexivity|]. cbn [flush app].
  destruct ws as [|w' ws]; cbn [String.concat append].
  - now rewrite append_nil_r.
  - reflexivity.
Qed.

Lemma concat_cons (w : string) (ws : list string) :
  String.concat "" (w :: ws) = (w ++ String.concat "" ws)%string.
Proof.
  destruct ws as [|w' ws]; cbn [String.concat append].
  - now rewrite append_nil_r.
  - reflexivity.
Qed.

Lemma tokens_visible (s : string) :
  forall w, String.concat "" (tokens_from w s) = (w ++ visible s)%string.
Proof.
  induction s as [|c s IH]; intros w; cbn [tokens_from visible].
  - rewrite <- (app_nil_r (flush w)), concat_flush. reflexivity.
  - destruct (isspace c).
    + rewrite concat_flush, IH. reflexivity.
    + destruct (is_mark c).
      * rewrite concat_cons, IH. cbn [append]. apply snoc_cons.
      * rewrite IH. apply snoc_cons.
Qed.

(** X19: [optimize_text_for_speech] returns its words joined by single
    spaces: no whitespace at either end, no whitespace other than one
    space between two words, and each of the marks . ! ? , only as the
    last character of a word, hence followed by a space or by the end
    of the text. A text of whitespace only gives the empty string. *)
Theorem optimized_text_is_spaced_words (text : string) :
  exists words : list string,
    optimize_text_for_speech text = String.concat " " words /\
    Forall (fun w => word_ok w = true) words /\
    words = tokens text /\
    (visible text = ""%string -> optimize_text_for_speech text = ""%string).
Proof.
  exists (tokens text). rewrite optimize_eq.
  split; [reflexivity|].
  split; [now apply tokens_from_ok|]. split; [reflexivity|].
  intros Hv. pose proof (tokens_visible text "") as H.
  rewrite Hv in H. unfold tokens.
  destruct (tokens_from "" text) as [|w ws] eqn:E; [reflexivity|].
  assert (Hok : Forall (fun x => word_ok x = true) (w :: ws))
    by (rewrite <- E; now apply tokens_from_ok).
  inversion Hok as [|? ? Hw _]; subst.
  rewrite concat_cons in H. destruct w; [discriminate Hw | discriminate H].
Qed.

Lemma optimized_text_is_spaced_words_witness :
  optimize_text_for_speech "  Hi,there.How are   you?  "
  = "Hi, there. How are you?"%string /\
  optimize_text_for_speech "   " = ""%string.
Proof.
  split; [reflexivity|].
  destruct (optimized_text_is_spaced_words "   ") as [ws [_ [_ [_ H]]]].
  apply H. reflexivity.
Defined.

(** X20: [optimize_text_for_speech] is idempotent: optimizing a text
    that has been optimized changes nothing, so no pauses pile up when
    it is applied repeatedly. *)
Theorem optimize_is_idempotent (text : string) :
  optimize_text_for_speech (optimize_text_for_speech text)
  = optimize_text_for_speech text.
Proof.
  rewrite (optimize_eq (optimize_text_for_speech text)), (optimize_eq text).
  rewrite tokens_concat; [reflexivity|]. now apply tokens_from_ok.
Qed.

(** X21: [optimize_text_for_speech] only touches whitespace: the
    characters of the result that are not whitespace are those of the
    text, in the same order. *)
Theorem optimize_keeps_visible_characters (text : string) :
  visible (optimize_text_for_speech text) = visible text.
Proof.
  rewrite optimize_eq, visible_concat by now apply tokens_from_ok.
  apply (tokens_visible text "").
Qed.

End SpeechTextExtras.

(** ** Access tokens *)

Module AuthExtras.
Import Auth.

Lemma getitem_setitem_same {V} (k : string) (v : V) (d : Dict.t V) :
  Dict.getitem k (Dict.setitem k v d) = Ok v.
Proof.
  induction d as [|[k' v'] d IH]; simpl.
  - now rewrite String.eqb_refl.
  - destruct (String.eqb_spec k' k) as [->|N]; simpl.
    + now rewrite String.eqb_refl.
    + destruct (String.eqb_spec k' k) as [E|_]; [contradiction | exact IH].
Qed.

Lemma getitem_setitem_other {V} (k k' : string) (v : V) (d : Dict.t V) :
  k' <> k ->
  Dict.contains k' (Dict.setitem k v d) = Dict.contains k' d /\
  (forall x, Dict.getitem k' (Dict.setitem k v d) = Ok x
             <-> Dict.getitem k' d = Ok x).
Proof.
  intros N. induction d as [|[k0 v0] d [IH1 IH2]]; simpl.
  - destruct (String.eqb_spec k k') as [E|_]; [now elim N|].
    split; [reflexivity|]. intros x. reflexivity.
  - destruct (String.eqb_spec k0 k) as [->|N0]; simpl.
    + destruct (String.eqb_spec k k') as [E|_]; [now elim N|].
      split; [reflexivity|]. intros x. reflexivity.
    + destruct (String.eqb_spec k0 k') as [->|_]; simpl.
      * split; [reflexivity|]. intros x. reflexivity.
      * split; [exact IH1 | exact IH2].
Qed.

Lemma datetime_add_cases (now delta : Z) :
  (0 <= now + delta <= datetime_max /\
   datetime_add now delta = Ok (now + delta)) \/
  (~ (0 <= now + delta <= datetime_max) /\
   datetime_add now delta = Raise "date value out of range").
Proof.
  unfold datetime_add. cbn zeta.
  destruct (Z.leb_spec 0 (now + delta)), (Z.leb_spec (now + delta) datetime_max);
    cbn [andb]; [left | right | right | right]; split; try reflexivity; lia.
Qed.

(** X23: as long as the expiry is a time a [datetime] can hold, the
    dict that [create_access_token] encodes holds every claim of the
    caller unchanged, except that "exp" is always set, replacing an
    "exp" the caller supplied. The expiry is the current time plus the
    given lifetime, and the current time plus 15 minutes both when no
    lifetime is given and when the given lifetime is zero, whatever
    [ACCESS_TOKEN_EXPIRE_MINUTES] is. When the expiry is no [datetime],
    before year 1 or after year 9999, the addition raises
    [OverflowError] and nothing is encoded. *)
Theorem access_token_claims_expiry
    (data : Dict.t claim) (expires_delta : option Z) (utcnow : Z) :
  let expire :=
    utcnow + match expires_delta with
             | Some 0 | None => 15 * 60 * 1000000
             | Some delta => delta
             end in
  (0 <= expire <= datetime_max ->
   exists claims : Dict.t claim,
     access_token_claims data expires_delta utcnow = Ok claims /\
     Dict.getitem "exp" claims = Ok (Expiry expire) /\
     (forall key value,
         key <> "exp"%string ->
         (Dict.getitem key claims = Ok value
          <-> Dict.getitem key data = Ok value)) /\
     (forall (jwt : Jwt),
         create_access_token data expires_delta utcnow
         = jwt_encode claims SECRET_KEY "HS256")) /\
  (~ (0 <= expire <= datetime_max) ->
   access_token_claims data expires_delta utcnow
   = Raise "date value out of range" /\
   (forall (jwt : Jwt),
       create_access_token data expires_delta utcnow
       = Raise "date value out of range")).
Proof.
  cbn zeta.
  set (lifetime := match expires_delta with
                   | Some 0 | None => 15 * 60 * 1000000
                   | Some delta => delta
                   end).
  assert (E : access_token_claims data expires_delta utcnow
              = (expire <- datetime_add utcnow lifetime ;;
                 Ok (Dict.setitem "exp" (Expiry expire) data))).
  { unfold access_token_claims, lifetime.
    destruct expires_delta as [[|d|d]|]; reflexivity. }
  split.
  - intros Hin.
    destruct (datetime_add_cases utcnow lifetime) as [[_ Ea]|[Hout _]];
      [|contradiction].
    exists (Dict.setitem "exp" (Expiry (utcnow + lifetime)) data).
    rewrite E, Ea. cbn [Py.bind].
    split; [reflexivity|]. split; [apply getitem_setitem_same|].
    split.
    + intros key value N. now apply getitem_setitem_other.
    + intros jwt. unfold create_access_token. rewrite E, Ea. reflexivity.
  - intros Hout.
    destruct (datetime_add_cases utcnow lifetime) as [[Hin _]|[_ Ea]];
      [contradiction|].
    split.
    + rewrite E, Ea. reflexivity.
    + intros jwt. unfold create_access_token. rewrite E, Ea. reflexivity.
Qed.

Lemma access_token_claims_expiry_witness :
  (exists claims,
      access_token_claims
        [("sub"%string, Claim (JStr "ann@example.org"));
         ("exp"%string, Claim (JInt 0))] (Some 0) 1000
      = Ok claims /\
      Dict.getitem "sub" claims = Ok (Claim (JStr "ann@example.org")) /\
      Dict.getitem "exp" claims = Ok (Expiry 900001000)) /\
  access_token_claims [] (Some 1) datetime_max
  = Raise "date value out of range".
Proof.
  split.
  - destruct (access_token_claims_expiry
                [("sub"%string, Claim (JStr "ann@example.org"));
                 ("exp"%string, Claim (JInt 0))] (Some 0) 1000)
      as [H _].
    destruct H as [claims [Hc [Hexp [Hother _]]]].
    { vm_compute. split; discriminate. }
    exists claims. split; [exact Hc|]. split; [|exact Hexp].
    apply Hother; [discriminate | reflexivity].
  - destruct (access_token_claims_expiry [] (Some 1) datetime_max)
      as [_ H].
    apply H. vm_compute. intros [_ H']. now apply H'.
Defined.

End AuthExtras.

(** ** Gap categories *)

Module GapExtras.
Import Clustering ClusterFacts GapFacts RunFacts.

(** Selecting clusters keeps their names pairwise different. *)
Lemma selected_names_distinct (keep : Cluster -> bool)
    (clusters : list Cluster) :
  NoDup (map name clusters) ->
  NoDup (map name (filter keep clusters)).
Proof.
  intros Hnames.
  induction clusters as [|c cs IH]; simpl; [constructor|].
  inversion Hnames as [|? ? Hc Hcs]; subst.
  destruct (keep c); [|now apply IH]. simpl. constructor; [|now apply IH].
  intros Hin. apply Hc. apply in_map_iff in Hin.
  destruct Hin as [c' [E Hc']]. apply filter_In in Hc'.
  rewrite <- E. apply in_map. tauto.
Qed.

Lemma gap_categories_eq (clusters : list Cluster) :
  map gap_category (identify_gaps clusters)
  = map name (filter is_low_coverage clusters)
    ++ map name (filter is_low_priority clusters).
Proof.
  rewrite identify_gaps_eq, map_app, !map_map. reflexivity.
Qed.

Lemma gap_categories_NoDup (clusters : list Cluster) :
  NoDup (map name clusters) ->
  NoDup (map gap_category (identify_gaps clusters)).
Proof.
  intros ND. rewrite gap_categories_eq.
  assert (Hdisj : forall c,
             In c (map name (filter is_low_coverage clusters)) ->
             ~ In c (map name (filter is_low_priority clusters))).
  { intros c H1 H2. apply in_map_iff in H1, H2.
    destruct H1 as [x [Ex Hx]], H2 as [y [Ey Hy]].
    apply filter_In in Hx, Hy. destruct Hx as [Hx Px], Hy as [Hy Py].
    assert (E : x = y)
      by (apply (name_unique clusters); auto; congruence).
    subst y. eapply rules_exclusive; eauto. }
  pose proof (selected_names_distinct is_low_coverage clusters ND) as N1.
  pose proof (selected_names_distinct is_low_priority clusters ND) as N2.
  revert N1 Hdisj.
  generalize (map name (filter is_low_coverage clusters)) as l1.
  induction l1 as [|a l1 IH]; intros N1 Hdisj; [exact N2|].
  inversion N1 as [|? ? Ha Hl]; subst. simpl. constructor.
  - rewrite in_app_iff. intros [H|H]; [contradiction|].
    apply (Hdisj a); [now left | exact H].
  - apply IH; [exact Hl|]. intros c Hc. apply Hdisj. now right.
Qed.

(** X22: in the report of a run no category is flagged twice: the
    categories of the gaps are pairwise different, and every one of
    them is the name of a cluster of the report. *)
Theorem gap_categories_are_distinct
    (an : Analyzer) (disk : Disk) (self self' : FAQClusterer)
    (rows : list FAQ.t) (clock : Clock) (file : SavedFile) :
  run_clustering self (Ok rows) clock = Ok (self', file) ->
  NoDup (map gap_category (gaps (results file))) /\
  NoDup (map name (clusters (results file))) /\
  (forall gap, In gap (gaps (results file)) ->
               In (gap_category gap) (map name (clusters (results file)))).
Proof.
  intros H. apply run_clustering_ok in H. destruct H as [_ [-> _]].
  cbn [results save_results gaps clusters self_gaps self_clusters].
  set (l := analyze_all rows).
  assert (ND : NoDup (map name (map (cluster_of l)
                                    (distinct (map Analysis.category l))))).
  { rewrite map_map. cbn [name cluster_of]. rewrite map_id.
    apply distinct_NoDup. }
  split; [now apply gap_categories_NoDup|]. split; [exact ND|].
  intros gap Hg. apply in_identify_gaps in Hg.
  destruct Hg as [c [Hc [[-> _]|[-> _]]]]; exact (in_map name _ c Hc).
Qed.

Lemma gap_categories_are_distinct_witness :
  exists (self' : FAQClusterer) (file : SavedFile),
    @run_clustering Samples.flaky_analyzer Samples.disk init
      (Ok Samples.rows) Samples.clock
    = Ok (self', file) /\
    NoDup (map gap_category (gaps (results file))).
Proof.
  destruct (@run_clustering Samples.flaky_analyzer Samples.disk init
              (Ok Samples.rows) Samples.clock) as [[self' file]|e] eqn:E;
    [|vm_compute in E; discriminate E].
  exists self', file. split; [reflexivity|].
  destruct (gap_categories_are_distinct Samples.flaky_analyzer Samples.disk
              init self' Samples.rows Samples.clock file E) as [H _].
  exact H.
Defined.

End GapExtras.
